(** * StoryVerse style engine: a shallow embedding of [local-mcp/index.js]

    The development follows the helper functions of the local MCP server:
    the five metric extractors, the excerpt builder, the aggregator
    [combineMetrics] with the guard of its caller [createStyleProfile], and
    the guidance formatter [formatStyleGuidance].

    Conventions.
    - A JavaScript string is a list of code units.  We work with code units
      below 256 ([ascii]); on that alphabet whitespace, word characters and
      case folding are exactly the ones given below.
    - A JavaScript number is a value of [num]: a rational, or one of the
      three special values.  Counts (array lengths, match counts) are kept
      as [nat] and injected with [of_nat] where the source starts to do
      arithmetic with them.  In the extractors, whose numbers are quotients
      of counts, the quotients are kept exact.  The aggregator and the
      formatter compute with numbers read back from the store: there every
      number read, every literal and the result of every operation is
      rounded to binary64 ([binary64]).  Signed zero is not modelled (every
      divisor in the source is an array length).
    - A member that is missing ([undefined]) is [None].  The aggregator only
      tests such members for truthiness, so [null] behaves there like a
      missing member.  A member that is present holds a value of the type the
      extractors give it. *)

From Stdlib Require Import Ascii String DecimalString.
From Stdlib Require Import List Bool Arith Lia ZArith QArith Qcanon Qround.
From Stdlib Require Import Qpower Lqa SpecFloat.
Import ListNotations.

Close Scope Qc_scope.
Close Scope Q_scope.
Open Scope nat_scope.

(* ================================================================== *)
(** ** JavaScript numbers *)

Module JSNum.

Inductive num : Type :=
| NaN
| PInf
| NInf
| Fin (q : Qc).

Definition of_Q (q : Q) : num := Fin (Q2Qc q).

(** The rational of a count. *)
Definition natQ (n : nat) : Qc := Q2Qc (inject_Z (Z.of_nat n)).
Definition of_nat (n : nat) : num := Fin (natQ n).

Definition qzero : Qc := Q2Qc 0%Q.
Definition is_zero (q : Qc) : bool := Qc_eq_bool q qzero.
Definition is_pos (q : Qc) : bool :=
  match Qccompare qzero q with Lt => true | _ => false end.

(** [x + y] *)
Definition add (x y : num) : num :=
  match x, y with
  | NaN, _ | _, NaN => NaN
  | PInf, NInf | NInf, PInf => NaN
  | PInf, _ | _, PInf => PInf
  | NInf, _ | _, NInf => NInf
  | Fin a, Fin b => Fin (a + b)%Qc
  end.

(** [x / y]; a zero divisor is the positive zero. *)
Definition div (x y : num) : num :=
  match x, y with
  | NaN, _ | _, NaN => NaN
  | (PInf | NInf), (PInf | NInf) => NaN
  | Fin _, (PInf | NInf) => Fin qzero
  | PInf, Fin b => if is_zero b || is_pos b then PInf else NInf
  | NInf, Fin b => if is_zero b || is_pos b then NInf else PInf
  | Fin a, Fin b =>
      if is_zero b
      then (if is_zero a then NaN else if is_pos a then PInf else NInf)
      else Fin (a / b)%Qc
  end.

(** [x * y] *)
Definition mul (x y : num) : num :=
  match x, y with
  | NaN, _ | _, NaN => NaN
  | Fin a, Fin b => Fin (a * b)%Qc
  | Fin a, PInf | PInf, Fin a =>
      if is_zero a then NaN else if is_pos a then PInf else NInf
  | Fin a, NInf | NInf, Fin a =>
      if is_zero a then NaN else if is_pos a then NInf else PInf
  | PInf, PInf | NInf, NInf => PInf
  | PInf, NInf | NInf, PInf => NInf
  end.

(** [x < y]; any comparison with [NaN] is false. *)
Definition lt (x y : num) : bool :=
  match x, y with
  | NaN, _ | _, NaN => false
  | _, NInf => false
  | PInf, _ => false
  | NInf, _ => true
  | _, PInf => true
  | Fin a, Fin b => match Qccompare a b with Lt => true | _ => false end
  end.

(** [x > y] *)
Definition gt (x y : num) : bool := lt y x.

(** [Math.min(x, y)] *)
Definition min (x y : num) : num :=
  match x, y with
  | NaN, _ | _, NaN => NaN
  | _, _ => if lt y x then y else x
  end.

(** [Math.round(x)]: the integer nearest to [x], ties towards +Infinity. *)
Definition round (x : num) : num :=
  match x with
  | Fin q => of_Q (inject_Z (Qfloor (q + Q2Qc (1 # 2)%Q)%Qc))
  | _ => x
  end.

(** Truthiness of a number: everything but [0] and [NaN]. *)
Definition truthy (x : num) : bool :=
  match x with
  | NaN => false
  | Fin q => negb (is_zero q)
  | _ => true
  end.

(** [x || d] on numbers. *)
Definition or_else (x d : num) : num := if truthy x then x else d.

(** [Number.isFinite(x)] *)
Definition finite (x : num) : bool :=
  match x with Fin _ => true | _ => false end.

(** [x >= 0] *)
Definition nonneg (x : num) : bool :=
  match x with
  | Fin q => is_zero q || is_pos q
  | PInf => true
  | _ => false
  end.

Definition zero : num := of_nat 0.
Definition one : num := of_nat 1.

(** *** Binary64

    The number nearest to a rational among those with 53 significant bits
    and an exponent in range, ties going to the even one: below [2^-1022] the
    last bit stays at [2^-1074], and what rounds to [2^1024] is infinite. *)

(** [2^e], for an exponent of either sign. *)
Definition pow2 (e : Z) : Q := Qpower 2 e.

(** The integer part of the binary logarithm of a positive rational. *)
Definition ilog2 (q : Q) : Z :=
  let k := (Z.log2 (Qnum q) - Z.log2 (Zpos (Qden q)))%Z in
  if Qle_bool (pow2 k) q then k else (k - 1)%Z.

(** The integer nearest to [x], a tie going to the even one. *)
Definition nearest_even (x : Q) : Z :=
  let f := Qfloor x in
  match Qcompare (x - inject_Z f) (1 # 2) with
  | Lt => f
  | Eq => if Z.even f then f else (f + 1)%Z
  | Gt => (f + 1)%Z
  end.

(** The binary64 number nearest to a positive rational; [None] is the
    overflow.  [e] is the exponent of the last bit kept. *)
Definition round_pos (q : Q) : option Q :=
  let e := Z.max (ilog2 q - 52) (-1074) in
  let r := (inject_Z (nearest_even (q / pow2 e)) * pow2 e)%Q in
  if Qle_bool (pow2 1024) r then None else Some r.

Definition binary64 (x : num) : num :=
  match x with
  | Fin q =>
      match Qcompare 0 q with
      | Eq => x
      | Lt => match round_pos q with Some r => of_Q r | None => PInf end
      | Gt => match round_pos (- q) with Some r => of_Q (- r) | None => NInf end
      end
  | _ => x
  end.

(** The number a decimal literal of the source denotes. *)
Definition literal (q : Q) : num := binary64 (of_Q q).

(** [x + y], [x / y] and [x * y] on binary64 numbers. *)
Definition add64 (x y : num) : num := binary64 (add x y).
Definition div64 (x y : num) : num := binary64 (div x y).
Definition mul64 (x y : num) : num := binary64 (mul x y).

(** The same number. *)
Definition same (x y : num) : bool :=
  match x, y with
  | NaN, NaN | PInf, PInf | NInf, NInf => true
  | Fin a, Fin b => Qc_eq_bool a b
  | _, _ => false
  end.

(** [x] is a binary64 number. *)
Definition is_double (x : num) : bool := same (binary64 x) x.

(** The value of a number of the Standard Library's specification of
    IEEE 754, and the quotient of two positive integers computed by its
    division at 53 bits; they serve to cross-check [binary64]. *)
Definition of_spec_float (f : spec_float) : num :=
  match f with
  | S754_zero _ => zero
  | S754_infinity s => if s then NInf else PInf
  | S754_nan => NaN
  | S754_finite s m e =>
      of_Q ((if s then - inject_Z (Zpos m) else inject_Z (Zpos m)) * pow2 e)
  end.

Definition spec_quotient (p d : positive) : num :=
  of_spec_float (SFdiv 53 1024 (S754_finite false p 0) (S754_finite false d 0)).

End JSNum.
Import JSNum.

(* ================================================================== *)
(** ** JavaScript strings *)

Definition jsstring : Type := list ascii.

(** String literals. *)
Definition js (s : string) : jsstring := list_ascii_of_string s.

Definition code (c : ascii) : nat := nat_of_ascii c.

(** The characters matched by [\s] and removed by [trim]: TAB, LF, VT, FF,
    CR, SPACE and NO-BREAK SPACE. *)
Definition is_space (c : ascii) : bool :=
  let n := code c in
  ((9 <=? n) && (n <=? 13)) || (n =? 32) || (n =? 160).

(** The characters matched by [\w]. *)
Definition is_word_char (c : ascii) : bool :=
  let n := code c in
  ((48 <=? n) && (n <=? 57)) || ((65 <=? n) && (n <=? 90))
  || ((97 <=? n) && (n <=? 122)) || (n =? 95).

(** The class [[.!?]]. *)
Definition is_terminator (c : ascii) : bool :=
  let n := code c in (n =? 46) || (n =? 33) || (n =? 63).

Definition is_question_mark (c : ascii) : bool := code c =? 63.
Definition is_period (c : ascii) : bool := code c =? 46.

(** [s.split(/[class]+/)]: the pieces between maximal runs of separator
    characters.  [cur] holds the current piece reversed; [insep] says that the
    previous character was a separator. *)
Fixpoint split_runs_aux (sep : ascii -> bool) (s : jsstring)
         (cur : jsstring) (insep : bool) : list jsstring :=
  match s with
  | [] => [rev cur]
  | c :: r =>
      if sep c
      then (if insep then split_runs_aux sep r [] true
            else rev cur :: split_runs_aux sep r [] true)
      else split_runs_aux sep r (c :: cur) false
  end.

Definition split_runs (sep : ascii -> bool) (s : jsstring) : list jsstring :=
  split_runs_aux sep s [] false.

Fixpoint drop_while (p : ascii -> bool) (s : jsstring) : jsstring :=
  match s with
  | [] => []
  | c :: r => if p c then drop_while p r else s
  end.

(** [s.trim()] *)
Definition trim (s : jsstring) : jsstring :=
  rev (drop_while is_space (rev (drop_while is_space s))).

(** [Boolean(s)] for a string. *)
Definition nonempty (s : jsstring) : bool :=
  match s with [] => false | _ => true end.

(** [s.split(/\s+/).filter(Boolean)] *)
Definition words_of (s : jsstring) : list jsstring :=
  filter nonempty (split_runs is_space s).

(** [(s.match(/c/g) || []).length] for a one-character class. *)
Definition count_chars (p : ascii -> bool) (s : jsstring) : nat :=
  length (filter p s).

Definition jsstring_eqb (a b : jsstring) : bool :=
  if list_eq_dec ascii_dec a b then true else false.

(** [list.includes(w)] *)
Definition includes (l : list jsstring) (w : jsstring) : bool :=
  existsb (jsstring_eqb w) l.

(* ================================================================== *)
(** ** Sentence metrics *)

Module SM.
Record dist : Type := {
  short : num;
  medium : num;
  long : num
}.
Record t : Type := {
  avg_length : num;
  length_distribution : dist;
  complexity_score : num;
  question_frequency : num;
  fragment_frequency : num
}.
End SM.

(** [text.split(/[.!?]+/).filter(sentence => sentence.trim().length > 0)] *)
Definition sentences_of (text : jsstring) : list jsstring :=
  filter (fun sentence => 0 <? length (trim sentence))
         (split_runs is_terminator text).

(** [sentence.split(/\s+/).filter(Boolean).length] *)
Definition word_count (sentence : jsstring) : nat :=
  length (words_of sentence).

Definition calculateSentenceMetrics (text : jsstring) : SM.t :=
  let sentences := sentences_of text in
  let sentenceLengths := map word_count sentences in
  let n := of_nat (length sentences) in
  let avgLength :=
    or_else (div (of_nat (fold_left (fun sum len => sum + len) sentenceLengths 0)) n)
            zero in
  let shortSentences := length (filter (fun len => len <=? 10) sentenceLengths) in
  let mediumSentences :=
    length (filter (fun len => (10 <? len) && (len <=? 20)) sentenceLengths) in
  let longSentences := length (filter (fun len => 20 <? len) sentenceLengths) in
  {| SM.avg_length := avgLength;
     SM.length_distribution :=
       {| SM.short := or_else (div (of_nat shortSentences) n) zero;
          SM.medium := or_else (div (of_nat mediumSentences) n) zero;
          SM.long := or_else (div (of_nat longSentences) n) zero |};
     SM.complexity_score := min one (div avgLength (of_nat 25));
     SM.question_frequency :=
       or_else (div (of_nat (count_chars is_question_mark text)) n) zero;
     SM.fragment_frequency :=
       or_else
         (div (of_nat (length (filter (fun s => word_count s <? 5) sentences))) n)
         zero |}.

(* ================================================================== *)
(** ** Regular expressions of the form [/\b(w1|w2|...)\b/gi] *)

Definition between (lo hi n : nat) : bool := (lo <=? n) && (n <=? hi).

(** Canonical form of a code unit under the [i] flag (its upper case when
    that is again a single code unit of the alphabet). *)
Definition canonicalize (c : ascii) : ascii :=
  let n := code c in
  if between 97 122 n || (between 224 254 n && negb (n =? 247))
  then ascii_of_nat (n - 32) else c.

Definition char_eq_ci (a b : ascii) : bool :=
  code (canonicalize a) =? code (canonicalize b).

Definition is_word_at (c : option ascii) : bool :=
  match c with Some x => is_word_char x | None => false end.

(** The assertion [\b] between two neighbouring positions. *)
Definition boundary (prev next : option ascii) : bool :=
  xorb (is_word_at prev) (is_word_at next).

(** Match the literal [w] at the head of [s], ignoring case; the result is the
    last code unit consumed (or [prev] when [w] is empty) and the rest. *)
Fixpoint match_literal (w s : jsstring) (prev : option ascii)
  : option (option ascii * jsstring) :=
  match w with
  | [] => Some (prev, s)
  | a :: w' =>
      match s with
      | [] => None
      | c :: r => if char_eq_ci a c then match_literal w' r (Some c) else None
      end
  end.

(** The alternation followed by the closing [\b], tried from left to right at
    the head of [s]; the result is the number of code units matched. *)
Fixpoint match_alternatives (alts : list jsstring) (s : jsstring)
         (prev : option ascii) : option nat :=
  match alts with
  | [] => None
  | w :: alts' =>
      match match_literal w s prev with
      | Some (last, rest) =>
          if boundary last (hd_error rest) then Some (length w)
          else match_alternatives alts' s prev
      | None => match_alternatives alts' s prev
      end
  end.

(** The global search: [prev] is the code unit before the current position and
    [skip] the number of code units of the last match still to be passed.  The
    alternatives are non-empty words, so a match is never empty. *)
Fixpoint count_matches_aux (alts : list jsstring) (s : jsstring)
         (prev : option ascii) (skip : nat) : nat :=
  match s with
  | [] => 0
  | c :: r =>
      match skip with
      | S k => count_matches_aux alts r (Some c) k
      | O =>
          if boundary prev (Some c)
          then match match_alternatives alts s prev with
               | Some (S len) => S (count_matches_aux alts r (Some c) len)
               | _ => count_matches_aux alts r (Some c) 0
               end
          else count_matches_aux alts r (Some c) 0
      end
  end.

(** [(text.match(/\b(w1|...)\b/gi) || []).length] *)
Definition count_matches (alts : list jsstring) (text : jsstring) : nat :=
  count_matches_aux alts text None 0.

(* ================================================================== *)
(** ** Narrative characteristics *)

Module NC.
Record t : Type := {
  pov : jsstring;
  tense : jsstring;
  description_density : num;
  action_to_reflection_ratio : num;
  show_vs_tell_balance : num
}.
End NC.

Definition firstPersonWords : list jsstring :=
  map js ["I"; "me"; "my"; "mine"; "we"; "us"; "our"; "ours"]%string.
Definition thirdPersonWords : list jsstring :=
  map js ["he"; "him"; "his"; "she"; "her"; "hers"; "they"; "them"; "their";
          "theirs"]%string.
Definition presentTenseWords : list jsstring :=
  map js ["is"; "are"; "am"; "being"; "do"; "does"; "has"; "have"]%string.
Definition pastTenseWords : list jsstring :=
  map js ["was"; "were"; "had"; "did"]%string.

Definition firstPersonIndicators (text : jsstring) : nat :=
  count_matches firstPersonWords text.
Definition thirdPersonIndicators (text : jsstring) : nat :=
  count_matches thirdPersonWords text.
Definition presentTenseIndicators (text : jsstring) : nat :=
  count_matches presentTenseWords text.
Definition pastTenseIndicators (text : jsstring) : nat :=
  count_matches pastTenseWords text.

Definition analyzeNarrativeCharacteristics (text : jsstring) : NC.t :=
  let pov :=
    if thirdPersonIndicators text * 2 <? firstPersonIndicators text
    then js "first_person"
    else if firstPersonIndicators text <? thirdPersonIndicators text
         then js "third_person"
         else js "unknown" in
  let tense :=
    if gt (of_nat (presentTenseIndicators text))
          (mul (of_nat (pastTenseIndicators text)) (of_Q 1.5%Q))
    then js "present"
    else if presentTenseIndicators text <? pastTenseIndicators text
         then js "past"
         else js "unknown" in
  {| NC.pov := pov;
     NC.tense := tense;
     NC.description_density := of_Q 0.4%Q;
     NC.action_to_reflection_ratio := of_Q 1.5%Q;
     NC.show_vs_tell_balance := of_Q 0.65%Q |}.

(* ================================================================== *)
(** ** Tone *)

Module Tone.
Record t : Type := {
  emotional_tone : list jsstring;
  formality_level : jsstring;
  humor_level : num;
  sarcasm_level : num
}.
End Tone.

(** [c.toLowerCase()] on one code unit. *)
Definition lower_char (c : ascii) : ascii :=
  let n := code c in
  if between 65 90 n || (between 192 222 n && negb (n =? 215))
  then ascii_of_nat (n + 32) else c.

(** [s.toLowerCase()] *)
Definition toLowerCase (s : jsstring) : jsstring := map lower_char s.

Definition positiveWords : list jsstring :=
  map js ["happy"; "joy"; "love"; "excellent"; "good"; "great"]%string.
Definition negativeWords : list jsstring :=
  map js ["sad"; "angry"; "hate"; "terrible"; "bad"; "awful"]%string.
Definition formalWords : list jsstring :=
  map js ["therefore"; "furthermore"; "consequently"; "nevertheless"]%string.

Definition tone_words (text : jsstring) : list jsstring :=
  words_of (toLowerCase text).
Definition positiveCount (text : jsstring) : nat :=
  length (filter (includes positiveWords) (tone_words text)).
Definition negativeCount (text : jsstring) : nat :=
  length (filter (includes negativeWords) (tone_words text)).
Definition formalCount (text : jsstring) : nat :=
  length (filter (includes formalWords) (tone_words text)).

Definition analyzeTone (text : jsstring) : Tone.t :=
  let words := tone_words text in
  let emotionalTone :=
    if negativeCount text * 2 <? positiveCount text then [js "optimistic"]
    else if positiveCount text * 2 <? negativeCount text then [js "pessimistic"]
    else [js "neutral"] in
  let formality :=
    if gt (div (of_nat (formalCount text)) (of_nat (length words))) (of_Q 0.01%Q)
    then js "formal" else js "casual" in
  {| Tone.emotional_tone := emotionalTone;
     Tone.formality_level := formality;
     Tone.humor_level := of_Q 0.2%Q;
     Tone.sarcasm_level := of_Q 0.1%Q |}.

(* ================================================================== *)
(** ** Excerpts *)

(** [s.lastIndexOf(c)], [-1] when [c] does not occur. *)
Fixpoint lastIndexOf_aux (p : ascii -> bool) (s : jsstring) (i found : Z) : Z :=
  match s with
  | [] => found
  | c :: r => lastIndexOf_aux p r (i + 1)%Z (if p c then i else found)
  end.

Definition lastIndexOf (p : ascii -> bool) (s : jsstring) : Z :=
  lastIndexOf_aux p s 0%Z (-1)%Z.

(** [s.slice(0, n)] *)
Definition slice0 (s : jsstring) (n : Z) : jsstring := firstn (Z.to_nat n) s.

Definition ellipsis : jsstring := js "...".

Definition createExcerpt (text : jsstring) : jsstring :=
  let excerpt := slice0 text 200 in
  let lastPeriod := lastIndexOf is_period excerpt in
  if (100 <? lastPeriod)%Z
  then slice0 excerpt (lastPeriod + 1)
  else excerpt ++ ellipsis.

(* ================================================================== *)
(** ** Plain objects used as tables of counters

    [combineMetrics] counts categorical values in an object literal [{}]:
    [counts[k] = (counts[k] || 0) + 1], then walks [Object.keys(counts)].
    Two features of objects are visible through that idiom and are modelled:
    the members inherited from [Object.prototype], and the order of
    [Object.keys] (array indices first, ascending; then the other names in
    creation order). *)

Module JSObject.

(** What a property of the table can hold: a count, or the string obtained
    by appending [1] to an inherited member. *)
Inductive value : Type :=
| Count (n : nat)
| Text.

(** Own properties in creation order. *)
Definition t : Type := list (jsstring * value).

Definition empty : t := [].

(** The names found on [Object.prototype]. *)
Definition inherited_names : list jsstring :=
  map js ["constructor"; "__defineGetter__"; "__defineSetter__";
          "hasOwnProperty"; "__lookupGetter__"; "__lookupSetter__";
          "isPrototypeOf"; "propertyIsEnumerable"; "toString"; "valueOf";
          "toLocaleString"]%string.

(** [__proto__] is an accessor whose setter ignores strings. *)
Definition proto_name : jsstring := js "__proto__".

Fixpoint own (o : t) (k : jsstring) : option value :=
  match o with
  | [] => None
  | (k', v) :: o' => if jsstring_eqb k k' then Some v else own o' k
  end.

Fixpoint set (o : t) (k : jsstring) (v : value) : t :=
  match o with
  | [] => [(k, v)]
  | (k', v') :: o' =>
      if jsstring_eqb k k' then (k', v) :: o' else (k', v') :: set o' k v
  end.

(** [o[k] = (o[k] || 0) + 1] *)
Definition bump (o : t) (k : jsstring) : t :=
  match own o k with
  | Some (Count n) => set o k (Count (n + 1))
  | Some Text => o
  | None =>
      if jsstring_eqb k proto_name then o
      else if includes inherited_names k then set o k Text
      else set o k (Count (0 + 1))
  end.

Fixpoint digits_value (s : jsstring) (acc : N) : option N :=
  match s with
  | [] => Some acc
  | c :: r =>
      if between 48 57 (code c)
      then digits_value r (acc * 10 + N.of_nat (code c - 48))%N
      else None
  end.

(** The array index denoted by a property name, if it is one: a canonical
    decimal numeral below [2^32 - 1]. *)
Definition array_index (k : jsstring) : option N :=
  match k with
  | [] => None
  | c :: r =>
      if (code c =? 48) && nonempty r then None
      else match digits_value k 0%N with
           | Some v => if (v <=? 4294967294)%N then Some v else None
           | None => None
           end
  end.

Definition is_index (k : jsstring) : bool :=
  match array_index k with Some _ => true | None => false end.

Fixpoint insert_sorted (k : jsstring) (v : N) (l : list (N * jsstring))
  : list (N * jsstring) :=
  match l with
  | [] => [(v, k)]
  | (v', k') :: l' =>
      if (v <=? v')%N then (v, k) :: l else (v', k') :: insert_sorted k v l'
  end.

Definition sorted_indices (names : list jsstring) : list jsstring :=
  map snd
      (fold_left (fun acc k =>
                    match array_index k with
                    | Some v => insert_sorted k v acc
                    | None => acc
                    end) names []).

(** [Object.keys(o)] *)
Definition keys (o : t) : list jsstring :=
  let names := map fst o in
  sorted_indices names ++ filter (fun k => negb (is_index k)) names.

(** [o[k] > maxCount]: a string that is not a numeral compares false. *)
Definition exceeds (o : t) (k : jsstring) (maxCount : nat) : option nat :=
  match own o k with
  | Some (Count c) => if maxCount <? c then Some c else None
  | _ => None
  end.

End JSObject.

(** The counting loop
    [analyses.forEach(a => { const v = ...; if (v) counts[v] = (counts[v] || 0) + 1 })]
    over the values the rows supply ([None], or the empty string, is skipped). *)
Definition count_values (values : list (option jsstring)) : JSObject.t :=
  fold_left (fun counts v =>
               match v with
               | Some k => if nonempty k then JSObject.bump counts k else counts
               | None => counts
               end) values JSObject.empty.

(** The selection loop
    [let dominant = default; let maxCount = 0;
     Object.keys(counts).forEach(k => { if (counts[k] > maxCount) {...} })]. *)
Definition select_dominant (default : jsstring) (counts : JSObject.t) : jsstring :=
  fst (fold_left (fun (st : jsstring * nat) k =>
                    match JSObject.exceeds counts k (snd st) with
                    | Some c => (k, c)
                    | None => st
                    end) (JSObject.keys counts) (default, 0)).

Definition dominant_value (default : jsstring) (values : list (option jsstring))
  : jsstring :=
  select_dominant default (count_values values).

(** [new Set()] filled with [add] and read back with [Array.from]. *)
Definition set_add (acc : list jsstring) (x : jsstring) : list jsstring :=
  if includes acc x then acc else acc ++ [x].

(* ================================================================== *)
(** ** Rows of [style_analyses] as read back from the store

    Every member may be missing.  A numeric member holds, when present, the
    number written in the stored row; the client reads it as the nearest
    binary64 number ([parsed]). *)

Module Row.
Record dist : Type := {
  short : option num;
  medium : option num;
  long : option num
}.
Record sentence_metrics : Type := {
  avg_length : option num;
  length_distribution : option dist;
  complexity_score : option num;
  question_frequency : option num
}.
Record vocabulary_metrics : Type := {
  lexical_diversity : option num;
  formality_score : option num
}.
Record narrative_characteristics : Type := {
  pov : option jsstring;
  tense : option jsstring;
  action_to_reflection_ratio : option num
}.
Record tone_attributes : Type := {
  emotional_tone : option (list jsstring);
  formality_level : option jsstring
}.
Record stylistic_devices : Type := {
  metaphor_frequency : option num;
  simile_frequency : option num;
  alliteration_frequency : option num;
  repetition_patterns : option num
}.
Record t : Type := {
  sentence : option sentence_metrics;
  vocabulary : option vocabulary_metrics;
  narrative : option narrative_characteristics;
  tone : option tone_attributes;
  devices : option stylistic_devices;
  comparable_authors : option (list jsstring)
}.
End Row.

(** [obj?.member] *)
Definition chain {A B : Type} (obj : option A) (member : A -> option B) : option B :=
  match obj with Some o => member o | None => None end.

(** [x || d] where [x] may be missing. *)
Definition or_default (x : option num) (d : num) : num :=
  match x with Some v => or_else v d | None => d end.

(** A number of a row, as the client holds it. *)
Definition parsed (x : option num) : option num :=
  match x with Some v => Some (binary64 v) | None => None end.

(** [analyses.reduce((sum, a) => sum + (f(a) || d), 0) / analyses.length] *)
Definition mean_of (analyses : list Row.t) (f : Row.t -> option num) (d : num) : num :=
  div64 (fold_left (fun sum a => add64 sum (or_default (parsed (f a)) d))
                   analyses zero)
        (of_nat (length analyses)).

(** The composite returned by [combineMetrics]. *)
Module SP.
Record sentence : Type := {
  avg_length : num;
  short : num;
  medium : num;
  long : num;
  complexity : num;
  questions : bool
}.
Record vocabulary : Type := {
  diversity : num;
  voc_formality : jsstring
}.
Record narrative : Type := {
  pov : jsstring;
  tense : jsstring;
  description_heavy : bool;
  action_ratio : num
}.
Record tone : Type := {
  emotional : list jsstring;
  tone_formality : jsstring;
  humor : jsstring
}.
Record devices : Type := {
  metaphors : bool;
  similes : bool;
  alliteration : bool;
  repetition : bool
}.
Record t : Type := {
  sentence_part : sentence;
  vocabulary_part : vocabulary;
  narrative_part : narrative;
  tone_part : tone;
  devices_part : devices;
  comparable_authors : list jsstring
}.
End SP.

Definition avg_length_of (a : Row.t) := chain (Row.sentence a) Row.avg_length.
Definition complexity_of (a : Row.t) := chain (Row.sentence a) Row.complexity_score.
Definition question_frequency_of (a : Row.t) :=
  chain (Row.sentence a) Row.question_frequency.
Definition lexical_diversity_of (a : Row.t) :=
  chain (Row.vocabulary a) Row.lexical_diversity.
Definition formality_score_of (a : Row.t) :=
  chain (Row.vocabulary a) Row.formality_score.
Definition action_ratio_of (a : Row.t) :=
  chain (Row.narrative a) Row.action_to_reflection_ratio.
Definition metaphor_of (a : Row.t) := chain (Row.devices a) Row.metaphor_frequency.
Definition simile_of (a : Row.t) := chain (Row.devices a) Row.simile_frequency.
Definition alliteration_of (a : Row.t) :=
  chain (Row.devices a) Row.alliteration_frequency.
Definition repetition_of (a : Row.t) := chain (Row.devices a) Row.repetition_patterns.
Definition pov_of (a : Row.t) := chain (Row.narrative a) Row.pov.
Definition tense_of (a : Row.t) := chain (Row.narrative a) Row.tense.
Definition formality_level_of (a : Row.t) := chain (Row.tone a) Row.formality_level.

(** One of [shortTotal], [mediumTotal], [longTotal] after the [forEach]. *)
Definition dist_total (analyses : list Row.t) (member : Row.dist -> option num) : num :=
  fold_left (fun total a =>
               match chain (Row.sentence a) Row.length_distribution with
               | Some d => add64 total (or_default (parsed (member d)) zero)
               | None => total
               end) analyses zero.

Definition collect_tones (analyses : list Row.t) : list jsstring :=
  fold_left (fun tones a =>
               match chain (Row.tone a) Row.emotional_tone with
               | Some l => fold_left set_add l tones
               | None => tones
               end) analyses [].

Definition collect_authors (analyses : list Row.t) : list jsstring :=
  fold_left (fun authors a =>
               match Row.comparable_authors a with
               | Some l => fold_left set_add l authors
               | None => authors
               end) analyses [].

(** [combineMetrics]; [None] is the [null] it returns for no analyses. *)
Definition combineMetrics (analyses : list Row.t) : option SP.t :=
  if length analyses =? 0 then None
  else
    let n := of_nat (length analyses) in
    let avgSentenceLength := mean_of analyses avg_length_of zero in
    let shortTotal := dist_total analyses Row.short in
    let mediumTotal := dist_total analyses Row.medium in
    let longTotal := dist_total analyses Row.long in
    let complexityScore := mean_of analyses complexity_of zero in
    let questionFrequency := mean_of analyses question_frequency_of zero in
    let lexicalDiversity := mean_of analyses lexical_diversity_of zero in
    let formalityScore := mean_of analyses formality_score_of zero in
    let dominantPov := dominant_value (js "unknown") (map pov_of analyses) in
    let dominantTense := dominant_value (js "unknown") (map tense_of analyses) in
    let actionRatio := mean_of analyses action_ratio_of one in
    let tones := collect_tones analyses in
    let dominantFormality :=
      dominant_value (js "neutral") (map formality_level_of analyses) in
    let metaphor := mean_of analyses metaphor_of zero in
    let simile := mean_of analyses simile_of zero in
    let alliteration := mean_of analyses alliteration_of zero in
    let repetition := mean_of analyses repetition_of zero in
    let authors := collect_authors analyses in
    Some
      {| SP.sentence_part :=
           {| SP.avg_length := avgSentenceLength;
              SP.short := div64 shortTotal n;
              SP.medium := div64 mediumTotal n;
              SP.long := div64 longTotal n;
              SP.complexity := complexityScore;
              SP.questions := gt questionFrequency (literal 0.05%Q) |};
         SP.vocabulary_part :=
           {| SP.diversity := lexicalDiversity;
              SP.voc_formality :=
                if gt formalityScore (literal 0.6%Q) then js "formal"
                else if gt formalityScore (literal 0.4%Q) then js "neutral"
                     else js "casual" |};
         SP.narrative_part :=
           {| SP.pov := dominantPov;
              SP.tense := dominantTense;
              SP.description_heavy := lt actionRatio one;
              SP.action_ratio := actionRatio |};
         SP.tone_part :=
           {| SP.emotional := tones;
              SP.tone_formality := dominantFormality;
              SP.humor := js "low" |};
         SP.devices_part :=
           {| SP.metaphors := gt metaphor (literal 0.01%Q);
              SP.similes := gt simile (literal 0.01%Q);
              SP.alliteration := gt alliteration (literal 0.01%Q);
              SP.repetition := gt repetition (literal 0.01%Q) |};
         SP.comparable_authors := authors |}.

(* ================================================================== *)
(** ** The guard of [createStyleProfile]

    [createStyleProfile] is the only caller of [combineMetrics].  Its body up
    to the call is modelled as a function of what the two queries answered;
    an exception is the [Thrown] outcome, and the [catch] clause rewraps its
    message. *)

Inductive outcome (A : Type) : Type :=
| Returned (a : A)
| Thrown (message : jsstring).
Arguments Returned {A} a.
Arguments Thrown {A} message.

Definition bind {A B : Type} (m : outcome A) (k : A -> outcome B) : outcome B :=
  match m with
  | Returned a => k a
  | Thrown message => Thrown message
  end.

Notation "m >> k" := (bind m (fun _ => k)) (at level 61, right associativity).

(** [if (cond) throw new Error(message)] *)
Definition throw_if (cond : bool) (message : jsstring) : outcome unit :=
  if cond then Thrown message else Returned tt.

(** [try { body } catch (error) { throw new Error(prefix + error.message) }] *)
Definition rewrap {A : Type} (prefix : jsstring) (body : outcome A) : outcome A :=
  match body with
  | Returned a => Returned a
  | Thrown message => Thrown (prefix ++ message)
  end.

(** Decimal numeral of a length. *)
Definition show_nat (n : nat) : jsstring :=
  js (NilEmpty.string_of_uint (Nat.to_uint n)).

Definition is_some {A : Type} (x : option A) : bool :=
  match x with Some _ => true | None => false end.

Definition message_of (error : option jsstring) : jsstring :=
  match error with Some m => m | None => [] end.

Module Fetched.
Record t : Type := {
  sampleIds : list jsstring;
  samplesError : option jsstring;
  samples : list jsstring;
  analysesError : option jsstring;
  analyses : list Row.t
}.
End Fetched.

Definition no_analyses_message : jsstring :=
  js "No style analyses found for the provided samples. Please analyze the samples first.".

(** The value of [styleParameters] after step 3 of [createStyleProfile]. *)
Definition createStyleProfile_parameters (r : Fetched.t) : outcome (option SP.t) :=
  rewrap (js "Failed to create style profile: ")
    (throw_if (is_some (Fetched.samplesError r))
              (js "Failed to verify samples: " ++ message_of (Fetched.samplesError r)) >>
     throw_if (negb (length (Fetched.samples r) =? length (Fetched.sampleIds r)))
              (js "Some sample IDs do not exist. Found "
                  ++ show_nat (length (Fetched.samples r)) ++ js " of "
                  ++ show_nat (length (Fetched.sampleIds r))
                  ++ js " requested samples.") >>
     throw_if (is_some (Fetched.analysesError r))
              (js "Failed to fetch style analyses: "
                  ++ message_of (Fetched.analysesError r)) >>
     throw_if (length (Fetched.analyses r) =? 0) no_analyses_message >>
     Returned (combineMetrics (Fetched.analyses r))).

(* ================================================================== *)
(** ** Style guidance *)

(** The argument of [formatStyleGuidance].  Every member may be missing; a
    flag that is missing is [false]. *)
Module Guide.
Record dist : Type := {
  short : option num;
  medium : option num;
  long : option num
}.
Record sentence : Type := {
  avg_length : option num;
  length_distribution : option dist;
  complexity : option num;
  questions : bool
}.
Record vocabulary : Type := {
  diversity : option num;
  voc_formality : option jsstring;
  voc_avoid : option (list jsstring);
  prefer : option (list jsstring)
}.
Record narrative : Type := {
  pov : option jsstring;
  tense : option jsstring;
  description_heavy : bool
}.
Record tone : Type := {
  emotional : option (list jsstring);
  tone_formality : option jsstring;
  humor : option jsstring
}.
Record devices : Type := {
  metaphors : bool;
  similes : bool;
  alliteration : bool;
  repetition : bool;
  dev_avoid : option (list jsstring)
}.
Record t : Type := {
  sentence_part : option sentence;
  vocabulary_part : option vocabulary;
  narrative_part : option narrative;
  tone_part : option tone;
  devices_part : option devices;
  comparable_authors : option (list jsstring);
  user_comments : option jsstring
}.
End Guide.

(** The line feed. *)
Definition nl : jsstring := [ascii_of_nat 10].

(** [l.join(sep)] *)
Fixpoint join (sep : jsstring) (l : list jsstring) : jsstring :=
  match l with
  | [] => []
  | [x] => x
  | x :: r => x ++ sep ++ join sep r
  end.

Definition comma : jsstring := js ", ".

(** A missing number used in arithmetic or a comparison is [NaN]. *)
Definition to_num (x : option num) : num :=
  match x with Some v => v | None => NaN end.

(** A number of the style parameters, as the formatter holds it. *)
Definition held (x : option num) : num := to_num (parsed x).

(** [x === 'literal'] *)
Definition is_literal (x : option jsstring) (literal : string) : bool :=
  match x with Some v => jsstring_eqb v (js literal) | None => false end.

(** Truthiness of a string that may be missing. *)
Definition truthy_string (x : option jsstring) : bool :=
  match x with Some v => nonempty v | None => false end.

Definition text_of (x : option jsstring) : jsstring :=
  match x with Some v => v | None => [] end.

Definition hundred : num := of_nat 100.

Section Formatter.

(** The numeral a template literal prints for a number. *)
Variable number_to_string : num -> jsstring.

Definition percent (x : option num) : jsstring :=
  number_to_string (round (mul64 (held x) hundred)).

Definition sentence_section (p : Guide.t) : jsstring :=
  match Guide.sentence_part p with
  | None => []
  | Some s =>
      let sentenceLength :=
        if lt (held (Guide.avg_length s)) (of_nat 12) then js "short"
        else if lt (held (Guide.avg_length s)) (of_nat 20) then js "moderate"
             else js "long" in
      js "## Sentence Structure" ++ nl
      ++ js "- Use predominantly " ++ sentenceLength ++ js " sentences (average "
      ++ number_to_string (round (held (Guide.avg_length s)))
      ++ js " words per sentence)" ++ nl
      ++ match Guide.length_distribution s with
         | Some d =>
             js "- Sentence variety: " ++ percent (Guide.short d) ++ js "% short, "
             ++ percent (Guide.medium d) ++ js "% medium, "
             ++ percent (Guide.long d) ++ js "% long" ++ nl
         | None => []
         end
      ++ js "- Complexity: "
      ++ (if lt (held (Guide.complexity s)) (literal 0.4%Q) then js "simple and direct"
          else if lt (held (Guide.complexity s)) (literal 0.7%Q)
               then js "moderately complex"
               else js "complex with multiple clauses") ++ nl
      ++ js "- Question frequency: "
      ++ (if Guide.questions s then js "Include occasional questions"
          else js "Rarely use questions") ++ nl ++ nl
  end.

Definition vocabulary_section (p : Guide.t) : jsstring :=
  match Guide.vocabulary_part p with
  | None => []
  | Some v =>
      js "## Vocabulary" ++ nl
      ++ js "- Lexical diversity: "
      ++ (if lt (held (Guide.diversity v)) (literal 0.4%Q)
          then js "Limited - use repetition and simple words"
          else if lt (held (Guide.diversity v)) (literal 0.6%Q)
               then js "Moderate - mix familiar words with occasional distinctive ones"
               else js "High - use varied, precise vocabulary") ++ nl
      ++ js "- Formality: "
      ++ (if is_literal (Guide.voc_formality v) "formal" then js "Formal academic tone"
          else if is_literal (Guide.voc_formality v) "neutral"
               then js "Balanced, professional tone"
               else js "Conversational, casual tone") ++ nl
      ++ match Guide.voc_avoid v with
         | Some l => js "- Avoid these terms: " ++ join comma l ++ nl
         | None => []
         end
      ++ match Guide.prefer v with
         | Some l => js "- Preferred terms: " ++ join comma l ++ nl
         | None => []
         end
      ++ nl
  end.

Definition pov_text (pov : option jsstring) : jsstring :=
  if is_literal pov "first_person" then js "First person"
  else if is_literal pov "second_person" then js "Second person"
       else js "Third person".

Definition tense_text (tense : option jsstring) : jsstring :=
  if is_literal tense "present" then js "Present tense" else js "Past tense".

Definition narrative_section (p : Guide.t) : jsstring :=
  match Guide.narrative_part p with
  | None => []
  | Some n =>
      js "## Narrative Approach" ++ nl
      ++ js "- Point of view: " ++ pov_text (Guide.pov n) ++ nl
      ++ js "- Tense: " ++ tense_text (Guide.tense n) ++ nl
      ++ js "- Description vs. action balance: "
      ++ (if Guide.description_heavy n then js "Favor rich description"
          else js "Favor action and plot movement") ++ nl ++ nl
  end.

Definition tone_section (p : Guide.t) : jsstring :=
  match Guide.tone_part p with
  | None => []
  | Some t =>
      js "## Tone" ++ nl
      ++ match Guide.emotional t with
         | Some l =>
             if 0 <? length l
             then js "- Emotional tone: " ++ join comma l ++ nl else []
         | None => []
         end
      ++ (if truthy_string (Guide.tone_formality t)
          then js "- Formality: " ++ text_of (Guide.tone_formality t) ++ nl
          else [])
      ++ (if truthy_string (Guide.humor t)
          then js "- Humor level: "
               ++ (if is_literal (Guide.humor t) "high" then js "Include humor and wit"
                   else if is_literal (Guide.humor t) "medium"
                        then js "Occasional light humor"
                        else js "Serious, minimal humor") ++ nl ++ nl
          else [])
  end.

Definition device_names (d : Guide.devices) : list jsstring :=
  (if Guide.metaphors d then [js "metaphors"] else [])
  ++ (if Guide.similes d then [js "similes"] else [])
  ++ (if Guide.alliteration d then [js "alliteration"] else [])
  ++ (if Guide.repetition d then [js "repetition"] else []).

Definition devices_section (p : Guide.t) : jsstring :=
  match Guide.devices_part p with
  | None => []
  | Some d =>
      js "## Stylistic Devices" ++ nl
      ++ (if 0 <? length (device_names d)
          then js "- Use these devices: " ++ join comma (device_names d) ++ nl
          else [])
      ++ match Guide.dev_avoid d with
         | Some l => js "- Avoid these devices: " ++ join comma l ++ nl
         | None => []
         end
      ++ nl
  end.

Definition authors_section (p : Guide.t) : jsstring :=
  match Guide.comparable_authors p with
  | Some l =>
      if 0 <? length l
      then js "## Similar Authors" ++ nl
           ++ js "- Emulate the style of: " ++ join comma l ++ nl ++ nl
      else []
  | None => []
  end.

Definition notes_section (p : Guide.t) : jsstring :=
  if truthy_string (Guide.user_comments p)
  then js "## Additional Notes" ++ nl
       ++ text_of (Guide.user_comments p) ++ nl ++ nl
  else [].

Definition title : jsstring := js "# Style Guidance" ++ nl ++ nl.

Definition formatStyleGuidance (styleParameters : Guide.t) : jsstring :=
  title
  ++ sentence_section styleParameters
  ++ vocabulary_section styleParameters
  ++ narrative_section styleParameters
  ++ tone_section styleParameters
  ++ devices_section styleParameters
  ++ authors_section styleParameters
  ++ notes_section styleParameters.

End Formatter.

(** A printer for the integers that [Math.round] returns in the examples. *)
Definition show_num (x : num) : jsstring :=
  match x with
  | NaN => js "NaN"
  | PInf => js "Infinity"
  | NInf => js "-Infinity"
  | Fin q =>
      let z := Qfloor q in
      if (z <? 0)%Z then js "-" ++ show_nat (Z.to_nat (- z)) else show_nat (Z.to_nat z)
  end.

(* ================================================================== *)
(** ** Reference definitions used in the statements *)

(** Whole words: a word starts where a word character follows a non-word
    character (or the start of the text) and extends over the longest run of
    word characters. *)
Fixpoint take_word (s : jsstring) : jsstring :=
  match s with
  | [] => []
  | c :: r => if is_word_char c then c :: take_word r else []
  end.

(** Equality of two words up to case. *)
Fixpoint equal_ci (w t : jsstring) : bool :=
  match w, t with
  | [], [] => true
  | a :: w', c :: t' => char_eq_ci a c && equal_ci w' t'
  | _, _ => false
  end.

Definition in_word_set (set : list jsstring) (word : jsstring) : bool :=
  existsb (fun w => equal_ci w word) set.

(** The number of whole words of the text that belong to [set], ignoring
    case; [in_word] says that the previous character is a word character. *)
Fixpoint whole_word_count_from (set : list jsstring) (s : jsstring)
         (in_word : bool) : nat :=
  match s with
  | [] => 0
  | c :: r =>
      (if negb in_word && is_word_char c && in_word_set set (take_word s)
       then 1 else 0)
      + whole_word_count_from set r (is_word_char c)
  end.

Definition whole_word_count (set : list jsstring) (text : jsstring) : nat :=
  whole_word_count_from set text false.

Definition short_of (a : Row.t) :=
  chain (chain (Row.sentence a) Row.length_distribution) Row.short.
Definition medium_of (a : Row.t) :=
  chain (chain (Row.sentence a) Row.length_distribution) Row.medium.
Definition long_of (a : Row.t) :=
  chain (chain (Row.sentence a) Row.length_distribution) Row.long.

(** The bucket of the mean formality score. *)
Definition formality_bucket (score : num) : jsstring :=
  if gt score (literal 0.6%Q) then js "formal"
  else if gt score (literal 0.4%Q) then js "neutral"
       else js "casual".

(** A numeric member that is missing, or reads as [0] or [NaN]. *)
Definition falsy_or_missing (x : option num) : bool :=
  match x with
  | None => true
  | Some v => negb (truthy (binary64 v))
  end.

(** What a row contributes to the sum of a member whose default is [d]: the
    number it holds, or [d] when the member is missing or falsy. *)
Definition contribution (x : option num) (d : num) : num :=
  if falsy_or_missing x then d else to_num (parsed x).

(** The arithmetic mean as the program computes it: the numbers are added
    from left to right, starting from 0, and the sum is divided by their
    count. *)
Definition mean64 (l : list num) : num :=
  div64 (fold_left add64 l zero) (of_nat (length l)).

(** The mean of [n] copies of a number, as the program computes it. *)
Definition copies_mean (n : nat) (v : num) : num := mean64 (repeat v n).

(** The thirteen scalar members of a row. *)
Definition scalar_members (a : Row.t) : list (option num) :=
  [avg_length_of a; short_of a; medium_of a; long_of a; complexity_of a;
   question_frequency_of a; lexical_diversity_of a; formality_score_of a;
   action_ratio_of a; metaphor_of a; simile_of a; alliteration_of a;
   repetition_of a].

(** A binary64 number that is not negative and stays finite when doubled. *)
Definition doubles_exactly (x : num) : bool :=
  is_double x && nonneg x && lt x (of_Q (pow2 1023)).

(** A row that supplies every scalar member as such a number, its
    action-to-reflection ratio not being 0. *)
Definition exact_scalars (a : Row.t) : bool :=
  forallb (fun x => match x with
                    | Some v => doubles_exactly v
                    | None => false
                    end) (scalar_members a)
  && truthy (to_num (action_ratio_of a)).

(** Rationals on which [binary64] is compared with the division of the
    Standard Library's specification of IEEE 754. *)
Definition rounding_samples : list (positive * positive) :=
  [(1, 3); (1, 5); (1, 10); (1, 20); (57, 200); (7, 10); (3, 5); (2, 5);
   (1, 100); (1, 1); (12, 1); (100, 1); (3, 2); (123456789, 1000003);
   (9007199254740993, 1); (9007199254740995, 1); (18014398509481985, 2);
   (1, 123456789); (6000000000000001, 10000000000000000);
   (1797693134862315807, 10); (2, 3);
   (2 ^ 53 + 1, 1); (2 ^ 53 + 3, 1); (2 ^ 54 + 2, 1); (2 ^ 54 + 6, 1);
   (1, 2 ^ 1022); (1, 2 ^ 1074); (1, 2 ^ 1075); (3, 2 ^ 1075); (3, 2 ^ 1076);
   (2 ^ 53 - 1, 2 ^ 1075); (2 ^ 1023, 1); (2 ^ 1024 - 2 ^ 971, 1);
   (2 ^ 1024 - 2 ^ 970 - 1, 1); (2 ^ 1024 - 2 ^ 970, 1); (2 ^ 1024, 1);
   (10 ^ 400, 3)]%positive.

Definition agrees_on (s : positive * positive) : bool :=
  same (binary64 (of_Q (Zpos (fst s) # snd s))) (spec_quotient (fst s) (snd s)).

(** Alternatives that are non-empty words. *)
Definition word_alternatives (alts : list jsstring) : bool :=
  forallb (fun w => nonempty w && forallb is_word_char w) alts.

(** Every code unit of the alphabet. *)
Definition all_ascii : list ascii := map ascii_of_nat (seq 0 256).

(** The shape of a section of the guidance: nothing at all when its input is
    not there, its header line followed by some body otherwise. *)
Definition section_shape (present : bool) (header : string) (text : jsstring)
  : Prop :=
  if present then exists body, text = js header ++ nl ++ body else text = [].

(** A list that is there and has an element. *)
Definition nonempty_list (x : option (list jsstring)) : bool :=
  match x with Some (_ :: _) => true | _ => false end.

(** The values a sequence of rows supplies for a categorical member. *)
Definition supplied (values : list (option jsstring)) : list jsstring :=
  flat_map (fun v => match v with
                     | Some k => if nonempty k then [k] else []
                     | None => []
                     end) values.

Definition occurrences (k : jsstring) (l : list jsstring) : nat :=
  count_occ (list_eq_dec ascii_dec) l k.

(** [r] is the mode of [l], the first-encountered one among equally frequent
    values: nothing occurs more often, and whatever is met before the first
    occurrence of [r] occurs strictly less often. *)
Definition first_mode (r : jsstring) (l : list jsstring) : Prop :=
  exists before after,
    l = before ++ r :: after
    /\ ~ In r before
    /\ (forall v, In v before -> occurrences v l < occurrences r l)
    /\ (forall v, occurrences v l <= occurrences r l).

(** What the aggregator is to return for a categorical member: the default
    when no row supplies it, the first mode otherwise. *)
Definition mode_or_default (default : jsstring) (l : list jsstring)
           (r : jsstring) : Prop :=
  match l with
  | [] => r = default
  | _ :: _ => first_mode r l
  end.

(** The order in which a [Set] (or a counter table) first meets its
    elements. *)
Definition first_seen (l : list jsstring) : list jsstring :=
  fold_left set_add l [].

(** Property names for which a counter table behaves like a plain map in
    creation order: neither an array index nor a member of
    [Object.prototype]. *)
Definition ordinary (k : jsstring) : bool :=
  negb (JSObject.is_index k)
  && negb (jsstring_eqb k JSObject.proto_name)
  && negb (includes JSObject.inherited_names k).

(** The categorical values the extractors produce. *)
Definition extractor_values : list jsstring :=
  map js ["first_person"; "third_person"; "unknown"; "present"; "past";
          "formal"; "casual"]%string.

(* ================================================================== *)
(** ** Vocabulary metrics and stylistic devices *)

Module VM.
Record pos_dist : Type := {
  nouns : num;
  verbs : num;
  adjectives : num;
  adverbs : num
}.
Record t : Type := {
  lexical_diversity : num;
  formality_score : num;
  unusual_word_frequency : num;
  part_of_speech_distribution : pos_dist
}.
End VM.

(** [new Set(words.map(w => w.toLowerCase()))] *)
Definition uniqueWords (words : list jsstring) : list jsstring :=
  fold_left set_add (map toLowerCase words) [].

Definition calculateVocabularyMetrics (text : jsstring) : VM.t :=
  let words := words_of (toLowerCase text) in
  {| VM.lexical_diversity :=
       or_else (div (of_nat (length (uniqueWords words))) (of_nat (length words)))
               zero;
     VM.formality_score := of_Q 0.65%Q;
     VM.unusual_word_frequency := of_Q 0.05%Q;
     VM.part_of_speech_distribution :=
       {| VM.nouns := of_Q 0.25%Q; VM.verbs := of_Q 0.2%Q;
          VM.adjectives := of_Q 0.15%Q; VM.adverbs := of_Q 0.08%Q |} |}.

Module SD.
Record t : Type := {
  metaphor_frequency : num;
  simile_frequency : num;
  alliteration_frequency : num;
  repetition_patterns : num
}.
End SD.

Definition analyzeStyleDevices (text : jsstring) : SD.t :=
  {| SD.metaphor_frequency := of_Q 0.02%Q;
     SD.simile_frequency := of_Q 0.015%Q;
     SD.alliteration_frequency := of_Q 0.008%Q;
     SD.repetition_patterns := of_Q 0.03%Q |}.

(* ================================================================== *)
(** ** The descriptive summary *)

(** The local constants of [generateDescription]. *)
Module Description.

Definition sentenceLength (sentenceMetrics : SM.t) : jsstring :=
  if lt (SM.avg_length sentenceMetrics) (of_nat 12) then js "short"
  else if lt (SM.avg_length sentenceMetrics) (of_nat 20) then js "moderate"
       else js "long".

Definition complexity (sentenceMetrics : SM.t) : jsstring :=
  if lt (SM.complexity_score sentenceMetrics) (of_Q 0.4%Q) then js "simple"
  else if lt (SM.complexity_score sentenceMetrics) (of_Q 0.7%Q)
       then js "moderately complex"
       else js "complex".

Definition diversity (vocabularyMetrics : VM.t) : jsstring :=
  if lt (VM.lexical_diversity vocabularyMetrics) (of_Q 0.4%Q) then js "limited"
  else if lt (VM.lexical_diversity vocabularyMetrics) (of_Q 0.6%Q) then js "varied"
       else js "highly diverse".

Definition formality (tone : Tone.t) : jsstring :=
  if jsstring_eqb (Tone.formality_level tone) (js "formal") then js "formal"
  else js "conversational".

Definition povText (narrativeCharacteristics : NC.t) : jsstring :=
  if jsstring_eqb (NC.pov narrativeCharacteristics) (js "first_person")
  then js "first-person"
  else if jsstring_eqb (NC.pov narrativeCharacteristics) (js "third_person")
       then js "third-person"
       else js "mixed perspective".

Definition tenseText (narrativeCharacteristics : NC.t) : jsstring :=
  if jsstring_eqb (NC.tense narrativeCharacteristics) (js "present")
  then js "present tense"
  else if jsstring_eqb (NC.tense narrativeCharacteristics) (js "past")
       then js "past tense"
       else js "mixed tense".

End Description.

Definition generateDescription (sentenceMetrics : SM.t) (vocabularyMetrics : VM.t)
           (narrativeCharacteristics : NC.t) (stylistic : SD.t) (tone : Tone.t)
  : jsstring :=
  js "This writing features " ++ Description.sentenceLength sentenceMetrics
  ++ js ", " ++ Description.complexity sentenceMetrics
  ++ js " sentences with " ++ Description.diversity vocabularyMetrics
  ++ js " vocabulary. The style is " ++ Description.formality tone
  ++ js ", written in " ++ Description.povText narrativeCharacteristics
  ++ js " " ++ Description.tenseText narrativeCharacteristics
  ++ js ". " ++ join (js " and ") (Tone.emotional_tone tone)
  ++ js " in tone, with a "
  ++ (if gt (NC.action_to_reflection_ratio narrativeCharacteristics) one
      then js "focus on action over reflection"
      else js "balance of action and reflection")
  ++ js ".".

(* ================================================================== *)
(** ** The set-up script *)

(** [s.split(c)] for a one-character separator [c]. *)
Fixpoint split_char (sep : ascii) (s : jsstring) : list jsstring :=
  match s with
  | [] => [[]]
  | c :: r =>
      if code c =? code sep then [] :: split_char sep r
      else match split_char sep r with
           | piece :: pieces => (c :: piece) :: pieces
           | [] => [[c]]
           end
  end.

Definition semicolon : ascii := ";"%char.

(** [sqlScript.split(';').filter(stmt => stmt.trim().length > 0)] *)
Definition sql_statements (sqlScript : jsstring) : list jsstring :=
  filter (fun stmt => 0 <? length (trim stmt)) (split_char semicolon sqlScript).

(** The loop of [runSqlSetup] over the statements: [rpc] is the answer of the
    store to [run_sql] (an error message, or nothing).  The result is the list
    of the [sql] arguments sent and the lines written to the console. *)
Fixpoint run_statements (rpc : jsstring -> option jsstring)
         (statements : list jsstring) : list jsstring * list jsstring :=
  match statements with
  | [] => ([], [])
  | statement :: rest =>
      let sent := statement ++ [semicolon] in
      let (calls, console) := run_statements rpc rest in
      (sent :: calls,
       match rpc sent with
       | Some message => (js "Error running SQL: " ++ message) :: console
       | None => console
       end)
  end.

(* ================================================================== *)
(** ** Comparable authors of a profile

    The part of [createStyleProfile] between the call of [combineMetrics] and
    the write of the profile: [existingError] and [existingAuthors] are what
    the query for the existing profile answered. *)

Module Authors.
Record request : Type := {
  profileId : option jsstring;
  addToExisting : bool;
  comparableAuthors : option (list jsstring);
  existingError : option jsstring;
  existingAuthors : option (list jsstring)
}.
End Authors.

Definition set_comparable_authors (styleParameters : SP.t)
           (authors : list jsstring) : SP.t :=
  {| SP.sentence_part := SP.sentence_part styleParameters;
     SP.vocabulary_part := SP.vocabulary_part styleParameters;
     SP.narrative_part := SP.narrative_part styleParameters;
     SP.tone_part := SP.tone_part styleParameters;
     SP.devices_part := SP.devices_part styleParameters;
     SP.comparable_authors := authors |}.

Definition list_or_empty (x : option (list jsstring)) : list jsstring :=
  match x with Some l => l | None => [] end.

(** [[...new Set([...a, ...b])]] *)
Definition union_set (a b : list jsstring) : list jsstring :=
  fold_left set_add (a ++ b) [].

Definition merge_authors (q : Authors.request) (styleParameters : SP.t)
  : outcome SP.t :=
  if truthy_string (Authors.profileId q) && Authors.addToExisting q
  then
    throw_if (is_some (Authors.existingError q))
             (js "Failed to fetch existing profile: "
                 ++ message_of (Authors.existingError q)) >>
    Returned
      (if nonempty_list (Authors.comparableAuthors q)
       then set_comparable_authors
              styleParameters
              (union_set (list_or_empty (Authors.existingAuthors q))
                         (list_or_empty (Authors.comparableAuthors q)))
       else styleParameters)
  else
    Returned
      (if nonempty_list (Authors.comparableAuthors q)
       then set_comparable_authors styleParameters
                                   (list_or_empty (Authors.comparableAuthors q))
       else styleParameters).

(* ================================================================== *)
(** ** [analyzeWritingSample]

    The two inserts are the only accesses to the store.  [sampleReply] is
    what the insert into [writing_samples] answers (the [id] of the new row,
    or an error message), [analysisReply] what the insert into
    [style_analyses] answers (an error message, or nothing).  The function
    gives its outcome and the inserts it issued, in order. *)

Module Analyze.
Record args : Type := {
  text : jsstring;
  sampleId : option jsstring;
  saveSample : bool;
  title : option jsstring;
  author : option jsstring;
  sampleType : option jsstring;
  tags : option (list jsstring);
  projectId : option jsstring
}.
Record metrics : Type := {
  sentence_metrics : SM.t;
  vocabulary_metrics : VM.t;
  narrative_characteristics : NC.t;
  stylistic_devices : SD.t;
  tone_attributes : Tone.t
}.
Record result : Type := {
  sample_id : option jsstring;
  metrics_of : metrics;
  summary : jsstring
}.
Inductive insert : Type :=
| InsertSample (title content : jsstring) (author sample_type : option jsstring)
               (tags : list jsstring) (project_id : option jsstring)
               (excerpt : jsstring)
| InsertAnalysis (sample_id : jsstring) (m : metrics)
                 (descriptive_summary : jsstring)
                 (comparable_authors : list jsstring).
End Analyze.

Definition analysis_metrics (text : jsstring) : Analyze.metrics :=
  {| Analyze.sentence_metrics := calculateSentenceMetrics text;
     Analyze.vocabulary_metrics := calculateVocabularyMetrics text;
     Analyze.narrative_characteristics := analyzeNarrativeCharacteristics text;
     Analyze.stylistic_devices := analyzeStyleDevices text;
     Analyze.tone_attributes := analyzeTone text |}.

Definition analysis_summary (text : jsstring) : jsstring :=
  generateDescription (calculateSentenceMetrics text)
                      (calculateVocabularyMetrics text)
                      (analyzeNarrativeCharacteristics text)
                      (analyzeStyleDevices text) (analyzeTone text).

(** [x || null] for a string. *)
Definition or_null (x : option jsstring) : option jsstring :=
  if truthy_string x then x else None.

(** Step 3 and step 4: store the analysis when there is a sample id, and
    return. *)
Definition store_analysis (text : jsstring) (sample_id : option jsstring)
           (analysisReply : option jsstring) (issued : list Analyze.insert)
  : outcome Analyze.result * list Analyze.insert :=
  let result :=
    {| Analyze.sample_id := sample_id;
       Analyze.metrics_of := analysis_metrics text;
       Analyze.summary := analysis_summary text |} in
  if truthy_string sample_id
  then
    let issued' :=
      issued ++ [Analyze.InsertAnalysis (text_of sample_id) (analysis_metrics text)
                                        (analysis_summary text) []] in
    match analysisReply with
    | Some message =>
        (rewrap (js "Failed to analyze writing sample: ")
                (Thrown (js "Failed to save analysis: " ++ message)), issued')
    | None => (Returned result, issued')
    end
  else (Returned result, issued).

Definition analyzeWritingSample (args : Analyze.args)
           (sampleReply : jsstring + jsstring) (analysisReply : option jsstring)
  : outcome Analyze.result * list Analyze.insert :=
  if negb (truthy_string (Analyze.sampleId args)) && Analyze.saveSample args
  then
    if negb (truthy_string (Analyze.title args))
    then (rewrap (js "Failed to analyze writing sample: ")
                 (Thrown (js "Title is required when saving a new sample")), [])
    else
      let issued :=
        [Analyze.InsertSample (text_of (Analyze.title args)) (Analyze.text args)
                              (or_null (Analyze.author args))
                              (or_null (Analyze.sampleType args))
                              (list_or_empty (Analyze.tags args))
                              (Analyze.projectId args)
                              (createExcerpt (Analyze.text args))] in
      match sampleReply with
      | inr message =>
          (rewrap (js "Failed to analyze writing sample: ")
                  (Thrown (js "Failed to save sample: " ++ message)), issued)
      | inl id => store_analysis (Analyze.text args) (Some id) analysisReply issued
      end
  else store_analysis (Analyze.text args) (Analyze.sampleId args) analysisReply [].

(* ================================================================== *)
(** ** The handler of tool calls

    The four operations behind the handler are parameters: each answers a
    result, or throws.  Of a result, the members the handler reads are
    kept. *)

(** The double quote. *)
Definition dquote : jsstring := [ascii_of_nat 34].

Module Call.
Record args : Type := {
  text : option jsstring;
  profileId : option jsstring;
  name : option jsstring;
  sampleIds : option (list jsstring);
  prompt : option jsstring;
  addToExisting : bool
}.
Record request : Type := {
  tool : jsstring;
  arguments : option args
}.
Record example : Type := {
  title : jsstring;
  excerpt : jsstring
}.
Record analysis : Type := {
  summary : jsstring
}.
Record profile : Type := {
  profile_name : jsstring;
  description : option jsstring;
  style_guidance : option jsstring;
  examples : option (list example)
}.
Record created : Type := {
  created_name : jsstring;
  sample_count : nat
}.
Record writing : Type := {
  writing_prompt : jsstring;
  writing_profile : jsstring;
  length_instruction : jsstring;
  writing_guidance : jsstring;
  writing_examples : list example
}.
Inductive payload : Type :=
| Analysis (r : analysis)
| Profile (r : profile)
| Created (r : created).
Record response : Type := {
  content_text : jsstring;
  content_json : option payload;
  isError : bool
}.
End Call.

(** [examples.forEach(example => { responseText += ... })] *)
Definition example_passages (examples : list Call.example) : jsstring :=
  concat (map (fun example =>
                 js "### " ++ Call.title example ++ nl ++ nl
                 ++ dquote ++ Call.excerpt example ++ dquote ++ nl ++ nl)
              examples).

Definition error_response (message : jsstring) : Call.response :=
  {| Call.content_text := js "Error: " ++ message;
     Call.content_json := None;
     Call.isError := true |}.

Definition tool_names : list jsstring :=
  map js ["analyze_writing_sample"; "get_style_profile"; "create_style_profile";
          "write_in_style"]%string.

Section Handler.

Variable analyze : Call.args -> outcome Call.analysis.
Variable getProfile : Call.args -> outcome Call.profile.
Variable createProfile : Call.args -> outcome Call.created.
Variable writeInStyle : Call.args -> outcome Call.writing.

(** The message of the [TypeError] raised when the named member is read of
    arguments that are not there. *)
Variable type_error : string -> jsstring.

Definition given (arguments : option Call.args) (member : string)
  : outcome Call.args :=
  match arguments with
  | Some args => Returned args
  | None => Thrown (type_error member)
  end.

Definition handle_analyze (arguments : option Call.args) : outcome Call.response :=
  bind (given arguments "text") (fun args =>
  throw_if (negb (truthy_string (Call.text args)))
           (js "Text is required for analysis") >>
  bind (analyze args) (fun result =>
  Returned
    {| Call.content_text :=
         js "Successfully analyzed the writing sample." ++ nl ++ nl
         ++ Call.summary result;
       Call.content_json := Some (Call.Analysis result);
       Call.isError := false |})).

Definition handle_get (arguments : option Call.args) : outcome Call.response :=
  bind (given arguments "profileId") (fun args =>
  throw_if (negb (truthy_string (Call.profileId args)))
           (js "Profile ID is required") >>
  bind (getProfile args) (fun result =>
  Returned
    {| Call.content_text :=
         js "# " ++ Call.profile_name result ++ nl ++ nl
         ++ (if truthy_string (Call.description result)
             then text_of (Call.description result) ++ nl ++ nl else [])
         ++ (if truthy_string (Call.style_guidance result)
             then text_of (Call.style_guidance result) else [])
         ++ match Call.examples result with
            | Some examples =>
                if 0 <? length examples
                then nl ++ nl ++ js "## Example Passages" ++ nl ++ nl
                     ++ example_passages examples
                else []
            | None => []
            end;
       Call.content_json := Some (Call.Profile result);
       Call.isError := false |})).

Definition handle_create (arguments : option Call.args) : outcome Call.response :=
  bind (given arguments "name") (fun args =>
  throw_if (negb (truthy_string (Call.name args))
            || negb (nonempty_list (Call.sampleIds args)))
           (js "Name and at least one sample ID are required") >>
  bind (createProfile args) (fun result =>
  Returned
    {| Call.content_text :=
         js "Successfully "
         ++ (if truthy_string (Call.profileId args)
             then (if Call.addToExisting args then js "updated" else js "replaced")
             else js "created")
         ++ js " style profile " ++ dquote ++ Call.created_name result ++ dquote
         ++ js " based on " ++ show_nat (Call.sample_count result)
         ++ js " samples.";
       Call.content_json := Some (Call.Created result);
       Call.isError := false |})).

Definition handle_write (arguments : option Call.args) : outcome Call.response :=
  bind (given arguments "prompt") (fun args =>
  throw_if (negb (truthy_string (Call.prompt args)))
           (js "Writing prompt is required") >>
  bind (writeInStyle args) (fun result =>
  Returned
    {| Call.content_text :=
         js "# Writing Request: " ++ Call.writing_prompt result ++ nl ++ nl
         ++ js "Please write in the style of profile " ++ dquote
         ++ Call.writing_profile result ++ dquote ++ js ". "
         ++ Call.length_instruction result ++ nl ++ nl
         ++ (if nonempty (Call.writing_guidance result)
             then Call.writing_guidance result ++ nl ++ nl else [])
         ++ (if 0 <? length (Call.writing_examples result)
             then js "## Example Passages In This Style" ++ nl ++ nl
                  ++ example_passages (Call.writing_examples result)
             else [])
         ++ js "## Your Task" ++ nl ++ nl
         ++ js "Write about: " ++ Call.writing_prompt result ++ nl ++ nl;
       Call.content_json := None;
       Call.isError := false |})).

(** The body of the [try] block. *)
Definition dispatch (request : Call.request) : outcome Call.response :=
  if jsstring_eqb (Call.tool request) (js "analyze_writing_sample")
  then handle_analyze (Call.arguments request)
  else if jsstring_eqb (Call.tool request) (js "get_style_profile")
  then handle_get (Call.arguments request)
  else if jsstring_eqb (Call.tool request) (js "create_style_profile")
  then handle_create (Call.arguments request)
  else if jsstring_eqb (Call.tool request) (js "write_in_style")
  then handle_write (Call.arguments request)
  else Thrown (js "Unknown tool: " ++ Call.tool request).

(** The handler registered for [CallToolRequestSchema]. *)
Definition callTool (request : Call.request) : Call.response :=
  match dispatch request with
  | Returned response => response
  | Thrown message => error_response message
  end.

End Handler.

(** The required argument of each tool, as the handler tests it. *)
Definition required_argument_given (request : Call.request) : bool :=
  match Call.arguments request with
  | None => false
  | Some args =>
      if jsstring_eqb (Call.tool request) (js "analyze_writing_sample")
      then truthy_string (Call.text args)
      else if jsstring_eqb (Call.tool request) (js "get_style_profile")
      then truthy_string (Call.profileId args)
      else if jsstring_eqb (Call.tool request) (js "create_style_profile")
      then truthy_string (Call.name args) && nonempty_list (Call.sampleIds args)
      else if jsstring_eqb (Call.tool request) (js "write_in_style")
      then truthy_string (Call.prompt args)
      else false
  end.

(* ================================================================== *)
(** ** [getStyleProfile] and [writeInStyle]

    Both read the store with four queries; [Store.replies] holds what each
    query answers: its [data] and its [error].  The data of a query is read
    only after its error has been found absent. *)

Module Store.
Record profile_row : Type := {
  id : jsstring;
  name : jsstring;
  description : option jsstring;
  style_parameters : Guide.t;
  genre : option (list jsstring);
  comparable_authors : option (list jsstring);
  user_comments : option jsstring
}.
Record sample_row : Type := {
  title : jsstring;
  excerpt : jsstring
}.
Record representative_row : Type := {
  rep_description : option jsstring;
  text_content : jsstring
}.
Record replies : Type := {
  profile : option profile_row;
  profileError : option jsstring;
  profileSamples : list jsstring;
  samplesError : option jsstring;
  representativeSamples : option (list representative_row);
  repSamplesError : option jsstring;
  samples : list sample_row;
  examplesError : option jsstring
}.
End Store.

Module Example.
Record t : Type := {
  title : jsstring;
  excerpt : jsstring
}.
End Example.

(** [samples.map(s => ({ title: s.title, excerpt: s.excerpt }))] *)
Definition sample_examples (samples : list Store.sample_row) : list Example.t :=
  map (fun s => {| Example.title := Store.title s;
                   Example.excerpt := Store.excerpt s |}) samples.

(** The examples pushed for the representative samples. *)
Definition representative_examples
           (representativeSamples : option (list Store.representative_row))
  : list Example.t :=
  map (fun rs =>
         {| Example.title :=
              if truthy_string (Store.rep_description rs)
              then text_of (Store.rep_description rs)
              else js "Representative Sample";
            Example.excerpt := Store.text_content rs |})
      (match representativeSamples with Some l => l | None => [] end).

(** [{...profile.style_parameters, comparable_authors, user_comments}] *)
Definition guidance_argument (profile : Store.profile_row) : Guide.t :=
  {| Guide.sentence_part := Guide.sentence_part (Store.style_parameters profile);
     Guide.vocabulary_part := Guide.vocabulary_part (Store.style_parameters profile);
     Guide.narrative_part := Guide.narrative_part (Store.style_parameters profile);
     Guide.tone_part := Guide.tone_part (Store.style_parameters profile);
     Guide.devices_part := Guide.devices_part (Store.style_parameters profile);
     Guide.comparable_authors := Store.comparable_authors profile;
     Guide.user_comments := Store.user_comments profile |}.

(** The first query and its two checks, common to both functions. *)
Definition fetch_profile (profileId : jsstring) (r : Store.replies)
  : outcome Store.profile_row :=
  throw_if (is_some (Store.profileError r))
           (js "Failed to fetch style profile: "
               ++ message_of (Store.profileError r)) >>
  match Store.profile r with
  | Some profile => Returned profile
  | None => Thrown (js "Style profile with ID " ++ profileId ++ js " not found")
  end.

Module Get.
Record args : Type := {
  profileId : jsstring;
  includeExamples : bool;
  includeStyleNotes : bool
}.
Record profile_view : Type := {
  id : jsstring;
  name : jsstring;
  description : option jsstring;
  parameters : Guide.t;
  genre : list jsstring;
  comparable_authors : list jsstring;
  user_comments : option jsstring
}.
Record result : Type := {
  profile : profile_view;
  style_guidance : option jsstring;
  examples : option (list Example.t)
}.
End Get.

(** The [profile] member of the response of [getStyleProfile]. *)
Definition profile_view_of (profile : Store.profile_row) : Get.profile_view :=
  {| Get.id := Store.id profile;
     Get.name := Store.name profile;
     Get.description := Store.description profile;
     Get.parameters := Store.style_parameters profile;
     Get.genre := list_or_empty (Store.genre profile);
     Get.comparable_authors := list_or_empty (Store.comparable_authors profile);
     Get.user_comments := Store.user_comments profile |}.

Module Write.
Record args : Type := {
  profileId : jsstring;
  prompt : jsstring;
  length : option num;
  includeStyleNotes : bool
}.
Record result : Type := {
  profile_name : jsstring;
  style_guidance : jsstring;
  writing_prompt : jsstring;
  length_instruction : jsstring;
  examples : list Example.t;
  parameters : Guide.t
}.
End Write.

Section Retrieval.

Variable number_to_string : num -> jsstring.

Definition getStyleProfile (args : Get.args) (r : Store.replies)
  : outcome Get.result :=
  rewrap (js "Failed to retrieve style profile: ")
    (bind (fetch_profile (Get.profileId args) r) (fun profile =>
     throw_if (is_some (Store.samplesError r))
              (js "Failed to fetch profile samples: "
                  ++ message_of (Store.samplesError r)) >>
     throw_if (is_some (Store.repSamplesError r))
              (js "Failed to fetch representative samples: "
                  ++ message_of (Store.repSamplesError r)) >>
     bind (if Get.includeExamples args && (0 <? length (Store.profileSamples r))
           then throw_if (is_some (Store.examplesError r))
                         (js "Failed to fetch sample excerpts: "
                             ++ message_of (Store.examplesError r)) >>
                Returned (sample_examples (Store.samples r)
                          ++ representative_examples
                               (Store.representativeSamples r))
           else Returned []) (fun examples =>
     Returned
       {| Get.profile := profile_view_of profile;
          Get.style_guidance :=
            if Get.includeStyleNotes args
            then Some (formatStyleGuidance number_to_string
                                           (guidance_argument profile))
            else None;
          Get.examples :=
            if Get.includeExamples args && (0 <? length examples)
            then Some examples else None |}))).

Definition writeInStyle (args : Write.args) (r : Store.replies)
  : outcome Write.result :=
  rewrap (js "Failed to prepare writing instructions: ")
    (bind (fetch_profile (Write.profileId args) r) (fun profile =>
     throw_if (is_some (Store.samplesError r))
              (js "Failed to fetch profile samples: "
                  ++ message_of (Store.samplesError r)) >>
     bind (if 0 <? length (Store.profileSamples r)
           then throw_if (is_some (Store.examplesError r))
                         (js "Failed to fetch sample excerpts: "
                             ++ message_of (Store.examplesError r)) >>
                Returned (sample_examples (Store.samples r))
           else Returned []) (fun examples =>
     throw_if (is_some (Store.repSamplesError r))
              (js "Failed to fetch representative samples: "
                  ++ message_of (Store.repSamplesError r)) >>
     Returned
       {| Write.profile_name := Store.name profile;
          Write.style_guidance :=
            if Write.includeStyleNotes args
            then formatStyleGuidance number_to_string (guidance_argument profile)
            else [];
          Write.writing_prompt := Write.prompt args;
          Write.length_instruction :=
            match Write.length args with
            | Some n =>
                if truthy n
                then js "Write approximately " ++ number_to_string n ++ js " words."
                else []
            | None => []
            end;
          Write.examples :=
            examples ++ representative_examples (Store.representativeSamples r);
          Write.parameters := Store.style_parameters profile |}))).

End Retrieval.

(* ================================================================== *)
(** ** [createStyleProfile]

    The queries answer as [Create.replies] says; what the function asks the
    store to write is returned beside its outcome, in the order of the
    requests.  The time stamp [updated_at] of an update is left out. *)

Module Create.
Record representative : Type := {
  textContent : option jsstring;
  rep_description : option jsstring
}.
Record args : Type := {
  name : option jsstring;
  description : option jsstring;
  sampleIds : list jsstring;
  projectId : option jsstring;
  profileId : option jsstring;
  genre : option (list jsstring);
  comparableAuthors : option (list jsstring);
  userComments : option jsstring;
  representativeSamples : option (list representative);
  addToExisting : bool
}.
(** The members read of the row an update or an insert of a profile answers. *)
Record stored : Type := {
  stored_id : jsstring;
  stored_name : option jsstring;
  stored_description : option jsstring
}.
Record replies : Type := {
  samplesError : option jsstring;
  samples : list jsstring;
  analysesError : option jsstring;
  analyses : list Row.t;
  existingError : option jsstring;
  existingAuthors : option (list jsstring);
  profileReply : stored + jsstring;
  associationError : option jsstring;
  repSampleError : option jsstring
}.
Record association : Type := {
  profile_id : jsstring;
  sample_id : jsstring;
  weight : num
}.
Record representative_row : Type := {
  row_profile_id : jsstring;
  text_content : option jsstring;
  row_description : option jsstring
}.
(** In an update, a member that is [None] is not part of the update. *)
Inductive write : Type :=
| UpdateProfile (id : jsstring) (name description : option jsstring)
                (style_parameters : SP.t) (genre : option (list jsstring))
                (user_comments project_id : option jsstring)
| DeleteAssociations (id : jsstring)
| InsertProfile (name description : option jsstring) (style_parameters : SP.t)
                (project_id : option jsstring) (genre : list jsstring)
                (comparable_authors : list jsstring)
                (user_comments : option jsstring)
| InsertAssociations (rows : list association)
| InsertRepresentative (rows : list representative_row).
Record result : Type := {
  id : jsstring;
  result_name : option jsstring;
  result_description : option jsstring;
  parameters : SP.t;
  sample_count : nat;
  result_genre : list jsstring;
  comparable_authors : list jsstring;
  user_comments : option jsstring
}.
End Create.

(** What steps 1 and 2 fetched. *)
Definition fetched_of (args : Create.args) (r : Create.replies) : Fetched.t :=
  {| Fetched.sampleIds := Create.sampleIds args;
     Fetched.samplesError := Create.samplesError r;
     Fetched.samples := Create.samples r;
     Fetched.analysesError := Create.analysesError r;
     Fetched.analyses := Create.analyses r |}.

Definition authors_request (args : Create.args) (r : Create.replies)
  : Authors.request :=
  {| Authors.profileId := Create.profileId args;
     Authors.addToExisting := Create.addToExisting args;
     Authors.comparableAuthors := Create.comparableAuthors args;
     Authors.existingError := Create.existingError r;
     Authors.existingAuthors := Create.existingAuthors r |}.

(** The update or the insert of step 4. *)
Definition profile_write (args : Create.args) (styleParameters : SP.t)
  : Create.write :=
  if truthy_string (Create.profileId args)
  then Create.UpdateProfile (text_of (Create.profileId args))
                            (Create.name args) (Create.description args)
                            styleParameters (Create.genre args)
                            (or_null (Create.userComments args))
                            (or_null (Create.projectId args))
  else Create.InsertProfile (Create.name args) (Create.description args)
                            styleParameters (Create.projectId args)
                            (list_or_empty (Create.genre args))
                            (SP.comparable_authors styleParameters)
                            (Create.userComments args).

(** [sampleIds.map(sampleId => ({profile_id, sample_id, weight: 1.0}))] *)
Definition associations_of (profile : Create.stored) (sampleIds : list jsstring)
  : list Create.association :=
  map (fun sampleId =>
         {| Create.profile_id := Create.stored_id profile;
            Create.sample_id := sampleId;
            Create.weight := one |}) sampleIds.

Definition representative_rows (profile : Create.stored)
           (representativeSamples : list Create.representative)
  : list Create.representative_row :=
  map (fun rs =>
         {| Create.row_profile_id := Create.stored_id profile;
            Create.text_content := Create.textContent rs;
            Create.row_description := Create.rep_description rs |})
      representativeSamples.

(** [representativeSamples && representativeSamples.length > 0] *)
Definition representatives_given (args : Create.args) : list Create.representative :=
  match Create.representativeSamples args with
  | Some l => l
  | None => []
  end.

Definition created_profile (args : Create.args) (profile : Create.stored)
           (styleParameters : SP.t) : Create.result :=
  {| Create.id := Create.stored_id profile;
     Create.result_name := Create.stored_name profile;
     Create.result_description := Create.stored_description profile;
     Create.parameters := styleParameters;
     Create.sample_count := length (Create.sampleIds args);
     Create.result_genre := list_or_empty (Create.genre args);
     Create.comparable_authors := SP.comparable_authors styleParameters;
     Create.user_comments := Create.userComments args |}.

(** Steps 4 to 7. *)
Definition save_profile (args : Create.args) (r : Create.replies)
           (styleParameters : SP.t)
  : outcome Create.result * list Create.write :=
  let updating := truthy_string (Create.profileId args) in
  match Create.profileReply r with
  | inr message =>
      (Thrown ((if updating then js "Failed to update style profile: "
                else js "Failed to create style profile: ") ++ message),
       [profile_write args styleParameters])
  | inl profile =>
      let issued :=
        profile_write args styleParameters
        :: (if updating && negb (Create.addToExisting args)
            then [Create.DeleteAssociations (text_of (Create.profileId args))]
            else [])
        ++ [Create.InsertAssociations
              (associations_of profile (Create.sampleIds args))] in
      match Create.associationError r with
      | Some message =>
          (Thrown (js "Failed to create profile-sample associations: "
                      ++ message), issued)
      | None =>
          if 0 <? length (representatives_given args)
          then
            let issued' :=
              issued ++ [Create.InsertRepresentative
                           (representative_rows profile
                                                (representatives_given args))] in
            match Create.repSampleError r with
            | Some message =>
                (Thrown (js "Failed to create representative samples: "
                            ++ message), issued')
            | None =>
                (Returned (created_profile args profile styleParameters), issued')
            end
          else (Returned (created_profile args profile styleParameters), issued)
      end
  end.

Definition createStyleProfile (args : Create.args) (r : Create.replies)
  : outcome Create.result * list Create.write :=
  match createStyleProfile_parameters (fetched_of args r) with
  | Thrown message => (Thrown message, [])
  | Returned None =>
      (* Not reached: [combineMetrics] answers [null] for no analyses only,
         and for those step 2 has thrown. *)
      (Thrown [], [])
  | Returned (Some composite) =>
      match merge_authors (authors_request args r) composite with
      | Thrown message =>
          (Thrown (js "Failed to create style profile: " ++ message), [])
      | Returned styleParameters =>
          let (result, issued) := save_profile args r styleParameters in
          (rewrap (js "Failed to create style profile: ") result, issued)
      end
  end.

(* ================================================================== *)
(** ** Reference definitions for the handler *)

(** The message the handler reports when the required argument of a tool is
    missing. *)
Definition validation_message (tool : jsstring) : jsstring :=
  if jsstring_eqb tool (js "analyze_writing_sample")
  then js "Text is required for analysis"
  else if jsstring_eqb tool (js "get_style_profile")
  then js "Profile ID is required"
  else if jsstring_eqb tool (js "create_style_profile")
  then js "Name and at least one sample ID are required"
  else js "Writing prompt is required".

Definition thrown_message {A : Type} (o : outcome A) : option jsstring :=
  match o with
  | Returned _ => None
  | Thrown message => Some message
  end.

(** What the operation behind a tool throws on the arguments, if it does. *)
Definition operation_failure
           (analyze : Call.args -> outcome Call.analysis)
           (getProfile : Call.args -> outcome Call.profile)
           (createProfile : Call.args -> outcome Call.created)
           (writeInStyle : Call.args -> outcome Call.writing)
           (tool : jsstring) (args : Call.args) : option jsstring :=
  if jsstring_eqb tool (js "analyze_writing_sample")
  then thrown_message (analyze args)
  else if jsstring_eqb tool (js "get_style_profile")
  then thrown_message (getProfile args)
  else if jsstring_eqb tool (js "create_style_profile")
  then thrown_message (createProfile args)
  else if jsstring_eqb tool (js "write_in_style")
  then thrown_message (writeInStyle args)
  else None.

(** Whether the tool is one of the four the server registers. *)
Definition known_tool (tool : jsstring) : bool :=
  existsb (jsstring_eqb tool) tool_names.

(** The examples of a profile found in the store. *)
Definition stored_examples (r : Store.replies) : list Example.t :=
  sample_examples (Store.samples r)
  ++ representative_examples (Store.representativeSamples r).

(** Whether the profile has linked samples. *)
Definition has_linked_samples (r : Store.replies) : bool :=
  0 <? length (Store.profileSamples r).

(** The checks of steps 1 to 3 of [createStyleProfile] all pass. *)
Definition checks_pass (args : Create.args) (r : Create.replies) : Prop :=
  Create.samplesError r = None
  /\ length (Create.samples r) = length (Create.sampleIds args)
  /\ Create.analysesError r = None
  /\ Create.analyses r <> []
  /\ (truthy_string (Create.profileId args) && Create.addToExisting args = true ->
      Create.existingError r = None).

(** The authors [createStyleProfile] gives the profile. *)
Definition profile_authors (args : Create.args) (r : Create.replies)
           (composite : SP.t) : list jsstring :=
  if nonempty_list (Create.comparableAuthors args)
  then
    if truthy_string (Create.profileId args) && Create.addToExisting args
    then union_set (list_or_empty (Create.existingAuthors r))
                   (list_or_empty (Create.comparableAuthors args))
    else list_or_empty (Create.comparableAuthors args)
  else SP.comparable_authors composite.

Definition is_delete (w : Create.write) : bool :=
  match w with Create.DeleteAssociations _ => true | _ => false end.

(** Whether the call replaces the samples of an existing profile. *)
Definition replacing (args : Create.args) : bool :=
  truthy_string (Create.profileId args) && negb (Create.addToExisting args).

(** The writes of a call of [createStyleProfile] none of which fails, once
    the store has answered [profile] to the first. *)
Definition planned_writes (args : Create.args) (profile : Create.stored)
           (styleParameters : SP.t) : list Create.write :=
  [profile_write args styleParameters]
  ++ (if replacing args
      then [Create.DeleteAssociations (text_of (Create.profileId args))]
      else [])
  ++ [Create.InsertAssociations (associations_of profile (Create.sampleIds args))]
  ++ (if 0 <? length (representatives_given args)
      then [Create.InsertRepresentative
              (representative_rows profile (representatives_given args))]
      else []).

(** [l] is the beginning of [l']. *)
Definition prefix_of {A : Type} (l l' : list A) : Prop :=
  exists rest, l' = l ++ rest.

(* ================================================================== *)
(** ** More reference definitions *)

(** A number between 0 and 1. *)
Definition in_unit_interval (x : num) : bool :=
  finite x && nonneg x && negb (lt one x).

(** The emotional tones the rows supply, in order. *)
Definition supplied_tones (analyses : list Row.t) : list jsstring :=
  flat_map (fun a => match chain (Row.tone a) Row.emotional_tone with
                     | Some l => l
                     | None => []
                     end) analyses.

(** The comparable authors the rows supply, in order. *)
Definition supplied_authors (analyses : list Row.t) : list jsstring :=
  flat_map (fun a => match Row.comparable_authors a with
                     | Some l => l
                     | None => []
                     end) analyses.

(* ================================================================== *)
(** ** Sample data *)

(** A row with no member at all. *)
Definition blank_row : Row.t :=
  {| Row.sentence := None; Row.vocabulary := None; Row.narrative := None;
     Row.tone := None; Row.devices := None; Row.comparable_authors := None |}.

(** A row that records a point of view and nothing else. *)
Definition row_with_pov (pov : string) : Row.t :=
  {| Row.sentence := None; Row.vocabulary := None;
     Row.narrative :=
       Some {| Row.pov := Some (js pov); Row.tense := None;
               Row.action_to_reflection_ratio := None |};
     Row.tone := None; Row.devices := None; Row.comparable_authors := None |}.

Definition two_first_one_third : list Row.t :=
  [row_with_pov "first_person"; row_with_pov "third_person";
   row_with_pov "first_person"].

(** The answers of the two queries when the samples exist and none of them
    has been analysed. *)
Definition nothing_analysed : Fetched.t :=
  {| Fetched.sampleIds := [js "s1"; js "s2"];
     Fetched.samplesError := None;
     Fetched.samples := [js "s1"; js "s2"];
     Fetched.analysesError := None;
     Fetched.analyses := [] |}.

(** The row stored for a sample by [analyzeWritingSample]: the constant
    members are those of the extractors, the others are given. *)
Definition stored_row (avg short medium long complexity questions diversity
                       ratio : num) : Row.t :=
  {| Row.sentence :=
       Some {| Row.avg_length := Some avg;
               Row.length_distribution :=
                 Some {| Row.short := Some short; Row.medium := Some medium;
                         Row.long := Some long |};
               Row.complexity_score := Some complexity;
               Row.question_frequency := Some questions |};
     Row.vocabulary :=
       Some {| Row.lexical_diversity := Some diversity;
               Row.formality_score := Some (literal 0.65%Q) |};
     Row.narrative :=
       Some {| Row.pov := Some (js "third_person"); Row.tense := Some (js "past");
               Row.action_to_reflection_ratio := Some ratio |};
     Row.tone :=
       Some {| Row.emotional_tone := Some [js "neutral"];
               Row.formality_level := Some (js "casual") |};
     Row.devices :=
       Some {| Row.metaphor_frequency := Some (literal 0.02%Q);
               Row.simile_frequency := Some (literal 0.015%Q);
               Row.alliteration_frequency := Some (literal 0.008%Q);
               Row.repetition_patterns := Some (literal 0.03%Q) |};
     Row.comparable_authors := Some [] |}.

(** A stored row as the extractors make it (action ratio 1.5). *)
Definition typical_row : Row.t :=
  stored_row (of_nat 12) (literal 0.5%Q) (literal 0.3%Q) (literal 0.2%Q) (literal 0.48%Q)
             (literal 0.1%Q) (literal 0.7%Q) (literal 1.5%Q).


(** The same row with an action-to-reflection ratio of 0. *)
Definition still_row : Row.t :=
  stored_row (of_nat 12) (literal 0.5%Q) (literal 0.3%Q) (literal 0.2%Q) (literal 0.48%Q)
             (literal 0.1%Q) (literal 0.7%Q) zero.

(** The end-to-end example of the specification. *)
Definition garden : jsstring :=
  js "I love my garden. It is beautiful and I am happy every day.".

(** The argument [{}]. *)
Definition nothing_present : Guide.t :=
  {| Guide.sentence_part := None; Guide.vocabulary_part := None;
     Guide.narrative_part := None; Guide.tone_part := None;
     Guide.devices_part := None; Guide.comparable_authors := None;
     Guide.user_comments := None |}.

(** The argument [{ tone: {} }]. *)
Definition only_empty_tone : Guide.t :=
  {| Guide.sentence_part := None; Guide.vocabulary_part := None;
     Guide.narrative_part := None;
     Guide.tone_part :=
       Some {| Guide.emotional := None; Guide.tone_formality := None;
               Guide.humor := None |};
     Guide.devices_part := None; Guide.comparable_authors := None;
     Guide.user_comments := None |}.

(** A narrative part whose point of view and tense were not determined. *)
Definition undetermined_narrative : Guide.narrative :=
  {| Guide.pov := Some (js "unknown"); Guide.tense := Some (js "unknown");
     Guide.description_heavy := false |}.

Definition only_undetermined_narrative : Guide.t :=
  {| Guide.sentence_part := None; Guide.vocabulary_part := None;
     Guide.narrative_part := Some undetermined_narrative;
     Guide.tone_part := None; Guide.devices_part := None;
     Guide.comparable_authors := None; Guide.user_comments := None |}.

(** A call that replaces the samples of profile [p1] by the sample [s1]. *)
Definition replace_samples : Create.args :=
  {| Create.name := Some (js "Noir"); Create.description := None;
     Create.sampleIds := [js "s1"]; Create.projectId := None;
     Create.profileId := Some (js "p1"); Create.genre := None;
     Create.comparableAuthors := None; Create.userComments := None;
     Create.representativeSamples := None; Create.addToExisting := false |}.

(** A store that updates the profile and then fails to link the sample. *)
Definition link_fails : Create.replies :=
  {| Create.samplesError := None; Create.samples := [js "s1"];
     Create.analysesError := None; Create.analyses := [blank_row];
     Create.existingError := None; Create.existingAuthors := None;
     Create.profileReply :=
       inl {| Create.stored_id := js "p1"; Create.stored_name := Some (js "Noir");
              Create.stored_description := None |};
     Create.associationError := Some (js "timeout");
     Create.repSampleError := None |}.

(* ================================================================== *)
(** * Properties *)

(** ** Arithmetic of counts *)

Lemma Qc_eq_bool_refl (q : Qc) : Qc_eq_bool q q = true.
Proof.
  unfold Qc_eq_bool. destruct (Qc_eq_dec q q) as [_ | n]; [reflexivity | now elim n].
Qed.

Lemma is_zero_spec (q : Qc) : is_zero q = true <-> q = qzero.
Proof.
  unfold is_zero. split.
  - apply Qc_eq_bool_correct.
  - intros ->. apply Qc_eq_bool_refl.
Qed.

Lemma is_zero_false (q : Qc) : is_zero q = false <-> q <> qzero.
Proof.
  rewrite <- is_zero_spec. destruct (is_zero q); split; congruence.
Qed.

Lemma is_pos_spec (q : Qc) : is_pos q = true <-> (qzero < q)%Qc.
Proof.
  unfold is_pos. rewrite Qclt_alt.
  destruct (qzero ?= q)%Qc; split; congruence.
Qed.

Lemma natQ_add (a b : nat) : natQ (a + b) = (natQ a + natQ b)%Qc.
Proof.
  unfold natQ, Qcplus. apply Q2Qc_eq_iff. cbn [this Q2Qc].
  rewrite !Qred_correct, Nat2Z.inj_add, inject_Z_plus. reflexivity.
Qed.

Lemma natQ_S (n : nat) : natQ (S n) = (natQ n + natQ 1)%Qc.
Proof. rewrite <- natQ_add. f_equal. lia. Qed.

Lemma natQ_eq_zero (n : nat) : natQ n = qzero <-> n = 0.
Proof.
  unfold natQ, qzero. rewrite Q2Qc_eq_iff. unfold Qeq. simpl. lia.
Qed.

Lemma natQ_pos (n : nat) : 0 < n -> (qzero < natQ n)%Qc.
Proof.
  intro H. unfold Qclt, natQ, qzero. cbn [this Q2Qc]. rewrite !Qred_correct.
  unfold Qlt. simpl. lia.
Qed.

Lemma natQ_nonneg (n : nat) : (qzero <= natQ n)%Qc.
Proof.
  unfold Qcle, natQ, qzero. cbn [this Q2Qc]. rewrite !Qred_correct.
  unfold Qle. simpl. lia.
Qed.

Lemma is_zero_natQ (n : nat) : is_zero (natQ n) = (n =? 0).
Proof.
  destruct (Nat.eqb_spec n 0) as [-> | H].
  - now apply is_zero_spec.
  - apply is_zero_false. now rewrite natQ_eq_zero.
Qed.

Lemma is_pos_natQ (n : nat) : is_pos (natQ n) = (0 <? n).
Proof.
  destruct (Nat.ltb_spec 0 n) as [H | H].
  - now apply is_pos_spec, natQ_pos.
  - assert (n = 0) as -> by lia. reflexivity.
Qed.

(** Division of two counts: the quotient, or [NaN] for [0/0], or [Infinity]. *)
Lemma div_of_nat (a b : nat) :
  div (of_nat a) (of_nat b) =
  if b =? 0 then (if a =? 0 then NaN else PInf) else Fin (natQ a / natQ b)%Qc.
Proof.
  unfold div, of_nat. rewrite !is_zero_natQ, is_pos_natQ.
  destruct (b =? 0); [| reflexivity].
  destruct (Nat.eqb_spec a 0) as [-> | H]; [reflexivity |].
  destruct (Nat.ltb_spec 0 a); [reflexivity | lia].
Qed.

Lemma ratio_nonneg (a b : nat) : 0 < b -> (qzero <= natQ a / natQ b)%Qc.
Proof.
  intro H. unfold Qcdiv.
  replace qzero with (qzero * / natQ b)%Qc by apply Qcmult_0_l.
  apply Qcmult_le_compat_r; [apply natQ_nonneg |].
  unfold Qcle, Qcinv. cbn [this Q2Qc]. setoid_rewrite Qred_correct.
  pose proof (natQ_nonneg b) as Hb. unfold Qcle in Hb.
  cbn [this Q2Qc qzero] in Hb. rewrite Qred_correct in Hb.
  now apply Qinv_le_0_compat.
Qed.

Lemma nonneg_Fin (q : Qc) : nonneg (Fin q) = true <-> (qzero <= q)%Qc.
Proof.
  simpl. rewrite orb_true_iff, is_zero_spec, is_pos_spec. split.
  - intros [-> | H]; [apply Qcle_refl | now apply Qclt_le_weak].
  - intro H. destruct (Qc_eq_dec q qzero) as [e | n]; [now left | right].
    apply Qcle_lt_or_eq in H. destruct H as [H | H]; [exact H | congruence].
Qed.

(** [x || 0] keeps a finite value. *)
Lemma or_else_zero_Fin (q : Qc) : or_else (Fin q) zero = Fin q.
Proof.
  unfold or_else, truthy. destruct (is_zero q) eqn:E; [| reflexivity].
  apply is_zero_spec in E. now subst.
Qed.

(** A guarded quotient of two counts, [a / b || 0], when the numerator
    vanishes with the denominator. *)
Lemma guarded_ratio (a b : nat) :
  (b = 0 -> a = 0) ->
  exists q, or_else (div (of_nat a) (of_nat b)) zero = Fin q
            /\ (qzero <= q)%Qc
            /\ (b = 0 -> q = qzero)
            /\ (0 < b -> q = (natQ a / natQ b)%Qc).
Proof.
  intro H. rewrite div_of_nat.
  destruct (Nat.eqb_spec b 0) as [-> | Hb].
  - rewrite (H eq_refl). exists qzero. simpl.
    split; [reflexivity |]. split; [apply Qcle_refl |].
    split; [reflexivity | lia].
  - exists (natQ a / natQ b)%Qc. rewrite or_else_zero_Fin.
    split; [reflexivity |]. split; [apply ratio_nonneg; lia |].
    split; [lia | reflexivity].
Qed.

(** The three length classes partition the sentences. *)
Lemma length_classes_partition (l : list nat) :
  length (filter (fun len => len <=? 10) l)
  + length (filter (fun len => (10 <? len) && (len <=? 20)) l)
  + length (filter (fun len => 20 <? len) l) = length l.
Proof.
  induction l as [| x l IH]; [reflexivity |]. simpl.
  destruct (Nat.leb_spec x 10), (Nat.ltb_spec 10 x), (Nat.leb_spec x 20),
    (Nat.ltb_spec 20 x); simpl; lia.
Qed.

Lemma length_zero_nil {A : Type} (l : list A) : length l = 0 -> l = [].
Proof. now destruct l. Qed.

(** Every field of the sentence metrics but the question frequency is a
    non-negative rational, zero when the text has no sentence, and the three
    fractions add up to one when it has one. *)
Lemma sentence_metrics_guarded_fields (text : jsstring) :
  let m := calculateSentenceMetrics text in
  let n := length (sentences_of text) in
  (forall x,
      In x [SM.avg_length m; SM.short (SM.length_distribution m);
            SM.medium (SM.length_distribution m);
            SM.long (SM.length_distribution m);
            SM.complexity_score m; SM.fragment_frequency m] ->
      finite x = true /\ nonneg x = true /\ (n = 0 -> x = zero))
  /\ (0 < n ->
      add (add (SM.short (SM.length_distribution m))
               (SM.medium (SM.length_distribution m)))
          (SM.long (SM.length_distribution m)) = one).
Proof.
  intros m n. subst m n. unfold calculateSentenceMetrics. cbn zeta.
  set (ss := sentences_of text). set (ls := map word_count ss).
  assert (Hnil : length ss = 0 -> ls = []).
  { intro H. subst ls. now rewrite (length_zero_nil _ H). }
  destruct (guarded_ratio (fold_left (fun sum len => sum + len) ls 0) (length ss))
    as (qa & Ea & Pa & Za & _).
  { intro H. now rewrite (Hnil H). }
  destruct (guarded_ratio (length (filter (fun len => len <=? 10) ls)) (length ss))
    as (qs & Es & Ps & Zs & Vs).
  { intro H. now rewrite (Hnil H). }
  destruct (guarded_ratio
              (length (filter (fun len => (10 <? len) && (len <=? 20)) ls))
              (length ss)) as (qm & Em & Pm & Zm & Vm).
  { intro H. now rewrite (Hnil H). }
  destruct (guarded_ratio (length (filter (fun len => 20 <? len) ls)) (length ss))
    as (ql & El & Pl & Zl & Vl).
  { intro H. now rewrite (Hnil H). }
  destruct (guarded_ratio (length (filter (fun s => word_count s <? 5) ss))
                          (length ss)) as (qf & Ef & Pf & Zf & _).
  { intro H. now rewrite (length_zero_nil _ H). }
  cbn [SM.avg_length SM.length_distribution SM.short SM.medium SM.long
       SM.complexity_score SM.fragment_frequency].
  rewrite Ea, Es, Em, El, Ef.
  assert (Hc : exists qc, min one (div (Fin qa) (of_nat 25)) = Fin qc
                          /\ (qzero <= qc)%Qc /\ (qa = qzero -> qc = qzero)).
  { unfold div, of_nat.
    replace (is_zero (natQ 25)) with false by (symmetry; now rewrite is_zero_natQ).
    assert (Hq : (qzero <= qa / natQ 25)%Qc).
    { unfold Qcdiv. replace qzero with (qzero * / natQ 25)%Qc by apply Qcmult_0_l.
      apply Qcmult_le_compat_r; [exact Pa |]. now vm_compute. }
    unfold min, one, of_nat. destruct (lt (Fin (qa / natQ 25)%Qc) (Fin (natQ 1))) eqn:E.
    - exists (qa / natQ 25)%Qc. repeat split; [exact Hq |].
      intros ->. unfold Qcdiv. apply Qcmult_0_l.
    - exists (natQ 1). repeat split; [apply natQ_nonneg |].
      intros ->. exfalso. revert E. now vm_compute. }
  destruct Hc as (qc & Ec & Pc & Zc). rewrite Ec.
  split.
  - intros x Hx. simpl in Hx.
    assert (Hall : forall q, (qzero <= q)%Qc -> (length ss = 0 -> q = qzero) ->
                             finite (Fin q) = true /\ nonneg (Fin q) = true
                             /\ (length ss = 0 -> Fin q = zero)).
    { intros q Hq Hz. repeat split; [now apply nonneg_Fin |].
      intro H. now rewrite (Hz H). }
    destruct Hx as [<- | [<- | [<- | [<- | [<- | [<- | []]]]]]]; apply Hall; auto.
  - intro Hn. unfold one, of_nat. cbn [add]. f_equal.
    rewrite (Vs Hn), (Vm Hn), (Vl Hn).
    pose proof (length_classes_partition ls) as Hp.
    assert (Hlen : length ls = length ss) by (subst ls; apply length_map).
    rewrite Hlen in Hp.
    assert (Hnz : natQ (length ss) <> qzero) by (rewrite natQ_eq_zero; lia).
    set (a := natQ (length (filter (fun len => len <=? 10) ls))).
    set (b := natQ (length (filter (fun len => (10 <? len) && (len <=? 20)) ls))).
    set (c := natQ (length (filter (fun len => 20 <? len) ls))).
    assert (Hsum : natQ (length ss) = (a + b + c)%Qc).
    { subst a b c. rewrite <- !natQ_add. now rewrite Hp. }
    rewrite Hsum in Hnz |- *. unfold qzero in Hnz.
    change (natQ 1) with 1%Qc. field. exact Hnz.
Qed.

(** The question frequency is the one quotient whose numerator does not vanish
    with the denominator. *)
Lemma question_frequency_value (text : jsstring) :
  SM.question_frequency (calculateSentenceMetrics text) =
  if length (sentences_of text) =? 0
  then (if count_chars is_question_mark text =? 0 then zero else PInf)
  else Fin (natQ (count_chars is_question_mark text)
            / natQ (length (sentences_of text)))%Qc.
Proof.
  unfold calculateSentenceMetrics. cbn [SM.question_frequency].
  rewrite div_of_nat.
  destruct (length (sentences_of text) =? 0).
  - now destruct (count_chars is_question_mark text =? 0).
  - apply or_else_zero_Fin.
Qed.

(** C1 (defect).  Every field of the sentence metrics is to be finite, and
    every ratio 0 when the text has no sentence.  The text made of one
    question mark has no sentence, and its question frequency is [1/0 || 0],
    that is, Infinity. *)
Theorem question_frequency_unguarded :
  length (sentences_of (js "?")) = 0
  /\ SM.question_frequency (calculateSentenceMetrics (js "?")) = PInf
  /\ finite (SM.question_frequency (calculateSentenceMetrics (js "?"))) = false.
Proof. repeat split; now vm_compute. Qed.

(* ------------------------------------------------------------------ *)
(** ** The empty aggregation *)

Lemma combineMetrics_nonempty (analyses : list Row.t) :
  analyses <> [] -> exists p, combineMetrics analyses = Some p.
Proof.
  intro H. unfold combineMetrics.
  destruct analyses as [| a l]; [now elim H |]. cbn [length Nat.eqb].
  eexists. reflexivity.
Qed.

(** C2.  With no analyses the aggregation never yields style parameters:
    [combineMetrics] returns [null], and [createStyleProfile], its only
    caller, throws before it gets there; when the queries themselves
    succeeded the error reported is the "No style analyses found" one. *)
Theorem empty_aggregation_is_rejected (r : Fetched.t) :
  Fetched.analyses r = [] ->
  combineMetrics (Fetched.analyses r) = None
  /\ (exists message, createStyleProfile_parameters r = Thrown message)
  /\ (Fetched.samplesError r = None ->
      length (Fetched.samples r) = length (Fetched.sampleIds r) ->
      Fetched.analysesError r = None ->
      createStyleProfile_parameters r =
      Thrown (js "Failed to create style profile: " ++ no_analyses_message)).
Proof.
  intro H. unfold createStyleProfile_parameters. rewrite H.
  split; [reflexivity |]. split.
  - destruct (Fetched.samplesError r); [eexists; reflexivity |].
    cbn [is_some throw_if bind].
    destruct (length (Fetched.samples r) =? length (Fetched.sampleIds r));
      [| eexists; reflexivity].
    cbn [negb throw_if bind].
    destruct (Fetched.analysesError r); eexists; reflexivity.
  - intros -> E ->. rewrite E, Nat.eqb_refl. reflexivity.
Qed.

(** With at least one analysis and no query error, the same path reaches
    [combineMetrics] and gets style parameters from it. *)
Lemma nonempty_aggregation_proceeds (r : Fetched.t) :
  Fetched.samplesError r = None ->
  length (Fetched.samples r) = length (Fetched.sampleIds r) ->
  Fetched.analysesError r = None ->
  Fetched.analyses r <> [] ->
  exists p, createStyleProfile_parameters r = Returned (Some p).
Proof.
  intros H1 H2 H3 H4. destruct (combineMetrics_nonempty _ H4) as [p Hp].
  exists p. unfold createStyleProfile_parameters.
  rewrite H1, H2, H3, Nat.eqb_refl, Hp.
  destruct (Fetched.analyses r); [now elim H4 | reflexivity].
Qed.

(* ------------------------------------------------------------------ *)
(** ** Strings and sets of strings *)

Lemma jsstring_eqb_true (a b : jsstring) : jsstring_eqb a b = true <-> a = b.
Proof.
  unfold jsstring_eqb. destruct (list_eq_dec ascii_dec a b); split; congruence.
Qed.

Lemma jsstring_eqb_false (a b : jsstring) : jsstring_eqb a b = false <-> a <> b.
Proof.
  unfold jsstring_eqb. destruct (list_eq_dec ascii_dec a b); split; congruence.
Qed.

Lemma jsstring_eqb_refl (a : jsstring) : jsstring_eqb a a = true.
Proof. now apply jsstring_eqb_true. Qed.

Lemma includes_In (l : list jsstring) (w : jsstring) :
  includes l w = true <-> In w l.
Proof.
  unfold includes. rewrite existsb_exists. split.
  - intros (x & Hx & E). apply jsstring_eqb_true in E. now subst.
  - intro H. exists w. split; [exact H | apply jsstring_eqb_refl].
Qed.

Lemma includes_not_In (l : list jsstring) (w : jsstring) :
  includes l w = false <-> ~ In w l.
Proof.
  rewrite <- includes_In. destruct (includes l w); split; congruence.
Qed.

Lemma first_seen_snoc (l : list jsstring) (x : jsstring) :
  first_seen (l ++ [x]) = set_add (first_seen l) x.
Proof. unfold first_seen. now rewrite fold_left_app. Qed.

Lemma first_seen_In (l : list jsstring) (v : jsstring) :
  In v (first_seen l) <-> In v l.
Proof.
  induction l as [| x l IH] using rev_ind; [reflexivity |].
  rewrite first_seen_snoc, in_app_iff. unfold set_add.
  destruct (includes (first_seen l) x) eqn:E.
  - apply includes_In in E. rewrite IH in *. simpl.
    split; [tauto |]. intros [H | [<- | []]]; tauto.
  - rewrite in_app_iff, IH. reflexivity.
Qed.

(** A value that comes before [r] in first-seen order is met before the first
    occurrence of [r]. *)
Lemma first_seen_split (l : list jsstring) (ks1 ks2 : list jsstring) (r : jsstring) :
  first_seen l = ks1 ++ r :: ks2 ->
  exists before after,
    l = before ++ r :: after /\ ~ In r before
    /\ (forall v, In v before -> In v ks1).
Proof.
  revert ks1 ks2. induction l as [| x l IH] using rev_ind; intros ks1 ks2 H.
  - destruct ks1; discriminate H.
  - rewrite first_seen_snoc in H. unfold set_add in H.
    destruct (includes (first_seen l) x) eqn:E.
    + destruct (IH _ _ H) as (b & a & -> & Hb & Hv).
      exists b, (a ++ [x]). rewrite <- app_assoc. now repeat split.
    + apply includes_not_In in E.
      destruct ks2 as [| k ks2 _] using rev_ind.
      * apply app_inj_tail in H. destruct H as [H ->].
        exists l, []. rewrite first_seen_In in E. repeat split; [exact E |].
        intros v Hv. rewrite <- H. now apply first_seen_In.
      * rewrite app_comm_cons, app_assoc in H.
        apply app_inj_tail in H. destruct H as [H ->].
        destruct (IH _ _ H) as (b & a & -> & Hb & Hv).
        exists b, (a ++ [k]). rewrite <- app_assoc. now repeat split.
Qed.

Lemma occurrences_snoc (l : list jsstring) (x k : jsstring) :
  occurrences k (l ++ [x]) = occurrences k l + (if jsstring_eqb k x then 1 else 0).
Proof.
  unfold occurrences. rewrite count_occ_app. cbn [count_occ].
  unfold jsstring_eqb.
  destruct (list_eq_dec ascii_dec x k), (list_eq_dec ascii_dec k x);
    congruence || reflexivity.
Qed.

Lemma occurrences_pos (l : list jsstring) (k : jsstring) :
  In k l <-> 0 < occurrences k l.
Proof. unfold occurrences. apply count_occ_In. Qed.

(* ------------------------------------------------------------------ *)
(** ** Counter tables *)

Lemma own_set_same (o : JSObject.t) (k : jsstring) (v : JSObject.value) :
  JSObject.own (JSObject.set o k v) k = Some v.
Proof.
  induction o as [| [k' v'] o IH]; simpl.
  - now rewrite jsstring_eqb_refl.
  - destruct (jsstring_eqb k k') eqn:E; simpl; rewrite E; [reflexivity | exact IH].
Qed.

Lemma own_set_other (o : JSObject.t) (k k' : jsstring) (v : JSObject.value) :
  k' <> k -> JSObject.own (JSObject.set o k v) k' = JSObject.own o k'.
Proof.
  intro H. induction o as [| [k0 v0] o IH]; simpl.
  - apply jsstring_eqb_false in H. now rewrite H.
  - destruct (jsstring_eqb k k0) eqn:E; simpl.
    + apply jsstring_eqb_true in E. subst k0.
      apply jsstring_eqb_false in H. now rewrite H.
    + now rewrite IH.
Qed.

Lemma own_none_names (o : JSObject.t) (k : jsstring) :
  JSObject.own o k = None <-> ~ In k (map fst o).
Proof.
  induction o as [| [k' v'] o IH]; simpl; [tauto |].
  destruct (jsstring_eqb k k') eqn:E.
  - apply jsstring_eqb_true in E. subst. split; [discriminate | tauto].
  - apply jsstring_eqb_false in E. rewrite IH. split; [| tauto].
    intros H [H' | H']; [congruence | tauto].
Qed.

Lemma names_set_new (o : JSObject.t) (k : jsstring) (v : JSObject.value) :
  JSObject.own o k = None ->
  map fst (JSObject.set o k v) = map fst o ++ [k].
Proof.
  induction o as [| [k' v'] o IH]; simpl; [reflexivity |].
  destruct (jsstring_eqb k k'); [discriminate |].
  intro H. simpl. now rewrite IH.
Qed.

Lemma names_set_old (o : JSObject.t) (k : jsstring) (v : JSObject.value) :
  JSObject.own o k <> None ->
  map fst (JSObject.set o k v) = map fst o.
Proof.
  induction o as [| [k' v'] o IH]; simpl; [congruence |].
  destruct (jsstring_eqb k k'); [reflexivity |].
  intro H. simpl. now rewrite IH.
Qed.

Lemma count_values_supplied (values : list (option jsstring)) :
  count_values values = fold_left JSObject.bump (supplied values) JSObject.empty.
Proof.
  unfold count_values. generalize JSObject.empty.
  induction values as [| v values IH]; intro o; [reflexivity |].
  cbn [fold_left supplied flat_map]. rewrite fold_left_app.
  destruct v as [k |]; [| apply IH].
  destruct (nonempty k); apply IH.
Qed.

Lemma ordinary_spec (k : jsstring) :
  ordinary k = true ->
  JSObject.is_index k = false
  /\ jsstring_eqb k JSObject.proto_name = false
  /\ includes JSObject.inherited_names k = false.
Proof.
  unfold ordinary. rewrite !andb_true_iff, !negb_true_iff. tauto.
Qed.

(** Over ordinary names the table holds, for every value met, the number of
    times it was met, and lists the values in first-seen order. *)
Lemma bump_all_ordinary (l : list jsstring) :
  Forall (fun k => ordinary k = true) l ->
  let o := fold_left JSObject.bump l JSObject.empty in
  map fst o = first_seen l
  /\ forall k, JSObject.own o k =
               if occurrences k l =? 0 then None
               else Some (JSObject.Count (occurrences k l)).
Proof.
  induction l as [| x l IH] using rev_ind; intro H.
  - split; [reflexivity | intro k; reflexivity].
  - apply Forall_app in H. destruct H as [Hl Hx].
    apply Forall_inv in Hx. apply ordinary_spec in Hx.
    destruct Hx as (_ & Hproto & Hinh).
    specialize (IH Hl). cbn zeta in IH |- *. destruct IH as [IHn IHo].
    rewrite fold_left_app. cbn [fold_left].
    set (o := fold_left JSObject.bump l JSObject.empty) in *.
    rewrite first_seen_snoc. unfold set_add, JSObject.bump.
    rewrite Hproto, Hinh.
    assert (Hinc : includes (first_seen l) x
                   = negb (occurrences x l =? 0)).
    { rewrite <- IHn. destruct (occurrences x l =? 0) eqn:E.
      - apply includes_not_In, own_none_names. now rewrite IHo, E.
      - apply includes_In. destruct (in_dec (list_eq_dec ascii_dec) x (map fst o))
          as [i | n]; [exact i |].
        apply own_none_names in n. rewrite IHo, E in n. discriminate. }
    rewrite Hinc. pose proof (IHo x) as Hox.
    destruct (occurrences x l =? 0) eqn:E; rewrite Hox; cbn [negb].
    + apply Nat.eqb_eq in E. split.
      * rewrite names_set_new, IHn; [reflexivity | now rewrite Hox].
      * intro k. rewrite occurrences_snoc.
        destruct (jsstring_eqb k x) eqn:Ek.
        -- apply jsstring_eqb_true in Ek. subst k.
           rewrite own_set_same, E. reflexivity.
        -- apply jsstring_eqb_false in Ek.
           rewrite own_set_other, IHo, Nat.add_0_r by exact Ek. reflexivity.
    + split.
      * rewrite names_set_old, IHn; [reflexivity | now rewrite Hox].
      * intro k. rewrite occurrences_snoc.
        destruct (jsstring_eqb k x) eqn:Ek.
        -- apply jsstring_eqb_true in Ek. subst k.
           rewrite own_set_same.
           replace (occurrences x l + 1 =? 0) with false
             by (symmetry; apply Nat.eqb_neq; lia).
           reflexivity.
        -- apply jsstring_eqb_false in Ek.
           rewrite own_set_other, IHo, Nat.add_0_r by exact Ek. reflexivity.
Qed.

Lemma sorted_indices_none (names : list jsstring) :
  Forall (fun k => JSObject.is_index k = false) names ->
  JSObject.sorted_indices names = [].
Proof.
  unfold JSObject.sorted_indices. intro H.
  assert (G : forall acc,
             fold_left (fun acc k =>
                          match JSObject.array_index k with
                          | Some v => JSObject.insert_sorted k v acc
                          | None => acc
                          end) names acc = acc).
  { induction H as [| k names Hk _ IH]; intro acc; [reflexivity |].
    cbn [fold_left]. unfold JSObject.is_index in Hk.
    destruct (JSObject.array_index k); [discriminate | apply IH]. }
  now rewrite G.
Qed.

Lemma filter_all {A : Type} (f : A -> bool) (l : list A) :
  Forall (fun x => f x = true) l -> filter f l = l.
Proof.
  induction 1 as [| x l Hx _ IH]; [reflexivity |].
  simpl. now rewrite Hx, IH.
Qed.

(** Without array indices, [Object.keys] is the creation order. *)
Lemma keys_creation_order (o : JSObject.t) :
  Forall (fun k => JSObject.is_index k = false) (map fst o) ->
  JSObject.keys o = map fst o.
Proof.
  intro H. unfold JSObject.keys. rewrite sorted_indices_none by exact H.
  apply filter_all. eapply Forall_impl; [| exact H].
  intros k Hk. cbn beta. now rewrite Hk.
Qed.

(** The selection loop returns the first key with the largest count. *)
Lemma select_loop_spec (default : jsstring) (o : JSObject.t)
      (c : jsstring -> nat) (ks : list jsstring) :
  (forall k, In k ks -> JSObject.own o k = Some (JSObject.Count (c k)) /\ 0 < c k) ->
  let st := fold_left (fun (st : jsstring * nat) k =>
                         match JSObject.exceeds o k (snd st) with
                         | Some c => (k, c)
                         | None => st
                         end) ks (default, 0) in
  (ks = [] /\ st = (default, 0))
  \/ (exists ks1 ks2,
         ks = ks1 ++ fst st :: ks2
         /\ snd st = c (fst st)
         /\ (forall v, In v ks1 -> c v < c (fst st))
         /\ (forall v, In v ks2 -> c v <= c (fst st))).
Proof.
  induction ks as [| k ks IH] using rev_ind; intro H; cbn zeta.
  - left. now split.
  - right. rewrite fold_left_app. cbn [fold_left].
    assert (Hks : forall k0, In k0 ks ->
                    JSObject.own o k0 = Some (JSObject.Count (c k0)) /\ 0 < c k0).
    { intros k0 Hk0. apply H, in_app_iff. now left. }
    specialize (IH Hks). cbn zeta in IH.
    destruct (H k) as [Hk Hpos]; [apply in_app_iff; right; now left |].
    set (st := fold_left _ ks (default, 0)) in *.
    unfold JSObject.exceeds. rewrite Hk.
    destruct IH as [[-> Hst] | (ks1 & ks2 & Hsplit & Hmax & H1 & H2)].
    + rewrite Hst. cbn [snd].
      replace (0 <? c k) with true by (symmetry; now apply Nat.ltb_lt).
      exists [], []. cbn [fst snd]. repeat split; intros v [].
    + destruct (Nat.ltb_spec (snd st) (c k)) as [Hlt | Hge].
      * exists ks, []. cbn [fst snd]. repeat split; [| intros v []].
        intros v Hv. rewrite Hsplit in Hv. apply in_app_iff in Hv.
        destruct Hv as [Hv | [<- | Hv]].
        -- specialize (H1 v Hv). lia.
        -- lia.
        -- specialize (H2 v Hv). lia.
      * exists ks1, (ks2 ++ [k]). repeat split.
        -- rewrite Hsplit at 1. now rewrite <- app_assoc.
        -- exact Hmax.
        -- exact H1.
        -- intros v Hv. apply in_app_iff in Hv.
           destruct Hv as [Hv | [<- | []]]; [now apply H2 | lia].
Qed.

(** Over ordinary names, [dominant_value] is the default when nothing is
    supplied and the first mode of the supplied values otherwise. *)
Lemma dominant_value_spec (default : jsstring) (values : list (option jsstring)) :
  Forall (fun k => ordinary k = true) (supplied values) ->
  mode_or_default default (supplied values) (dominant_value default values).
Proof.
  intro Hord. unfold dominant_value, select_dominant.
  rewrite count_values_supplied.
  set (l := supplied values) in *.
  destruct (bump_all_ordinary l Hord) as [Hnames Hown].
  set (o := fold_left JSObject.bump l JSObject.empty) in *.
  assert (Hkeys : JSObject.keys o = first_seen l).
  { rewrite <- Hnames. apply keys_creation_order. rewrite Hnames.
    apply Forall_forall. intros k Hk. rewrite first_seen_In in Hk.
    rewrite Forall_forall in Hord. apply (ordinary_spec k (Hord k Hk)). }
  rewrite Hkeys.
  assert (Hc : forall k, In k (first_seen l) ->
                 JSObject.own o k = Some (JSObject.Count (occurrences k l))
                 /\ 0 < occurrences k l).
  { intros k Hk. rewrite first_seen_In, occurrences_pos in Hk.
    split; [| exact Hk]. rewrite Hown.
    now replace (occurrences k l =? 0) with false
      by (symmetry; apply Nat.eqb_neq; lia). }
  pose proof (select_loop_spec default o (fun k => occurrences k l)
                               (first_seen l) Hc) as Hsel.
  cbn zeta in Hsel.
  set (st := fold_left _ (first_seen l) (default, 0)) in *.
  destruct Hsel as [[Hnil Hst] | (ks1 & ks2 & Hsplit & _ & H1 & H2)].
  - destruct l as [| x l'].
    + cbn [mode_or_default]. now rewrite Hst.
    + exfalso. assert (In x (first_seen (x :: l'))) as Hin
        by (apply first_seen_In; now left).
      rewrite Hnil in Hin. exact Hin.
  - assert (Hne : l <> []).
    { intro E. rewrite E in Hsplit. destruct ks1; discriminate Hsplit. }
    assert (G : first_mode (fst st) l);
      [| destruct l; [now elim Hne | exact G]].
    destruct (first_seen_split l ks1 ks2 (fst st) Hsplit)
      as (before & after & Hl & Hnot & Hbefore).
    exists before, after. repeat split; [exact Hl | exact Hnot | |].
    + intros v Hv. now apply H1, Hbefore.
    + intro v.
      destruct (in_dec (list_eq_dec ascii_dec) v l) as [Hin | Hout].
      * rewrite <- first_seen_In, Hsplit in Hin.
        apply in_app_iff in Hin. destruct Hin as [Hin | [<- | Hin]].
        -- specialize (H1 v Hin). lia.
        -- lia.
        -- now apply H2.
      * unfold occurrences at 1.
        rewrite (proj1 (count_occ_not_In _ l v) Hout). lia.
Qed.

(** When one value occurs more often than every other, it is the first mode. *)
Lemma first_mode_majority (r m : jsstring) (l : list jsstring) :
  first_mode r l ->
  (forall v, v <> m -> occurrences v l < occurrences m l) ->
  r = m.
Proof.
  intros (_ & _ & _ & _ & _ & Hmax) Hmaj.
  destruct (list_eq_dec ascii_dec r m) as [E | N]; [exact E |].
  specialize (Hmaj r N). specialize (Hmax m). lia.
Qed.

Lemma extractor_values_ordinary :
  Forall (fun k => ordinary k = true) extractor_values.
Proof. repeat constructor. Qed.

(** The order of [Object.keys] shows on array indices: of two values met once
    each, the smaller index wins, not the one met first. *)
Example index_names_come_first :
  dominant_value (js "unknown") [Some (js "2"); Some (js "1")] = js "1".
Proof. reflexivity. Qed.

(** Of two values met equally often, the one met first is selected. *)
Example tie_goes_to_first_seen :
  dominant_value (js "unknown")
                 [Some (js "past"); Some (js "present"); None;
                  Some (js "present"); Some (js "past")] = js "past".
Proof. reflexivity. Qed.

(** C3.  For a non-empty sequence of rows whose categorical values are
    ordinary property names (as the values of the data model are), the
    composite point of view, tense and formality level are each the mode of
    the values the rows supply, the first-encountered one among equally
    frequent values, and default to "unknown", "unknown" and "neutral" when
    no row supplies the member. *)
Theorem categorical_fields_are_first_modes (analyses : list Row.t) :
  analyses <> [] ->
  Forall (fun k => ordinary k = true)
         (supplied (map pov_of analyses) ++ supplied (map tense_of analyses)
          ++ supplied (map formality_level_of analyses)) ->
  exists p,
    combineMetrics analyses = Some p
    /\ mode_or_default (js "unknown") (supplied (map pov_of analyses))
                       (SP.pov (SP.narrative_part p))
    /\ mode_or_default (js "unknown") (supplied (map tense_of analyses))
                       (SP.tense (SP.narrative_part p))
    /\ mode_or_default (js "neutral") (supplied (map formality_level_of analyses))
                       (SP.tone_formality (SP.tone_part p)).
Proof.
  intros Hne Hord. apply Forall_app in Hord. destruct Hord as [Hpov Hord].
  apply Forall_app in Hord. destruct Hord as [Htense Hlevel].
  unfold combineMetrics.
  destruct analyses as [| a l]; [now elim Hne |]. cbn [length Nat.eqb].
  eexists. split; [reflexivity |].
  cbn [SP.narrative_part SP.tone_part SP.pov SP.tense SP.tone_formality].
  repeat split; now apply dominant_value_spec.
Qed.

(** The 2-against-1 majority of the claim, obtained from the theorem. *)
Lemma categorical_fields_are_first_modes_witness :
  two_first_one_third <> []
  /\ Forall (fun k => ordinary k = true)
            (supplied (map pov_of two_first_one_third)
             ++ supplied (map tense_of two_first_one_third)
             ++ supplied (map formality_level_of two_first_one_third))
  /\ exists p,
      combineMetrics two_first_one_third = Some p
      /\ SP.pov (SP.narrative_part p) = js "first_person"
      /\ SP.tense (SP.narrative_part p) = js "unknown"
      /\ SP.tone_formality (SP.tone_part p) = js "neutral".
Proof.
  assert (H1 : two_first_one_third <> []) by discriminate.
  assert (H2 : Forall (fun k => ordinary k = true)
                 (supplied (map pov_of two_first_one_third)
                  ++ supplied (map tense_of two_first_one_third)
                  ++ supplied (map formality_level_of two_first_one_third)))
    by (repeat constructor).
  split; [exact H1 |]. split; [exact H2 |].
  destruct (categorical_fields_are_first_modes two_first_one_third H1 H2)
    as (p & E & Hpov & Htense & Hlevel).
  exists p. split; [exact E |]. split; [| split; [exact Htense | exact Hlevel]].
  apply (first_mode_majority _ (js "first_person") _ Hpov).
  intros v Hv.
  change (supplied (map pov_of two_first_one_third))
    with [js "first_person"; js "third_person"; js "first_person"].
  unfold occurrences. cbn [count_occ].
  destruct (list_eq_dec ascii_dec (js "first_person") v) as [e | _];
    [now elim Hv |].
  destruct (list_eq_dec ascii_dec (js "first_person") (js "first_person"))
    as [_ | n]; [| now elim n].
  destruct (list_eq_dec ascii_dec (js "third_person") (js "first_person"))
    as [e | _]; [discriminate e |].
  destruct (list_eq_dec ascii_dec (js "third_person") v); lia.
Defined.

(** The samples exist and none of them has been analysed. *)
Lemma empty_aggregation_is_rejected_witness :
  Fetched.analyses nothing_analysed = []
  /\ combineMetrics (Fetched.analyses nothing_analysed) = None
  /\ createStyleProfile_parameters nothing_analysed =
     Thrown (js "Failed to create style profile: No style analyses found for the provided samples. Please analyze the samples first.").
Proof.
  split; [reflexivity |].
  destruct (empty_aggregation_is_rejected nothing_analysed eq_refl)
    as (H1 & _ & H3).
  split; [exact H1 | exact (H3 eq_refl eq_refl eq_refl)].
Defined.

(* ------------------------------------------------------------------ *)
(** ** Binary64 numbers *)

Section Rounding.

Local Open Scope Q_scope.

Lemma pow2_pos (e : Z) : 0 < pow2 e.
Proof. apply Qpower_0_lt. reflexivity. Qed.

Lemma pow2_add (a b : Z) : pow2 (a + b) == pow2 a * pow2 b.
Proof. apply Qpower_plus. discriminate. Qed.

Lemma pow2_sub (a b : Z) : pow2 (a - b) == pow2 a / pow2 b.
Proof.
  unfold Z.sub. rewrite pow2_add. unfold pow2. rewrite Qpower_opp. reflexivity.
Qed.

Lemma pow2_lt (a b : Z) : (a < b)%Z -> pow2 a < pow2 b.
Proof. intro H. apply Qpower_lt_compat_l; [exact H | reflexivity]. Qed.

Lemma pow2_le (a b : Z) : (a <= b)%Z -> pow2 a <= pow2 b.
Proof. intro H. apply Qpower_le_compat_l; [exact H | discriminate]. Qed.

Lemma pow2_lt_inv (a b : Z) : pow2 a < pow2 b -> (a < b)%Z.
Proof. intro H. apply (Qpower_lt_compat_l_inv 2); [exact H | reflexivity]. Qed.

Lemma pow2_Z (n : Z) : (0 <= n)%Z -> pow2 n == inject_Z (2 ^ n).
Proof. intro H. unfold pow2. now rewrite Zpower_Qpower. Qed.

(** [ilog2 q] is the exponent of the leading bit of [q]. *)
Lemma ilog2_lower (q : Q) : 0 < q -> pow2 (ilog2 q) <= q.
Proof.
  intro Hq. unfold ilog2.
  set (a := Z.log2 (Qnum q)). set (b := Z.log2 (Zpos (Qden q))).
  destruct (Qle_bool (pow2 (a - b)) q) eqn:E; [now apply Qle_bool_iff |].
  destruct q as [p d]. cbn [Qnum Qden] in a, b.
  assert (Hp : (0 < p)%Z) by (unfold Qlt in Hq; cbn in Hq; lia).
  assert (Ha : (2 ^ a <= p)%Z) by (apply Z.log2_spec; exact Hp).
  assert (Hb : (Zpos d < 2 ^ (b + 1))%Z).
  { replace (b + 1)%Z with (Z.succ b) by lia. apply Z.log2_spec. lia. }
  assert (Ha0 : (0 <= a)%Z) by apply Z.log2_nonneg.
  assert (Hb0 : (0 <= b)%Z) by apply Z.log2_nonneg.
  replace (a - b - 1)%Z with (a - (b + 1))%Z by lia.
  rewrite pow2_sub, (pow2_Z a), (pow2_Z (b + 1)) by lia.
  assert (H2a : (0 < 2 ^ a)%Z) by (apply Z.pow_pos_nonneg; lia).
  apply Qle_shift_div_r.
  - change 0 with (inject_Z 0). rewrite <- Zlt_Qlt. lia.
  - unfold Qle, Qmult, inject_Z. cbn [Qnum Qden]. nia.
Qed.

Lemma ilog2_upper (q : Q) : 0 < q -> q < pow2 (ilog2 q + 1).
Proof.
  intro Hq. unfold ilog2.
  set (a := Z.log2 (Qnum q)). set (b := Z.log2 (Zpos (Qden q))).
  destruct (Qle_bool (pow2 (a - b)) q) eqn:E.
  - destruct q as [p d]. cbn [Qnum Qden] in a, b.
    assert (Hp : (0 < p)%Z) by (unfold Qlt in Hq; cbn in Hq; lia).
    assert (Ha : (p < 2 ^ (a + 1))%Z).
    { replace (a + 1)%Z with (Z.succ a) by lia. apply Z.log2_spec. exact Hp. }
    assert (Hb : (2 ^ b <= Zpos d)%Z) by (apply Z.log2_spec; lia).
    assert (Ha0 : (0 <= a)%Z) by apply Z.log2_nonneg.
    assert (Hb0 : (0 <= b)%Z) by apply Z.log2_nonneg.
    replace (a - b + 1)%Z with ((a + 1) - b)%Z by lia.
    rewrite pow2_sub, (pow2_Z (a + 1)), (pow2_Z b) by lia.
    assert (H2b : (0 < 2 ^ b)%Z) by (apply Z.pow_pos_nonneg; lia).
    apply Qlt_shift_div_l.
    + change 0 with (inject_Z 0). rewrite <- Zlt_Qlt. lia.
    + unfold Qlt, Qmult, inject_Z. cbn [Qnum Qden]. nia.
  - replace (a - b - 1 + 1)%Z with (a - b)%Z by lia.
    apply Qnot_le_lt. intro H. apply Qle_bool_iff in H. congruence.
Qed.

Lemma nearest_even_comp (x y : Q) : x == y -> nearest_even x = nearest_even y.
Proof.
  intro H. unfold nearest_even. rewrite (Qfloor_comp x y H).
  assert (E : x - inject_Z (Qfloor y) == y - inject_Z (Qfloor y))
    by (apply Qplus_comp; [exact H | reflexivity]).
  now rewrite (Qcompare_comp _ _ E _ _ (Qeq_refl (1 # 2))).
Qed.

Lemma nearest_even_Z (z : Z) : nearest_even (inject_Z z) = z.
Proof.
  unfold nearest_even. rewrite Qfloor_Z.
  assert (E : inject_Z z - inject_Z z == 0) by ring.
  now rewrite (Qcompare_comp _ _ E _ _ (Qeq_refl (1 # 2))).
Qed.

(** A positive number with at most 53 significant bits and an exponent in
    range is its own rounding. *)
Lemma round_pos_exact (q : Q) (m e : Z) :
  (0 < m < 2 ^ 53)%Z -> (-1074 <= e <= 971)%Z ->
  q == inject_Z m * pow2 e ->
  exists r, round_pos q = Some r /\ r == q.
Proof.
  intros Hm He Hq.
  assert (Hpos : 0 < q).
  { rewrite Hq. apply Qmult_lt_0_compat; [| apply pow2_pos].
    change 0 with (inject_Z 0). rewrite <- Zlt_Qlt. lia. }
  assert (Hl : (ilog2 q - 52 <= e)%Z).
  { assert (H : pow2 (ilog2 q) < pow2 (53 + e)).
    { apply Qle_lt_trans with q; [now apply ilog2_lower |].
      rewrite Hq, pow2_add, (pow2_Z 53) by lia.
      apply Qmult_lt_compat_r; [apply pow2_pos |].
      rewrite <- Zlt_Qlt. lia. }
    apply pow2_lt_inv in H. lia. }
  unfold round_pos.
  set (E := Z.max (ilog2 q - 52) (-1074)).
  assert (HE : (E <= e)%Z) by lia.
  assert (Hs : q / pow2 E == inject_Z (m * 2 ^ (e - E))).
  { rewrite Hq, inject_Z_mult, <- (pow2_Z (e - E)) by lia.
    rewrite pow2_sub. field. pose proof (pow2_pos E). lra. }
  rewrite (nearest_even_comp _ _ Hs), nearest_even_Z.
  assert (Hr : inject_Z (m * 2 ^ (e - E)) * pow2 E == q).
  { rewrite Hq, inject_Z_mult, <- (pow2_Z (e - E)) by lia.
    rewrite pow2_sub. field. pose proof (pow2_pos E). lra. }
  destruct (Qle_bool (pow2 1024) (inject_Z (m * 2 ^ (e - E)) * pow2 E)) eqn:O.
  - exfalso. apply Qle_bool_iff in O. rewrite Hr, Hq in O.
    assert (H : inject_Z m * pow2 e < pow2 1024).
    { apply Qlt_le_trans with (pow2 53 * pow2 e).
      - apply Qmult_lt_compat_r; [apply pow2_pos |].
        rewrite (pow2_Z 53), <- Zlt_Qlt by lia. lia.
      - rewrite <- pow2_add. apply pow2_le. lia. }
    lra.
  - eexists. split; [reflexivity | exact Hr].
Qed.

(** What [round_pos] returns has at most 53 significant bits, with the last
    one at [2^-1074] or the leading one in place. *)
Lemma round_pos_fixed (q : Q) (r : Q) :
  0 < q -> round_pos q = Some r -> r == q ->
  exists m e,
    (0 < m < 2 ^ 53)%Z /\ (-1074 <= e)%Z /\ q == inject_Z m * pow2 e
    /\ (e = (-1074)%Z \/ (2 ^ 52 <= m)%Z).
Proof.
  intros Hpos Hr Hq. unfold round_pos in Hr.
  set (E := Z.max (ilog2 q - 52) (-1074)) in Hr.
  set (M := nearest_even (q / pow2 E)) in Hr.
  destruct (Qle_bool (pow2 1024) (inject_Z M * pow2 E)); [discriminate Hr |].
  injection Hr as <-.
  pose proof (pow2_pos E) as HE.
  assert (HM : 0 < inject_Z M).
  { destruct (Qlt_le_dec 0 (inject_Z M)) as [H | H]; [exact H |].
    exfalso. assert (inject_Z M * pow2 E <= 0) by nra. lra. }
  assert (HM53 : inject_Z M < pow2 53).
  { assert (H : inject_Z M * pow2 E < pow2 53 * pow2 E).
    { rewrite Hq, <- pow2_add.
      apply Qlt_le_trans with (pow2 (ilog2 q + 1)); [now apply ilog2_upper |].
      apply pow2_le. lia. }
    nra. }
  exists M, E. split.
  - split.
    + rewrite Zlt_Qlt. exact HM.
    + rewrite Zlt_Qlt, <- (pow2_Z 53) by lia. exact HM53.
  - split; [lia |]. split; [now symmetry |].
    destruct (Z.eq_dec E (-1074)) as [e | n]; [now left | right].
    assert (E = (ilog2 q - 52)%Z) as EE by lia.
    assert (H : pow2 52 * pow2 E <= inject_Z M * pow2 E).
    { rewrite Hq, <- pow2_add. replace (52 + E)%Z with (ilog2 q) by lia.
      now apply ilog2_lower. }
    rewrite Zle_Qle, <- (pow2_Z 52) by lia. nra.
Qed.

End Rounding.

Lemma div_by_count (x : Qc) (n : nat) :
  0 < n -> div (Fin x) (of_nat n) = Fin (x / natQ n)%Qc.
Proof.
  intro H. unfold div, of_nat. rewrite is_zero_natQ.
  now replace (n =? 0) with false by (symmetry; apply Nat.eqb_neq; lia).
Qed.

Lemma same_eq (x y : num) : same x y = true -> x = y.
Proof.
  destruct x, y; cbn [same]; intro H; try reflexivity; try discriminate H.
  f_equal. now apply Qc_eq_bool_correct.
Qed.

Lemma same_refl (x : num) : same x x = true.
Proof. destruct x; try reflexivity. apply Qc_eq_bool_refl. Qed.

Lemma same_neq (x y : num) : same x y = false -> x <> y.
Proof. intros H ->. rewrite same_refl in H. discriminate H. Qed.

Lemma is_double_fixed (x : num) : is_double x = true -> binary64 x = x.
Proof. apply same_eq. Qed.

(** A number known through an equation is the one it computes to. *)
Lemma known_value (x : num) (o : option num) (y : num) :
  Some x = o ->
  match o with Some v => same v y | None => false end = true ->
  x = y.
Proof. intros <- H. now apply same_eq. Qed.

Lemma of_Q_Fin (r : Q) (q : Qc) : (r == q)%Q -> of_Q r = Fin q.
Proof.
  intro H. unfold of_Q. f_equal. apply Qc_is_canon. cbn [this Q2Qc].
  now rewrite Qred_correct.
Qed.

Lemma Fin_of_Q (r : Q) (q : Qc) : of_Q r = Fin q -> (r == q)%Q.
Proof.
  unfold of_Q. intro H. injection H as H. rewrite <- H. cbn [this Q2Qc].
  now rewrite Qred_correct.
Qed.

Lemma binary64_zero : binary64 zero = zero.
Proof. reflexivity. Qed.

Lemma binary64_positive (q : Qc) :
  (0 < q)%Q ->
  binary64 (Fin q) = match round_pos q with Some r => of_Q r | None => PInf end.
Proof.
  intro H. unfold binary64. rewrite (proj1 (Qlt_alt 0 q) H). reflexivity.
Qed.

(** A positive number with at most 53 significant bits and an exponent in
    range is a binary64 number. *)
Lemma binary64_exact (q : Qc) (m e : Z) :
  (0 < m < 2 ^ 53)%Z -> (-1074 <= e <= 971)%Z ->
  (q == inject_Z m * pow2 e)%Q ->
  binary64 (Fin q) = Fin q.
Proof.
  intros Hm He Hq.
  destruct (round_pos_exact q m e Hm He Hq) as (r & Hr & E).
  rewrite binary64_positive, Hr; [now apply of_Q_Fin |].
  rewrite Hq. apply Qmult_lt_0_compat; [| apply pow2_pos].
  change 0%Q with (inject_Z 0). rewrite <- Zlt_Qlt. lia.
Qed.



(** A positive binary64 number has at most 53 significant bits, the last one
    at [2^-1074] or the leading one in place. *)
Lemma double_decompose (q : Qc) :
  (0 < q)%Q -> binary64 (Fin q) = Fin q ->
  exists m e,
    (0 < m < 2 ^ 53)%Z /\ (-1074 <= e)%Z /\ (q == inject_Z m * pow2 e)%Q
    /\ (e = (-1074)%Z \/ (2 ^ 52 <= m)%Z).
Proof.
  intros Hpos H. rewrite binary64_positive in H by exact Hpos.
  destruct (round_pos q) as [r |] eqn:Hr; [| discriminate H].
  apply Fin_of_Q in H. exact (round_pos_fixed q r Hpos Hr H).
Qed.

Lemma Fin_pos (q : Qc) : nonneg (Fin q) = true -> q <> qzero -> (0 < q)%Q.
Proof.
  intros H N. apply nonneg_Fin in H. apply Qcle_lt_or_eq in H.
  destruct H as [H | H]; [exact H | congruence].
Qed.

Lemma below_pow2 (q : Qc) (e : Z) :
  lt (Fin q) (of_Q (pow2 e)) = true -> (q < pow2 e)%Q.
Proof.
  unfold of_Q. cbn [lt]. intro H.
  assert (L : (q < Q2Qc (pow2 e))%Qc)
    by (rewrite Qclt_alt; destruct (q ?= Q2Qc (pow2 e))%Qc; congruence).
  unfold Qclt in L. cbn [this Q2Qc] in L. now rewrite Qred_correct in L.
Qed.

(** Adding a binary64 number to itself is exact, short of overflow. *)
Lemma add64_same (q : Qc) :
  doubles_exactly (Fin q) = true -> add64 (Fin q) (Fin q) = Fin (q + q)%Qc.
Proof.
  unfold doubles_exactly. rewrite !andb_true_iff. intros [[Hd Hn] Hb].
  apply is_double_fixed in Hd. apply below_pow2 in Hb.
  unfold add64. cbn [add].
  destruct (Qc_eq_dec q qzero) as [-> | N]; [reflexivity |].
  pose proof (Fin_pos q Hn N) as Hpos.
  destruct (double_decompose q Hpos Hd) as (m & e & Hm & He & Hq & Hc).
  assert (He' : (e <= 970)%Z).
  { destruct Hc as [-> | Hc]; [lia |].
    assert (H : (pow2 (52 + e) < pow2 1023)%Q).
    { apply Qle_lt_trans with q; [| exact Hb].
      rewrite Hq, pow2_add, (pow2_Z 52) by lia.
      apply Qmult_le_compat_r; [| apply Qlt_le_weak, pow2_pos].
      rewrite <- Zle_Qle. exact Hc. }
    apply pow2_lt_inv in H. lia. }
  apply (binary64_exact _ m (e + 1)); [exact Hm | lia |].
  unfold Qcplus. cbn [this Q2Qc]. rewrite Qred_correct, Hq, pow2_add.
  change (pow2 1) with (2 # 1)%Q. ring.
Qed.

Lemma add64_zero_l (q : Qc) :
  binary64 (Fin q) = Fin q -> add64 zero (Fin q) = Fin q.
Proof.
  intro H. unfold add64, zero, of_nat. cbn [add].
  replace (natQ 0 + q)%Qc with q; [exact H |].
  change (natQ 0) with (Q2Qc 0). ring.
Qed.

Lemma div64_one (q : Qc) :
  binary64 (Fin q) = Fin q -> div64 (Fin q) (of_nat 1) = Fin q.
Proof.
  intro H. unfold div64. rewrite div_by_count by lia.
  replace (q / natQ 1)%Qc with q; [exact H |].
  change (natQ 1) with 1%Qc. field. discriminate.
Qed.

Lemma div64_two (q : Qc) :
  binary64 (Fin q) = Fin q -> div64 (Fin (q + q)%Qc) (of_nat 2) = Fin q.
Proof.
  intro H. unfold div64. rewrite div_by_count by lia.
  replace ((q + q) / natQ 2)%Qc with q; [exact H |].
  change (natQ 2) with (1 + 1)%Qc. field. discriminate.
Qed.

(** The quotients of positive integers listed in [rounding_samples], among
    them ties, subnormal numbers and overflows, are rounded as the division
    of the Standard Library's specification of IEEE 754 rounds them at 53
    bits. *)
Lemma binary64_agrees_with_specification :
  forallb agrees_on rounding_samples = true.
Proof. vm_compute. reflexivity. Qed.

(** The doubles nearest to 0.1 and 0.2 add up to the double nearest to
    0.30000000000000004, three times the double nearest to 0.2 divided by 3
    is the double nearest to 0.20000000000000004, and 0.285 times 100 is
    below 28.5. *)
Lemma binary64_examples :
  add64 (literal 0.1%Q) (literal 0.2%Q) = literal 0.30000000000000004%Q
  /\ literal 0.30000000000000004%Q <> literal 0.3%Q
  /\ div64 (add64 (add64 (literal 0.2%Q) (literal 0.2%Q)) (literal 0.2%Q))
           (of_nat 3)
     = literal 0.20000000000000004%Q
  /\ round (mul64 (literal 0.285%Q) hundred) = of_nat 28
  /\ binary64 (of_Q (pow2 1024)) = PInf
  /\ binary64 (of_Q (pow2 (-1075))) = zero.
Proof.
  repeat split; try (apply same_eq; vm_compute; reflexivity).
  apply same_neq. vm_compute. reflexivity.
Qed.

(* ------------------------------------------------------------------ *)
(** ** Means *)

Lemma one_neq_zero : one <> zero.
Proof.
  unfold one, zero, of_nat. intro H. injection H as H. discriminate H.
Qed.

Lemma or_default_contribution (x : option num) (d : num) :
  or_default (parsed x) d = contribution x d.
Proof.
  destruct x as [v |]; [| reflexivity].
  unfold contribution, falsy_or_missing, parsed, to_num, or_default, or_else.
  now destruct (truthy (binary64 v)).
Qed.

(** The mean of a member is the mean of what the rows contribute to it. *)
Lemma mean_of_contributions (analyses : list Row.t) (f : Row.t -> option num)
      (d : num) :
  mean_of analyses f d = mean64 (map (fun a => contribution (f a) d) analyses).
Proof.
  unfold mean_of, mean64. rewrite length_map. f_equal. generalize zero.
  induction analyses as [| a l IH]; intro s; [reflexivity |].
  cbn [fold_left map]. rewrite or_default_contribution. apply IH.
Qed.








(* ------------------------------------------------------------------ *)
(** ** Aggregating one row, or the same row twice *)

Lemma doubles_exactly_Fin (v : num) :
  doubles_exactly v = true ->
  exists q, v = Fin q /\ binary64 (Fin q) = Fin q.
Proof.
  unfold doubles_exactly. rewrite !andb_true_iff. intros [[Hd Hn] Hb].
  destruct v as [| | | q]; try discriminate Hn; try discriminate Hb.
  exists q. split; [reflexivity | now apply is_double_fixed].
Qed.

Lemma contribution_exact (v d : num) :
  doubles_exactly v = true ->
  truthy v = true \/ d = zero ->
  contribution (Some v) d = v.
Proof.
  intros Hv Hd. destruct (doubles_exactly_Fin v Hv) as (q & -> & Hq).
  unfold contribution, falsy_or_missing, parsed, to_num. rewrite Hq.
  destruct (truthy (Fin q)) eqn:T; [reflexivity |].
  destruct Hd as [Hd | ->]; [discriminate Hd |].
  cbn [negb]. cbn [truthy] in T. apply negb_false_iff, is_zero_spec in T.
  now subst q.
Qed.

(** The mean of one or two copies of a number is the number. *)
Lemma copies_mean_exact (v : num) (n : nat) :
  1 <= n <= 2 -> doubles_exactly v = true -> copies_mean n v = v.
Proof.
  intros Hn Hv. destruct (doubles_exactly_Fin v Hv) as (q & -> & Hq).
  unfold copies_mean, mean64. rewrite repeat_length.
  assert (n = 1 \/ n = 2) as [-> | ->] by lia; cbn [repeat fold_left].
  - rewrite add64_zero_l by exact Hq. now apply div64_one.
  - rewrite add64_zero_l by exact Hq. rewrite add64_same by exact Hv.
    now apply div64_two.
Qed.

Lemma mean_of_copies (b : Row.t) (n : nat) (f : Row.t -> option num)
      (v d : num) :
  f b = Some v -> doubles_exactly v = true ->
  truthy v = true \/ d = zero ->
  mean_of (repeat b n) f d = copies_mean n v.
Proof.
  intros Hf Hv Hd. rewrite mean_of_contributions, map_repeat, Hf.
  now rewrite contribution_exact by assumption.
Qed.

Lemma fraction_of_copies (b : Row.t) (n : nat)
      (member : Row.dist -> option num) (v : num) :
  chain (chain (Row.sentence b) Row.length_distribution) member = Some v ->
  doubles_exactly v = true ->
  div64 (dist_total (repeat b n) member) (of_nat (length (repeat b n)))
  = copies_mean n v.
Proof.
  intros Hm Hv.
  destruct (chain (Row.sentence b) Row.length_distribution) as [d |] eqn:Hd;
    [| discriminate Hm].
  cbn [chain] in Hm.
  assert (E : forall k acc,
             fold_left
               (fun total a =>
                  match chain (Row.sentence a) Row.length_distribution with
                  | Some d => add64 total (or_default (parsed (member d)) zero)
                  | None => total
                  end) (repeat b k) acc
             = fold_left add64 (repeat v k) acc).
  { induction k as [| k IH]; intro acc; [reflexivity |].
    cbn [repeat fold_left]. rewrite Hd, Hm, or_default_contribution.
    rewrite contribution_exact by (try assumption; now right). apply IH. }
  unfold dist_total, copies_mean, mean64. now rewrite E, !repeat_length.
Qed.

Lemma exact_member (b : Row.t) (x : option num) :
  exact_scalars b = true -> In x (scalar_members b) ->
  exists v, x = Some v /\ doubles_exactly v = true.
Proof.
  unfold exact_scalars. rewrite andb_true_iff. intros [H _] Hin.
  rewrite forallb_forall in H. specialize (H x Hin).
  destruct x as [v |]; [| discriminate H]. now exists v.
Qed.

(** Counterexamples to C4 as stated.  [typical_row] supplies every scalar
    member as a binary64 number; aggregating three copies of it, the running
    sum of the long fraction 0.2 is rounded and the composite holds
    0.20000000000000004, and the lexical diversity 0.7 comes back as
    0.6999999999999998.  [still_row] has an action-to-reflection ratio of 0;
    aggregated alone, the composite ratio is 1. *)
Lemma replicated_rows_counterexample :
  exact_scalars typical_row = true
  /\ long_of typical_row = Some (literal 0.2%Q)
  /\ lexical_diversity_of typical_row = Some (literal 0.7%Q)
  /\ (exists p,
         combineMetrics (repeat typical_row 3) = Some p
         /\ SP.long (SP.sentence_part p) = literal 0.20000000000000004%Q
         /\ SP.long (SP.sentence_part p) <> literal 0.2%Q
         /\ SP.diversity (SP.vocabulary_part p) = literal 0.6999999999999998%Q
         /\ SP.diversity (SP.vocabulary_part p) <> literal 0.7%Q)
  /\ action_ratio_of still_row = Some zero
  /\ (exists p,
         combineMetrics (repeat still_row 1) = Some p
         /\ SP.action_ratio (SP.narrative_part p) = one
         /\ one <> zero).
Proof.
  split; [vm_compute; reflexivity |].
  split; [reflexivity |]. split; [reflexivity |].
  split.
  { eexists. split; [reflexivity |].
    cbn [SP.long SP.sentence_part SP.diversity SP.vocabulary_part].
    split; [apply same_eq; vm_compute; reflexivity |].
    split; [apply same_neq; vm_compute; reflexivity |].
    split; [apply same_eq; vm_compute; reflexivity |].
    apply same_neq; vm_compute; reflexivity. }
  split; [reflexivity |].
  eexists. split; [reflexivity |].
  split; [| exact one_neq_zero].
  cbn [SP.action_ratio SP.narrative_part].
  apply same_eq. vm_compute. reflexivity.
Qed.

(** C4, amended.  Take a row that supplies every scalar member as a binary64
    number that is not negative and stays finite when doubled, with a
    non-zero action-to-reflection ratio, and aggregate [n >= 1] copies of it.
    The average sentence length, the distribution fractions, the complexity,
    the lexical diversity and the action ratio of the composite are the means
    of [n] copies of the row's values as the program computes them: the value
    is added [n] times to 0, each sum being rounded, and the last sum is
    divided by [n].  The question frequency, the formality score and the four
    device frequencies are not members of the composite, which holds the
    flags and the bucket computed from such means.  For one copy and for two
    copies the mean of every scalar member is the row's own value, so that
    the composite gives back the row's values and the flags and bucket of the
    row's values. *)
Theorem replicated_row_scalars (b : Row.t) (n : nat) :
  1 <= n ->
  exact_scalars b = true ->
  exists p,
    combineMetrics (repeat b n) = Some p
    /\ Some (SP.avg_length (SP.sentence_part p))
       = option_map (copies_mean n) (avg_length_of b)
    /\ Some (SP.short (SP.sentence_part p))
       = option_map (copies_mean n) (short_of b)
    /\ Some (SP.medium (SP.sentence_part p))
       = option_map (copies_mean n) (medium_of b)
    /\ Some (SP.long (SP.sentence_part p))
       = option_map (copies_mean n) (long_of b)
    /\ Some (SP.complexity (SP.sentence_part p))
       = option_map (copies_mean n) (complexity_of b)
    /\ Some (SP.diversity (SP.vocabulary_part p))
       = option_map (copies_mean n) (lexical_diversity_of b)
    /\ Some (SP.action_ratio (SP.narrative_part p))
       = option_map (copies_mean n) (action_ratio_of b)
    /\ SP.questions (SP.sentence_part p)
       = gt (copies_mean n (to_num (question_frequency_of b))) (literal 0.05%Q)
    /\ SP.voc_formality (SP.vocabulary_part p)
       = formality_bucket (copies_mean n (to_num (formality_score_of b)))
    /\ SP.metaphors (SP.devices_part p)
       = gt (copies_mean n (to_num (metaphor_of b))) (literal 0.01%Q)
    /\ SP.similes (SP.devices_part p)
       = gt (copies_mean n (to_num (simile_of b))) (literal 0.01%Q)
    /\ SP.alliteration (SP.devices_part p)
       = gt (copies_mean n (to_num (alliteration_of b))) (literal 0.01%Q)
    /\ SP.repetition (SP.devices_part p)
       = gt (copies_mean n (to_num (repetition_of b))) (literal 0.01%Q)
    /\ (n <= 2 ->
        (forall x, In x (scalar_members b) -> option_map (copies_mean n) x = x)
        /\ Some (SP.avg_length (SP.sentence_part p)) = avg_length_of b
        /\ Some (SP.short (SP.sentence_part p)) = short_of b
        /\ Some (SP.medium (SP.sentence_part p)) = medium_of b
        /\ Some (SP.long (SP.sentence_part p)) = long_of b
        /\ Some (SP.complexity (SP.sentence_part p)) = complexity_of b
        /\ Some (SP.diversity (SP.vocabulary_part p)) = lexical_diversity_of b
        /\ Some (SP.action_ratio (SP.narrative_part p)) = action_ratio_of b
        /\ SP.questions (SP.sentence_part p)
           = gt (to_num (question_frequency_of b)) (literal 0.05%Q)
        /\ SP.voc_formality (SP.vocabulary_part p)
           = formality_bucket (to_num (formality_score_of b))
        /\ SP.metaphors (SP.devices_part p)
           = gt (to_num (metaphor_of b)) (literal 0.01%Q)
        /\ SP.similes (SP.devices_part p)
           = gt (to_num (simile_of b)) (literal 0.01%Q)
        /\ SP.alliteration (SP.devices_part p)
           = gt (to_num (alliteration_of b)) (literal 0.01%Q)
        /\ SP.repetition (SP.devices_part p)
           = gt (to_num (repetition_of b)) (literal 0.01%Q)).
Proof.
  intros Hn Hb.
  assert (Hlen : (length (repeat b n) =? 0) = false).
  { rewrite repeat_length. apply Nat.eqb_neq. lia. }
  assert (M : forall f, In (f b) (scalar_members b) ->
                        exists v, f b = Some v /\ doubles_exactly v = true
                                  /\ mean_of (repeat b n) f zero
                                     = copies_mean n v).
  { intros f Hin. destruct (exact_member b _ Hb Hin) as (v & Hf & Hv).
    exists v. split; [exact Hf |]. split; [exact Hv |].
    apply mean_of_copies; try assumption. now right. }
  assert (D : forall member,
             In (chain (chain (Row.sentence b) Row.length_distribution) member)
                (scalar_members b) ->
             exists v,
               chain (chain (Row.sentence b) Row.length_distribution) member
               = Some v
               /\ doubles_exactly v = true
               /\ div64 (dist_total (repeat b n) member)
                        (of_nat (length (repeat b n))) = copies_mean n v).
  { intros member Hin. destruct (exact_member b _ Hb Hin) as (v & Hf & Hv).
    exists v. split; [exact Hf |]. split; [exact Hv |].
    now apply fraction_of_copies. }
  assert (R : exists v, action_ratio_of b = Some v /\ doubles_exactly v = true
                        /\ mean_of (repeat b n) action_ratio_of one
                           = copies_mean n v).
  { assert (Hin : In (action_ratio_of b) (scalar_members b))
      by (cbn [scalar_members In]; tauto).
    destruct (exact_member b _ Hb Hin) as (v & Hf & Hv).
    exists v. split; [exact Hf |]. split; [exact Hv |].
    apply mean_of_copies; try assumption. left.
    unfold exact_scalars in Hb. apply andb_true_iff in Hb.
    destruct Hb as [_ Hb]. now rewrite Hf in Hb. }
  destruct (M avg_length_of) as (v1 & E1 & X1 & M1);
    [cbn [scalar_members In]; tauto |].
  destruct (D Row.short) as (v2 & E2 & X2 & M2);
    [fold (short_of b); cbn [scalar_members In]; tauto |].
  destruct (D Row.medium) as (v3 & E3 & X3 & M3);
    [fold (medium_of b); cbn [scalar_members In]; tauto |].
  destruct (D Row.long) as (v4 & E4 & X4 & M4);
    [fold (long_of b); cbn [scalar_members In]; tauto |].
  destruct (M complexity_of) as (v5 & E5 & X5 & M5);
    [cbn [scalar_members In]; tauto |].
  destruct (M question_frequency_of) as (v6 & E6 & X6 & M6);
    [cbn [scalar_members In]; tauto |].
  destruct (M lexical_diversity_of) as (v7 & E7 & X7 & M7);
    [cbn [scalar_members In]; tauto |].
  destruct (M formality_score_of) as (v8 & E8 & X8 & M8);
    [cbn [scalar_members In]; tauto |].
  destruct R as (v9 & E9 & X9 & M9).
  destruct (M metaphor_of) as (v10 & E10 & X10 & M10);
    [cbn [scalar_members In]; tauto |].
  destruct (M simile_of) as (v11 & E11 & X11 & M11);
    [cbn [scalar_members In]; tauto |].
  destruct (M alliteration_of) as (v12 & E12 & X12 & M12);
    [cbn [scalar_members In]; tauto |].
  destruct (M repetition_of) as (v13 & E13 & X13 & M13);
    [cbn [scalar_members In]; tauto |].
  unfold combineMetrics. rewrite Hlen.
  eexists. split; [reflexivity |].
  cbn [SP.sentence_part SP.vocabulary_part SP.narrative_part SP.devices_part
       SP.avg_length SP.short SP.medium SP.long SP.complexity SP.diversity
       SP.action_ratio SP.questions SP.voc_formality SP.metaphors SP.similes
       SP.alliteration SP.repetition].
  rewrite M1, M2, M3, M4, M5, M6, M7, M8, M9, M10, M11, M12, M13.
  unfold short_of, medium_of, long_of.
  rewrite E1, E2, E3, E4, E5, E6, E7, E8, E9, E10, E11, E12, E13.
  cbn [to_num option_map]. unfold formality_bucket.
  do 13 (split; [reflexivity |]).
  intro H2.
  assert (C : forall v, doubles_exactly v = true -> copies_mean n v = v)
    by (intros v Hv; apply copies_mean_exact; [lia | exact Hv]).
  split.
  { intros x Hin. destruct (exact_member b _ Hb Hin) as (v & -> & Hv).
    cbn [option_map]. now rewrite C. }
  rewrite !C by assumption. repeat split.
Qed.

(** [typical_row] aggregated with itself, and three copies of it. *)
Lemma replicated_row_scalars_witness :
  (exists p,
      combineMetrics (repeat typical_row 2) = Some p
      /\ Some (SP.avg_length (SP.sentence_part p)) = avg_length_of typical_row
      /\ Some (SP.short (SP.sentence_part p)) = short_of typical_row
      /\ Some (SP.medium (SP.sentence_part p)) = medium_of typical_row
      /\ Some (SP.long (SP.sentence_part p)) = long_of typical_row
      /\ Some (SP.complexity (SP.sentence_part p)) = complexity_of typical_row
      /\ Some (SP.diversity (SP.vocabulary_part p))
         = lexical_diversity_of typical_row
      /\ Some (SP.action_ratio (SP.narrative_part p))
         = action_ratio_of typical_row
      /\ SP.questions (SP.sentence_part p) = true
      /\ SP.voc_formality (SP.vocabulary_part p) = js "formal"
      /\ SP.metaphors (SP.devices_part p) = true
      /\ SP.similes (SP.devices_part p) = true
      /\ SP.alliteration (SP.devices_part p) = false
      /\ SP.repetition (SP.devices_part p) = true)
  /\ (exists p,
         combineMetrics (repeat typical_row 3) = Some p
         /\ SP.avg_length (SP.sentence_part p) = of_nat 12
         /\ SP.short (SP.sentence_part p) = literal 0.5%Q
         /\ SP.long (SP.sentence_part p) = literal 0.20000000000000004%Q
         /\ SP.diversity (SP.vocabulary_part p) = literal 0.6999999999999998%Q
         /\ SP.action_ratio (SP.narrative_part p) = literal 1.5%Q
         /\ SP.questions (SP.sentence_part p) = true).
Proof.
  assert (Hb : exact_scalars typical_row = true) by (vm_compute; reflexivity).
  split.
  - destruct (replicated_row_scalars typical_row 2 ltac:(lia) Hb)
      as (p & E & _ & _ & _ & _ & _ & _ & _ & _ & _ & _ & _ & _ & _ & H).
    destruct (H (le_n 2))
      as (_ & H1 & H2 & H3 & H4 & H5 & H6 & H7 & H8 & H9 & H10 & H11 & H12 & H13).
    exists p. split; [exact E |].
    rewrite H8, H9, H10, H11, H12, H13.
    repeat (split; [assumption |]).
    repeat split; vm_compute; reflexivity.
  - destruct (replicated_row_scalars typical_row 3 ltac:(lia) Hb)
      as (p & E & H1 & H2 & _ & H4 & _ & H6 & H7 & H8 & _).
    exists p. split; [exact E |]. rewrite H8.
    split; [apply (known_value _ _ _ H1); vm_compute; reflexivity |].
    split; [apply (known_value _ _ _ H2); vm_compute; reflexivity |].
    split; [apply (known_value _ _ _ H4); vm_compute; reflexivity |].
    split; [apply (known_value _ _ _ H6); vm_compute; reflexivity |].
    split; [apply (known_value _ _ _ H7); vm_compute; reflexivity |].
    vm_compute. reflexivity.
Defined.

(* ------------------------------------------------------------------ *)
(** ** Missing members *)



(* ------------------------------------------------------------------ *)
(** ** Excerpts *)

Lemma is_period_spec (c : ascii) : is_period c = true <-> c = "."%char.
Proof.
  unfold is_period, code. rewrite Nat.eqb_eq. split.
  - intro H. rewrite <- (ascii_nat_embedding c), H. reflexivity.
  - intros ->. reflexivity.
Qed.

(** [lastIndexOf] returns the accumulator when nothing matches, and the
    position of the last match otherwise. *)
Lemma lastIndexOf_aux_spec (p : ascii -> bool) (s : jsstring) :
  forall i found,
    (lastIndexOf_aux p s i found = found
     /\ forall j c, nth_error s j = Some c -> p c = false)
    \/ (exists j c,
           lastIndexOf_aux p s i found = (i + Z.of_nat j)%Z
           /\ nth_error s j = Some c /\ p c = true
           /\ forall k c', j < k -> nth_error s k = Some c' -> p c' = false).
Proof.
  induction s as [| a s IH]; intros i found.
  - left. split; [reflexivity |]. intros [| j] c H; discriminate H.
  - cbn [lastIndexOf_aux].
    destruct (IH (i + 1)%Z (if p a then i else found))
      as [[E Hnone] | (j & c & E & Hj & Hc & Hlast)].
    + destruct (p a) eqn:Ea.
      * right. exists 0, a. rewrite E, Z.add_0_r.
        repeat split; [exact Ea |].
        intros [| k] c' Hk H; [lia |]. now apply (Hnone k).
      * left. split; [exact E |].
        intros [| j] c H; [injection H as <-; exact Ea | now apply (Hnone j)].
    + right. exists (S j), c. rewrite E.
      repeat split; [lia | exact Hj | exact Hc |].
      intros [| k] c' Hk H; [lia |]. apply (Hlast k c'); [lia | exact H].
Qed.

Lemma lastIndexOf_spec (p : ascii -> bool) (s : jsstring) :
  (lastIndexOf p s = (-1)%Z
   /\ forall j c, nth_error s j = Some c -> p c = false)
  \/ (exists j c,
         lastIndexOf p s = Z.of_nat j
         /\ nth_error s j = Some c /\ p c = true
         /\ forall k c', j < k -> nth_error s k = Some c' -> p c' = false).
Proof.
  destruct (lastIndexOf_aux_spec p s 0%Z (-1)%Z)
    as [H | (j & c & E & H)]; [now left |].
  right. exists j, c. split; [exact E | exact H].
Qed.

(** C5.  The excerpt of a text is built from its first 200 characters: when a
    period occurs in that slice at an index greater than 100, the slice is cut
    after the last such period; otherwise the slice (the whole text when it is
    no longer than 200 characters) is returned with "..." appended.  For 300
    letters A the result is 200 letters A followed by "...". *)
Theorem createExcerpt_spec (text : jsstring) :
  let excerpt := firstn 200 text in
  ((exists i, 100 < i /\ nth_error excerpt i = Some "."%char) ->
   exists p,
     100 < p /\ nth_error excerpt p = Some "."%char
     /\ (forall j, p < j -> nth_error excerpt j <> Some "."%char)
     /\ createExcerpt text = firstn (p + 1) excerpt)
  /\ ((forall i, 100 < i -> nth_error excerpt i <> Some "."%char) ->
      createExcerpt text = excerpt ++ js "...")
  /\ (length text <= 200 -> excerpt = text)
  /\ createExcerpt (js "Short sentence.") = js "Short sentence...."
  /\ createExcerpt (repeat "A"%char 300) = repeat "A"%char 200 ++ js "...".
Proof.
  intro excerpt.
  assert (Hcut : createExcerpt text =
                 if (100 <? lastIndexOf is_period excerpt)%Z
                 then firstn (Z.to_nat (lastIndexOf is_period excerpt + 1)) excerpt
                 else excerpt ++ js "...") by reflexivity.
  destruct (lastIndexOf_spec is_period excerpt)
    as [[E Hnone] | (j & c & E & Hj & Hc & Hlast)]; rewrite E in Hcut.
  - split; [| split; [| split; [| split]]].
    + intros (i & _ & Hi). apply Hnone in Hi. discriminate Hi.
    + intros _. exact Hcut.
    + apply firstn_all2.
    + reflexivity.
    + reflexivity.
  - apply is_period_spec in Hc. subst c.
    assert (Hafter : forall k, j < k -> nth_error excerpt k <> Some "."%char).
    { intros k Hk H. apply (Hlast k _ Hk) in H. discriminate H. }
    destruct (Z.ltb_spec 100 (Z.of_nat j)) as [Hlt | Hge].
    + replace (Z.to_nat (Z.of_nat j + 1)) with (j + 1) in Hcut by lia.
      split; [| split; [| split; [| split]]].
      * intros _. exists j. repeat split; [lia | exact Hj | exact Hafter | exact Hcut].
      * intro H. exfalso. apply (H j); [lia | exact Hj].
      * apply firstn_all2.
      * reflexivity.
      * reflexivity.
    + split; [| split; [| split; [| split]]].
      * intros (i & Hi & Hdot). exfalso. apply (Hafter i); [lia | exact Hdot].
      * intros _. exact Hcut.
      * apply firstn_all2.
      * reflexivity.
      * reflexivity.
Qed.

(* ------------------------------------------------------------------ *)
(** ** Whole-word matching *)

Lemma in_all_ascii (c : ascii) : In c all_ascii.
Proof.
  unfold all_ascii. rewrite <- (ascii_nat_embedding c).
  apply in_map, in_seq. pose proof (nat_ascii_bounded c). lia.
Qed.

(** Under the [i] flag a word character only matches word characters. *)
Lemma char_eq_ci_word (a c : ascii) :
  is_word_char a = true -> char_eq_ci a c = true -> is_word_char c = true.
Proof.
  assert (H : forallb (fun a =>
                forallb (fun c =>
                  implb (is_word_char a && char_eq_ci a c) (is_word_char c))
                        all_ascii) all_ascii = true) by (vm_compute; reflexivity).
  rewrite forallb_forall in H. specialize (H a (in_all_ascii a)).
  rewrite forallb_forall in H. specialize (H c (in_all_ascii c)).
  intros Ha Hc. now rewrite Ha, Hc in H.
Qed.

Lemma equal_ci_length (w t : jsstring) :
  equal_ci w t = true -> length w = length t.
Proof.
  revert t. induction w as [| a w IH]; intros [| c t] H; try discriminate H.
  - reflexivity.
  - cbn [equal_ci] in H. apply andb_true_iff in H. cbn [length].
    f_equal. now apply IH.
Qed.

(** A literal made of word characters, followed by [\b], matches at the head
    of [s] exactly when it is, up to case, the word that starts there. *)
Lemma literal_then_boundary (w : jsstring) :
  forallb is_word_char w = true ->
  forall s prev,
    w <> [] \/ is_word_at prev = true ->
    match match_literal w s prev with
    | Some (last, rest) => boundary last (hd_error rest)
    | None => false
    end = equal_ci w (take_word s).
Proof.
  induction w as [| a w IH]; intros Hw s prev Hprev.
  - destruct Hprev as [H | Hprev]; [now elim H |].
    cbn [match_literal]. unfold boundary. rewrite Hprev.
    destruct s as [| c r]; [reflexivity |].
    cbn [hd_error is_word_at take_word]. now destruct (is_word_char c).
  - cbn [forallb] in Hw. apply andb_true_iff in Hw. destruct Hw as [Ha Hw].
    destruct s as [| c r]; [reflexivity |]. cbn [match_literal take_word].
    destruct (char_eq_ci a c) eqn:E.
    + rewrite (char_eq_ci_word a c Ha E). cbn [equal_ci]. rewrite E.
      cbn [andb]. apply IH; [exact Hw |]. right.
      cbn [is_word_at]. exact (char_eq_ci_word a c Ha E).
    + destruct (is_word_char c); cbn [equal_ci]; [now rewrite E | reflexivity].
Qed.

Lemma match_alternatives_spec (alts : list jsstring) (s : jsstring)
      (prev : option ascii) :
  word_alternatives alts = true ->
  match_alternatives alts s prev =
  if in_word_set alts (take_word s) then Some (length (take_word s)) else None.
Proof.
  induction alts as [| w alts IH]; intro H; [reflexivity |].
  cbn [word_alternatives forallb] in H. apply andb_true_iff in H.
  destruct H as [Hw H]. apply andb_true_iff in Hw. destruct Hw as [Hne Hw].
  assert (Hlit := literal_then_boundary w Hw s prev).
  cbn [match_alternatives in_word_set existsb].
  destruct (match_literal w s prev) as [[last rest] |].
  - rewrite <- Hlit by (left; intro E; now rewrite E in Hne).
    destruct (boundary last (hd_error rest)) eqn:Eb.
    + cbn [orb]. f_equal. apply equal_ci_length.
      rewrite <- Hlit by (left; intro E; now rewrite E in Hne). reflexivity.
    + cbn [orb]. apply IH, H.
  - rewrite <- Hlit by (left; intro E; now rewrite E in Hne).
    cbn [orb]. apply IH, H.
Qed.

Lemma in_word_set_nonempty (alts : list jsstring) (t : jsstring) :
  word_alternatives alts = true -> in_word_set alts t = true -> t <> [].
Proof.
  unfold word_alternatives, in_word_set.
  rewrite forallb_forall, existsb_exists. intros H (w & Hin & E) ->.
  specialize (H w Hin). apply andb_true_iff in H. destruct H as [Hne _].
  destruct w; discriminate.
Qed.

(** The global search counts the whole words that belong to the set. *)
Lemma count_matches_aux_spec (alts : list jsstring) :
  word_alternatives alts = true ->
  forall s prev skip,
    skip <= length (take_word s) ->
    (0 < skip -> is_word_at prev = true) ->
    count_matches_aux alts s prev skip
    = whole_word_count_from alts s (is_word_at prev).
Proof.
  intro Halts. induction s as [| c r IH]; intros prev skip Hskip Hprev.
  - now destruct skip.
  - cbn [count_matches_aux whole_word_count_from].
    destruct skip as [| k].
    + rewrite (match_alternatives_spec alts (c :: r) prev Halts).
      destruct (boundary prev (Some c)) eqn:Eb.
      * destruct (in_word_set alts (take_word (c :: r))) eqn:Ein.
        -- pose proof (in_word_set_nonempty alts _ Halts Ein) as Hne.
           cbn [take_word] in Hne |- *.
           destruct (is_word_char c) eqn:Ec; [| now elim Hne].
           unfold boundary in Eb. cbn [is_word_at] in Eb. rewrite Ec in Eb.
           destruct (is_word_at prev); [discriminate Eb |].
           cbn [length negb andb Nat.add]. f_equal.
           rewrite IH; [now cbn [is_word_at]; rewrite Ec | lia |].
           intros _. cbn [is_word_at]. exact Ec.
        -- rewrite andb_false_r. cbn [Nat.add].
           apply IH; [lia | intro H; lia].
      * unfold boundary in Eb. cbn [is_word_at] in Eb.
        replace (negb (is_word_at prev) && is_word_char c) with false
          by (now destruct (is_word_at prev), (is_word_char c)).
        cbn [andb Nat.add]. apply IH; [lia | intro H; lia].
    + rewrite (Hprev ltac:(lia)). cbn [negb andb Nat.add].
      cbn [take_word] in Hskip.
      destruct (is_word_char c) eqn:Ec; [| cbn in Hskip; lia].
      cbn [length] in Hskip.
      rewrite IH; [now cbn [is_word_at]; rewrite Ec | lia |].
      intros _. cbn [is_word_at]. exact Ec.
Qed.

(** [(text.match(/\b(w1|...)\b/gi) || []).length] is the case-insensitive
    whole-word count. *)
Lemma count_matches_whole_words (alts : list jsstring) (text : jsstring) :
  word_alternatives alts = true ->
  count_matches alts text = whole_word_count alts text.
Proof.
  intro H. unfold count_matches, whole_word_count.
  rewrite (count_matches_aux_spec alts H text None 0); [reflexivity | lia |].
  intro H0. lia.
Qed.

(* ------------------------------------------------------------------ *)
(** ** Narrative characteristics *)

Lemma lt_Fin (a b : Qc) : lt (Fin a) (Fin b) = true <-> (a < b)%Qc.
Proof.
  cbn [lt]. rewrite Qclt_alt. destruct (a ?= b)%Qc; split; congruence.
Qed.

(** [present > past * 1.5] on counts. *)
Lemma present_threshold (past present : nat) :
  gt (of_nat present) (mul (of_nat past) (of_Q 1.5%Q)) = (3 * past <? 2 * present).
Proof.
  unfold gt, of_nat, of_Q. cbn [mul].
  apply eq_true_iff_eq. rewrite lt_Fin, Nat.ltb_lt.
  unfold Qclt, natQ, Qcmult. cbn [this Q2Qc]. rewrite !Qred_correct.
  unfold Qlt, Qmult. cbn [Qnum Qden inject_Z]. lia.
Qed.

Lemma narrative_word_lists :
  word_alternatives firstPersonWords = true
  /\ word_alternatives thirdPersonWords = true
  /\ word_alternatives presentTenseWords = true
  /\ word_alternatives pastTenseWords = true.
Proof. repeat split; reflexivity. Qed.

(** C6.  The four indicator counts are the case-insensitive whole-word counts
    of the four word lists; the point of view is "first_person" exactly when
    the first-person count exceeds twice the third-person count,
    "third_person" exactly when that fails and the third-person count exceeds
    the first-person count, and "unknown" otherwise; the tense is "present"
    exactly when the present count exceeds 1.5 times the past count, "past"
    exactly when that fails and the past count exceeds the present count, and
    "unknown" otherwise. *)
Theorem narrative_decisions (text : jsstring) :
  let first := whole_word_count firstPersonWords text in
  let third := whole_word_count thirdPersonWords text in
  let present := whole_word_count presentTenseWords text in
  let past := whole_word_count pastTenseWords text in
  let r := analyzeNarrativeCharacteristics text in
  (firstPersonIndicators text = first
   /\ thirdPersonIndicators text = third
   /\ presentTenseIndicators text = present
   /\ pastTenseIndicators text = past)
  /\ (NC.pov r = js "first_person" <-> 2 * third < first)
  /\ (NC.pov r = js "third_person" <-> ~ 2 * third < first /\ first < third)
  /\ (NC.pov r = js "unknown" <-> ~ 2 * third < first /\ ~ first < third)
  /\ (NC.tense r = js "present" <-> 3 * past < 2 * present)
  /\ (NC.tense r = js "past" <-> ~ 3 * past < 2 * present /\ present < past)
  /\ (NC.tense r = js "unknown" <->
      ~ 3 * past < 2 * present /\ ~ present < past).
Proof.
  intros first third present past r.
  destruct narrative_word_lists as (W1 & W2 & W3 & W4).
  assert (E1 : firstPersonIndicators text = first)
    by apply (count_matches_whole_words _ _ W1).
  assert (E2 : thirdPersonIndicators text = third)
    by apply (count_matches_whole_words _ _ W2).
  assert (E3 : presentTenseIndicators text = present)
    by apply (count_matches_whole_words _ _ W3).
  assert (E4 : pastTenseIndicators text = past)
    by apply (count_matches_whole_words _ _ W4).
  split; [now repeat split |].
  subst r. unfold analyzeNarrativeCharacteristics. cbn [NC.pov NC.tense].
  rewrite present_threshold, E1, E2, E3, E4.
  destruct (Nat.ltb_spec (third * 2) first), (Nat.ltb_spec first third),
    (Nat.ltb_spec (3 * past) (2 * present)), (Nat.ltb_spec present past);
    repeat split; intros;
    repeat match goal with H : _ /\ _ |- _ => destruct H end;
    try match goal with H : js _ = js _ |- _ => discriminate H end;
    solve [reflexivity | lia].
Qed.

(* ------------------------------------------------------------------ *)
(** ** Tone *)

(** [formal / total > 0.01] on counts. *)
Lemma formal_threshold (formal total : nat) :
  gt (div (of_nat formal) (of_nat total)) (of_Q 0.01%Q) = true
  <-> (total = 0 /\ 0 < formal) \/ (0 < total /\ total < 100 * formal).
Proof.
  rewrite div_of_nat. unfold gt, of_Q.
  destruct total as [| t].
  - cbn [Nat.eqb]. destruct formal as [| f]; cbn [Nat.eqb lt].
    + split; [discriminate | lia].
    + split; [intros _; left; lia | reflexivity].
  - cbn [Nat.eqb]. rewrite lt_Fin.
    unfold Qclt, Qcdiv, Qcmult, Qcinv, natQ. cbn [this Q2Qc].
    rewrite !Qred_correct.
    unfold Qlt, Qmult, Qinv. cbn [Qnum Qden inject_Z Z.of_nat].
    cbn [Qnum Qden]. split; intro H; [right | destruct H as [H | H]]; lia.
Qed.

Lemma filter_length_le {A : Type} (f : A -> bool) (l : list A) :
  length (filter f l) <= length l.
Proof.
  induction l as [| x l IH]; [apply le_n |].
  cbn [filter]. destruct (f x); cbn [length]; lia.
Qed.

(** C7.  The emotional tone is a list of exactly one tag: "optimistic"
    exactly when the positive count exceeds twice the negative count,
    "pessimistic" exactly when the negative count exceeds twice the positive
    count, "neutral" otherwise; the formality level is "formal" exactly when
    the formal count divided by the number of words exceeds 0.01 (there is
    then at least one word), and "casual" otherwise.  The garden text yields
    "first_person", "present" and ["optimistic"]. *)
Theorem tone_decisions (text : jsstring) :
  let pos := positiveCount text in
  let neg := negativeCount text in
  let formal := formalCount text in
  let total := length (tone_words text) in
  let r := analyzeTone text in
  (exists tag, Tone.emotional_tone r = [tag])
  /\ (Tone.emotional_tone r = [js "optimistic"] <-> 2 * neg < pos)
  /\ (Tone.emotional_tone r = [js "pessimistic"] <-> 2 * pos < neg)
  /\ (Tone.emotional_tone r = [js "neutral"] <->
      ~ 2 * neg < pos /\ ~ 2 * pos < neg)
  /\ (Tone.formality_level r = js "formal" <->
      gt (div (of_nat formal) (of_nat total)) (of_Q 0.01%Q) = true)
  /\ (Tone.formality_level r = js "formal" <->
      0 < total /\ total < 100 * formal)
  /\ (Tone.formality_level r = js "casual" <->
      ~ (0 < total /\ total < 100 * formal))
  /\ NC.pov (analyzeNarrativeCharacteristics garden) = js "first_person"
  /\ NC.tense (analyzeNarrativeCharacteristics garden) = js "present"
  /\ Tone.emotional_tone (analyzeTone garden) = [js "optimistic"].
Proof.
  intros pos neg formal total r.
  assert (Hle : formal <= total) by apply filter_length_le.
  assert (Hf : Tone.formality_level r =
               if gt (div (of_nat formal) (of_nat total)) (of_Q 0.01%Q)
               then js "formal" else js "casual") by reflexivity.
  assert (Ht : Tone.emotional_tone r =
               if neg * 2 <? pos then [js "optimistic"]
               else if pos * 2 <? neg then [js "pessimistic"]
                    else [js "neutral"]) by reflexivity.
  rewrite Hf, Ht. clear Hf Ht.
  pose proof (formal_threshold formal total) as Hthr.
  destruct (gt (div (of_nat formal) (of_nat total)) (of_Q 0.01%Q)) eqn:Egt.
  - assert (0 < total /\ total < 100 * formal)
      by (destruct (proj1 Hthr eq_refl) as [[? ?] | ?]; [lia | assumption]).
    destruct (Nat.ltb_spec (neg * 2) pos), (Nat.ltb_spec (pos * 2) neg);
      (split; [eexists; reflexivity |]);
      repeat split; intros;
      repeat match goal with H : _ /\ _ |- _ => destruct H end;
      try match goal with H : _ = _ |- _ => discriminate H end;
      solve [reflexivity | lia | tauto].
  - assert (~ (0 < total /\ total < 100 * formal))
      by (intro H; assert (false = true) by (apply Hthr; now right);
          discriminate).
    destruct (Nat.ltb_spec (neg * 2) pos), (Nat.ltb_spec (pos * 2) neg);
      (split; [eexists; reflexivity |]);
      repeat split; intros;
      repeat match goal with H : _ /\ _ |- _ => destruct H end;
      try match goal with H : _ = _ |- _ => discriminate H end;
      solve [reflexivity | lia | tauto].
Qed.

(* ------------------------------------------------------------------ *)
(** ** Style guidance *)

(** Counterexample to C8 as stated.  For the argument [{ tone: {} }] the tone
    part is there but empty, and the guidance still carries the header of the
    Tone section, with nothing under it. *)
Lemma empty_tone_counterexample :
  Guide.tone_part only_empty_tone =
  Some {| Guide.emotional := None; Guide.tone_formality := None;
          Guide.humor := None |}
  /\ tone_section only_empty_tone = js "## Tone" ++ nl
  /\ formatStyleGuidance show_num only_empty_tone =
     js "# Style Guidance" ++ nl ++ nl ++ js "## Tone" ++ nl.
Proof. repeat split. Qed.

(** C8, amended.  The guidance is its title followed by the seven sections
    in order.  The Sentence Structure, Vocabulary, Narrative Approach, Tone
    and Stylistic Devices sections are emitted, header first, exactly when the
    corresponding part is present (even an empty one); Similar Authors exactly
    when the list of authors is present and not empty; Additional Notes exactly
    when the comments are a non-empty string.  A section that is not emitted
    contributes nothing, so with every part absent the guidance is the title
    alone. *)
Theorem sections_follow_presence (number_to_string : num -> jsstring)
        (p : Guide.t) :
  formatStyleGuidance number_to_string p =
    title ++ sentence_section number_to_string p ++ vocabulary_section p
    ++ narrative_section p ++ tone_section p ++ devices_section p
    ++ authors_section p ++ notes_section p
  /\ section_shape (is_some (Guide.sentence_part p)) "## Sentence Structure"
                   (sentence_section number_to_string p)
  /\ section_shape (is_some (Guide.vocabulary_part p)) "## Vocabulary"
                   (vocabulary_section p)
  /\ section_shape (is_some (Guide.narrative_part p)) "## Narrative Approach"
                   (narrative_section p)
  /\ section_shape (is_some (Guide.tone_part p)) "## Tone" (tone_section p)
  /\ section_shape (is_some (Guide.devices_part p)) "## Stylistic Devices"
                   (devices_section p)
  /\ section_shape (nonempty_list (Guide.comparable_authors p))
                   "## Similar Authors" (authors_section p)
  /\ section_shape (truthy_string (Guide.user_comments p))
                   "## Additional Notes" (notes_section p)
  /\ (is_some (Guide.sentence_part p) = false ->
      is_some (Guide.vocabulary_part p) = false ->
      is_some (Guide.narrative_part p) = false ->
      is_some (Guide.tone_part p) = false ->
      is_some (Guide.devices_part p) = false ->
      nonempty_list (Guide.comparable_authors p) = false ->
      truthy_string (Guide.user_comments p) = false ->
      formatStyleGuidance number_to_string p = js "# Style Guidance" ++ nl ++ nl)
  /\ formatStyleGuidance number_to_string nothing_present =
     js "# Style Guidance" ++ nl ++ nl.
Proof.
  assert (S1 : section_shape (is_some (Guide.sentence_part p))
                             "## Sentence Structure"
                             (sentence_section number_to_string p)).
  { unfold sentence_section. destruct (Guide.sentence_part p); cbn [is_some section_shape];
      [| reflexivity]. eexists. reflexivity. }
  assert (S2 : section_shape (is_some (Guide.vocabulary_part p)) "## Vocabulary"
                             (vocabulary_section p)).
  { unfold vocabulary_section. destruct (Guide.vocabulary_part p);
      cbn [is_some section_shape]; [| reflexivity].
    eexists. reflexivity. }
  assert (S3 : section_shape (is_some (Guide.narrative_part p))
                             "## Narrative Approach" (narrative_section p)).
  { unfold narrative_section. destruct (Guide.narrative_part p);
      cbn [is_some section_shape]; [| reflexivity].
    eexists. reflexivity. }
  assert (S4 : section_shape (is_some (Guide.tone_part p)) "## Tone"
                             (tone_section p)).
  { unfold tone_section. destruct (Guide.tone_part p);
      cbn [is_some section_shape]; [| reflexivity].
    eexists. reflexivity. }
  assert (S5 : section_shape (is_some (Guide.devices_part p))
                             "## Stylistic Devices" (devices_section p)).
  { unfold devices_section. destruct (Guide.devices_part p);
      cbn [is_some section_shape]; [| reflexivity].
    eexists. reflexivity. }
  assert (S6 : section_shape (nonempty_list (Guide.comparable_authors p))
                             "## Similar Authors" (authors_section p)).
  { unfold authors_section. destruct (Guide.comparable_authors p) as [[| a l] |];
      cbn [nonempty_list section_shape length Nat.ltb Nat.leb]; try reflexivity.
    eexists. reflexivity. }
  assert (S7 : section_shape (truthy_string (Guide.user_comments p))
                             "## Additional Notes" (notes_section p)).
  { unfold notes_section. destruct (truthy_string (Guide.user_comments p));
      cbn [section_shape]; [| reflexivity].
    eexists. reflexivity. }
  split; [reflexivity |].
  repeat (split; [assumption |]).
  split; [| reflexivity].
  intros H1 H2 H3 H4 H5 H6 H7.
  rewrite H1 in S1. rewrite H2 in S2. rewrite H3 in S3. rewrite H4 in S4.
  rewrite H5 in S5. rewrite H6 in S6. rewrite H7 in S7.
  cbn [section_shape] in *. unfold formatStyleGuidance.
  rewrite S1, S2, S3, S4, S5, S6, S7. reflexivity.
Qed.

(** A devices part whose four flags are off still gets its header. *)
Example devices_header_without_items :
  devices_section
    {| Guide.sentence_part := None; Guide.vocabulary_part := None;
       Guide.narrative_part := None; Guide.tone_part := None;
       Guide.devices_part :=
         Some {| Guide.metaphors := false; Guide.similes := false;
                 Guide.alliteration := false; Guide.repetition := false;
                 Guide.dev_avoid := None |};
       Guide.comparable_authors := None; Guide.user_comments := None |}
  = js "## Stylistic Devices" ++ nl ++ nl.
Proof. reflexivity. Qed.

Lemma is_literal_false (x : option jsstring) (literal : string) :
  x <> Some (js literal) -> is_literal x literal = false.
Proof.
  intro H. destruct x as [v |]; [| reflexivity]. cbn [is_literal].
  apply jsstring_eqb_false. congruence.
Qed.

(** C9.  In the guidance, after the title and the two sections that come
    first, the Narrative Approach section of parameters that have a narrative
    part names a point of view and a tense: "Third person" for every point of
    view that is neither "first_person" nor "second_person", and "Past tense"
    for every tense other than "present", so also for "unknown" and for a
    missing value; the guidance never says that a value is unknown. *)
Theorem undetermined_narrative_is_rendered
        (number_to_string : num -> jsstring) (p : Guide.t)
        (n : Guide.narrative) :
  Guide.narrative_part p = Some n ->
  exists pov_words tense_words,
    formatStyleGuidance number_to_string p =
      (js "# Style Guidance" ++ nl ++ nl)
      ++ sentence_section number_to_string p
      ++ vocabulary_section p
      ++ (js "## Narrative Approach" ++ nl
          ++ js "- Point of view: " ++ pov_words ++ nl
          ++ js "- Tense: " ++ tense_words ++ nl
          ++ js "- Description vs. action balance: "
          ++ (if Guide.description_heavy n then js "Favor rich description"
              else js "Favor action and plot movement") ++ nl ++ nl)
      ++ tone_section p ++ devices_section p ++ authors_section p
      ++ notes_section p
    /\ (Guide.pov n <> Some (js "first_person") ->
        Guide.pov n <> Some (js "second_person") ->
        pov_words = js "Third person")
    /\ (Guide.pov n = Some (js "first_person") -> pov_words = js "First person")
    /\ (Guide.pov n = Some (js "second_person") ->
        pov_words = js "Second person")
    /\ (Guide.tense n <> Some (js "present") -> tense_words = js "Past tense")
    /\ (Guide.tense n = Some (js "present") -> tense_words = js "Present tense").
Proof.
  intro H. exists (pov_text (Guide.pov n)), (tense_text (Guide.tense n)).
  split.
  - unfold formatStyleGuidance, narrative_section, title. now rewrite H.
  - split; [| split; [| split; [| split]]].
    + intros H1 H2. unfold pov_text.
      now rewrite (is_literal_false _ _ H1), (is_literal_false _ _ H2).
    + intros ->. reflexivity.
    + intros ->. reflexivity.
    + intros H1. unfold tense_text. now rewrite (is_literal_false _ _ H1).
    + intros ->. reflexivity.
Qed.

(** The guidance of parameters that hold only an undetermined point of view
    and tense. *)
Lemma undetermined_narrative_is_rendered_witness :
  Guide.narrative_part only_undetermined_narrative = Some undetermined_narrative
  /\ Guide.pov undetermined_narrative = Some (js "unknown")
  /\ Guide.tense undetermined_narrative = Some (js "unknown")
  /\ formatStyleGuidance show_num only_undetermined_narrative =
     js "# Style Guidance" ++ nl ++ nl
     ++ js "## Narrative Approach" ++ nl
     ++ js "- Point of view: Third person" ++ nl
     ++ js "- Tense: Past tense" ++ nl
     ++ js "- Description vs. action balance: Favor action and plot movement"
     ++ nl ++ nl.
Proof.
  split; [reflexivity |]. split; [reflexivity |]. split; [reflexivity |].
  destruct (undetermined_narrative_is_rendered
              show_num only_undetermined_narrative undetermined_narrative
              eq_refl)
    as (pw & tw & E & Hp & _ & _ & Ht & _).
  rewrite E, Hp, Ht by discriminate. reflexivity.
Defined.

(* ================================================================== *)
(** * Further properties *)

(** ** Bounds of the sentence metrics *)

Lemma ratio_le_one (a b : nat) : a <= b -> 0 < b -> (natQ a / natQ b <= natQ 1)%Qc.
Proof.
  intros Hab Hb. destruct b as [| t]; [lia |].
  unfold Qcle, Qcdiv, Qcmult, Qcinv, natQ. cbn [this Q2Qc].
  rewrite !Qred_correct.
  unfold Qle, Qmult, Qinv. cbn [Qnum Qden inject_Z Z.of_nat].
  cbn [Qnum Qden]. lia.
Qed.

Lemma lt_one_false (q : Qc) : (q <= natQ 1)%Qc -> lt one (Fin q) = false.
Proof.
  intro H. unfold one, of_nat. destruct (lt (Fin (natQ 1)) (Fin q)) eqn:E;
    [| reflexivity].
  apply lt_Fin in E. exfalso. exact (Qcle_not_lt _ _ H E).
Qed.

Lemma in_unit_interval_Fin (q : Qc) :
  (qzero <= q)%Qc -> (q <= natQ 1)%Qc -> in_unit_interval (Fin q) = true.
Proof.
  intros H0 H1. unfold in_unit_interval.
  rewrite (proj2 (nonneg_Fin q) H0), (lt_one_false q H1). reflexivity.
Qed.

Lemma guarded_ratio_unit (a b : nat) :
  a <= b ->
  in_unit_interval (or_else (div (of_nat a) (of_nat b)) zero) = true.
Proof.
  intro Hab. destruct (guarded_ratio a b ltac:(lia)) as (q & E & Hq & Hz & Hv).
  rewrite E. apply in_unit_interval_Fin; [exact Hq |].
  destruct b as [| t].
  - rewrite (Hz eq_refl). now vm_compute.
  - rewrite (Hv ltac:(lia)). apply ratio_le_one; lia.
Qed.

Lemma min_one_unit (q : Qc) :
  (qzero <= q)%Qc -> in_unit_interval (min one (Fin q)) = true.
Proof.
  intro H. unfold min, one, of_nat.
  destruct (lt (Fin q) (Fin (natQ 1))) eqn:E.
  - apply lt_Fin in E. apply in_unit_interval_Fin; [exact H |].
    now apply Qclt_le_weak.
  - apply in_unit_interval_Fin; [apply natQ_nonneg | apply Qcle_refl].
Qed.

(** X1.  Whatever the text, the three length fractions, the fragment
    frequency and the complexity score lie between 0 and 1, and the average
    sentence length is finite and not negative. *)
Theorem sentence_metrics_bounds (text : jsstring) :
  let m := calculateSentenceMetrics text in
  in_unit_interval (SM.short (SM.length_distribution m)) = true
  /\ in_unit_interval (SM.medium (SM.length_distribution m)) = true
  /\ in_unit_interval (SM.long (SM.length_distribution m)) = true
  /\ in_unit_interval (SM.fragment_frequency m) = true
  /\ in_unit_interval (SM.complexity_score m) = true
  /\ finite (SM.avg_length m) = true
  /\ nonneg (SM.avg_length m) = true.
Proof.
  intro m. subst m. unfold calculateSentenceMetrics.
  cbn [SM.avg_length SM.length_distribution SM.short SM.medium SM.long
       SM.complexity_score SM.fragment_frequency].
  set (ss := sentences_of text). set (ls := map word_count ss).
  assert (Hlen : length ls = length ss) by (subst ls; apply length_map).
  assert (F : forall f, length (filter f ls) <= length ss)
    by (intro f; rewrite <- Hlen; apply filter_length_le).
  destruct (guarded_ratio (fold_left (fun sum len => sum + len) ls 0) (length ss))
    as (qa & Ea & Pa & _).
  { intro H. subst ls. now rewrite (length_zero_nil _ H). }
  rewrite Ea.
  repeat split; try (apply guarded_ratio_unit; apply F).
  - apply guarded_ratio_unit, filter_length_le.
  - unfold div, of_nat.
    replace (is_zero (natQ 25)) with false by (symmetry; now rewrite is_zero_natQ).
    apply min_one_unit. unfold Qcdiv.
    replace qzero with (qzero * / natQ 25)%Qc by apply Qcmult_0_l.
    apply Qcmult_le_compat_r; [exact Pa | now vm_compute].
  - now apply nonneg_Fin.
Qed.

(** X2.  The question frequency is finite exactly when the text has a
    sentence or has no question mark; with a question mark and no sentence it
    is Infinity. *)
Theorem question_frequency_finite_iff (text : jsstring) :
  (finite (SM.question_frequency (calculateSentenceMetrics text)) = true
   <-> sentences_of text <> [] \/ count_chars is_question_mark text = 0)
  /\ (sentences_of text = [] -> count_chars is_question_mark text <> 0 ->
      SM.question_frequency (calculateSentenceMetrics text) = PInf).
Proof.
  rewrite question_frequency_value.
  destruct (sentences_of text) as [| s l]; cbn [length Nat.eqb].
  - destruct (count_chars is_question_mark text) as [| k]; cbn [Nat.eqb].
    + split; [| intros _ H; now elim H].
      split; [intros _; now right | reflexivity].
    + split; [| reflexivity].
      split; [discriminate | intros [H | H]; [now elim H | discriminate H]].
  - split; [| discriminate].
    split; [intros _; left; discriminate | reflexivity].
Qed.

(* ------------------------------------------------------------------ *)
(** ** The size and the shape of an excerpt *)

(** X3.  An excerpt is never empty and never longer than 203 characters.  It
    is either the first [min 200 (length text)] characters of the text
    followed by "...", or a prefix of the text of more than 101 and at most
    200 characters that ends with a period. *)
Theorem createExcerpt_bounds (text : jsstring) :
  createExcerpt text <> []
  /\ length (createExcerpt text) <= 203
  /\ (createExcerpt text = firstn (Nat.min 200 (length text)) text ++ js "..."
      \/ exists k,
          101 < k /\ k <= 200 /\ k <= length text
          /\ createExcerpt text = firstn k text
          /\ nth_error text (k - 1) = Some "."%char).
Proof.
  assert (Hcut : createExcerpt text =
                 if (100 <? lastIndexOf is_period (firstn 200 text))%Z
                 then firstn (Z.to_nat (lastIndexOf is_period (firstn 200 text) + 1))
                             (firstn 200 text)
                 else firstn 200 text ++ js "...") by reflexivity.
  assert (Hell : firstn 200 text ++ js "..." <> []
                 /\ length (firstn 200 text ++ js "...") <= 203
                 /\ firstn 200 text ++ js "..."
                    = firstn (Nat.min 200 (length text)) text ++ js "...").
  { split; [intro H; apply app_eq_nil in H; destruct H as [_ H]; discriminate H |].
    split.
    - rewrite length_app. pose proof (firstn_le_length 200 text).
      change (length (js "...")) with 3. lia.
    - f_equal. destruct (Nat.le_ge_cases (length text) 200) as [H | H].
      + rewrite Nat.min_r by exact H. now rewrite firstn_all, firstn_all2.
      + now rewrite Nat.min_l by exact H. }
  destruct (lastIndexOf_spec is_period (firstn 200 text))
    as [[E _] | (j & c & E & Hj & Hc & _)]; rewrite E in Hcut.
  - rewrite Hcut. destruct Hell as (H1 & H2 & H3). repeat split; auto.
  - destruct (Z.ltb_spec 100 (Z.of_nat j)) as [Hlt | Hge].
    + apply is_period_spec in Hc. subst c.
      replace (Z.to_nat (Z.of_nat j + 1)) with (j + 1) in Hcut by lia.
      rewrite nth_error_firstn in Hj.
      destruct (Nat.ltb_spec j 200) as [Hj200 | ]; [| discriminate Hj].
      assert (Hjlen : j < length text)
        by (apply nth_error_Some; rewrite Hj; discriminate).
      rewrite firstn_firstn, Nat.min_l in Hcut by lia.
      rewrite Hcut. split; [| split].
      * intro H. apply (f_equal (@length ascii)) in H.
        rewrite firstn_length_le in H by lia. cbn in H. lia.
      * rewrite firstn_length_le by lia. lia.
      * right. exists (j + 1).
        replace (j + 1 - 1) with j by lia. repeat split; try lia; assumption.
    + rewrite Hcut. destruct Hell as (H1 & H2 & H3). repeat split; auto.
Qed.

(* ------------------------------------------------------------------ *)
(** ** Letter case in the narrative analysis *)

Lemma canonicalize_word (c : ascii) :
  is_word_char (canonicalize c) = is_word_char c.
Proof.
  assert (H : forallb (fun c => Bool.eqb (is_word_char (canonicalize c))
                                         (is_word_char c)) all_ascii = true)
    by (vm_compute; reflexivity).
  rewrite forallb_forall in H. apply eqb_prop, H, in_all_ascii.
Qed.

Lemma same_case_word (c c' : ascii) :
  canonicalize c = canonicalize c' -> is_word_char c = is_word_char c'.
Proof.
  intro H. now rewrite <- (canonicalize_word c), <- (canonicalize_word c'), H.
Qed.

Lemma same_case_take_word (s s' : jsstring) :
  map canonicalize s = map canonicalize s' ->
  map canonicalize (take_word s) = map canonicalize (take_word s').
Proof.
  revert s'. induction s as [| c r IH]; intros [| c' r'] H; try discriminate H.
  - reflexivity.
  - cbn [map] in H. injection H as Hc Hr. cbn [take_word].
    rewrite (same_case_word c c' Hc).
    destruct (is_word_char c'); [| reflexivity].
    cbn [map]. now rewrite Hc, (IH r' Hr).
Qed.

Lemma same_case_equal_ci (w t t' : jsstring) :
  map canonicalize t = map canonicalize t' -> equal_ci w t = equal_ci w t'.
Proof.
  revert t t'. induction w as [| a w IH]; intros [| c t] [| c' t'] H;
    try discriminate H; try reflexivity.
  cbn [map] in H. injection H as Hc Ht. cbn [equal_ci].
  unfold char_eq_ci. now rewrite Hc, (IH t t' Ht).
Qed.

Lemma same_case_in_word_set (set : list jsstring) (t t' : jsstring) :
  map canonicalize t = map canonicalize t' ->
  in_word_set set t = in_word_set set t'.
Proof.
  intro H. unfold in_word_set. induction set as [| w set IH]; [reflexivity |].
  cbn [existsb]. now rewrite IH, (same_case_equal_ci w t t' H).
Qed.

Lemma same_case_whole_words (set : list jsstring) (s s' : jsstring) :
  map canonicalize s = map canonicalize s' ->
  forall in_word,
    whole_word_count_from set s in_word = whole_word_count_from set s' in_word.
Proof.
  revert s'. induction s as [| c r IH]; intros [| c' r'] H in_word;
    try discriminate H; [reflexivity |].
  assert (Ht := same_case_take_word _ _ H).
  cbn [map] in H. injection H as Hc Hr.
  cbn [whole_word_count_from]. rewrite (same_case_word c c' Hc), (IH r' Hr).
  now rewrite (same_case_in_word_set set _ _ Ht).
Qed.

(** X4.  Two texts that differ only in letter case get the same narrative
    characteristics. *)
Theorem narrative_ignores_case (text text' : jsstring) :
  map canonicalize text = map canonicalize text' ->
  analyzeNarrativeCharacteristics text = analyzeNarrativeCharacteristics text'.
Proof.
  intro H. destruct narrative_word_lists as (W1 & W2 & W3 & W4).
  unfold analyzeNarrativeCharacteristics, firstPersonIndicators,
    thirdPersonIndicators, presentTenseIndicators, pastTenseIndicators.
  rewrite !count_matches_whole_words by assumption.
  unfold whole_word_count.
  now rewrite !(same_case_whole_words _ text text' H).
Qed.

Lemma narrative_ignores_case_witness :
  map canonicalize (js "She WAS here. They Were').") =
  map canonicalize (js "SHE was HERE. they were').")
  /\ analyzeNarrativeCharacteristics (js "She WAS here. They Were').") =
     analyzeNarrativeCharacteristics (js "SHE was HERE. they were').").
Proof.
  split; [reflexivity |].
  apply (narrative_ignores_case (js "She WAS here. They Were').")
                                (js "SHE was HERE. they were').")).
  reflexivity.
Defined.

(* ------------------------------------------------------------------ *)
(** ** What the aggregator can return for a categorical member *)

Lemma names_set_incl (o : JSObject.t) (k k' : jsstring) (v : JSObject.value) :
  In k' (map fst (JSObject.set o k v)) -> k' = k \/ In k' (map fst o).
Proof.
  induction o as [| [k0 v0] o IH]; cbn [JSObject.set map fst In].
  - intros [H | []]. now left.
  - destruct (jsstring_eqb k k0); cbn [map fst In]; [tauto |].
    intros [H | H]; [tauto |]. destruct (IH H); tauto.
Qed.

Lemma names_bump_incl (o : JSObject.t) (k k' : jsstring) :
  In k' (map fst (JSObject.bump o k)) -> k' = k \/ In k' (map fst o).
Proof.
  unfold JSObject.bump.
  destruct (JSObject.own o k) as [[n |] |]; try (now right);
    try apply names_set_incl.
  destruct (jsstring_eqb k JSObject.proto_name); [now right |].
  destruct (includes JSObject.inherited_names k); apply names_set_incl.
Qed.

Lemma names_counted_incl (l : list jsstring) (k : jsstring) :
  In k (map fst (fold_left JSObject.bump l JSObject.empty)) -> In k l.
Proof.
  induction l as [| x l IH] using rev_ind; [intros [] |].
  rewrite fold_left_app. cbn [fold_left]. intro H.
  apply names_bump_incl in H. apply in_app_iff.
  destruct H as [-> | H]; [right; now left | left; now apply IH].
Qed.

Lemma insert_sorted_incl (k : jsstring) (v : N) (l : list (N * jsstring))
      (k' : jsstring) :
  In k' (map snd (JSObject.insert_sorted k v l)) -> k' = k \/ In k' (map snd l).
Proof.
  induction l as [| [v0 k0] l IH]; cbn [JSObject.insert_sorted map snd In].
  - intros [H | []]. now left.
  - destruct (v <=? v0)%N; cbn [map snd In]; [intros [H | H]; auto |].
    intros [H | H]; [tauto |]. destruct (IH H); tauto.
Qed.

Lemma keys_incl_names (o : JSObject.t) (k : jsstring) :
  In k (JSObject.keys o) -> In k (map fst o).
Proof.
  unfold JSObject.keys, JSObject.sorted_indices. rewrite in_app_iff.
  intros [H | H]; [| now apply filter_In in H].
  assert (G : forall names acc,
             In k (map snd
                       (fold_left (fun acc k0 =>
                                     match JSObject.array_index k0 with
                                     | Some v => JSObject.insert_sorted k0 v acc
                                     | None => acc
                                     end) names acc)) ->
             In k names \/ In k (map snd acc)).
  { induction names as [| n names IH]; intros acc Hk; [now right |].
    cbn [fold_left] in Hk. apply IH in Hk. destruct Hk as [Hk | Hk].
    - left. now right.
    - destruct (JSObject.array_index n); [| now right].
      apply insert_sorted_incl in Hk. destruct Hk as [-> | Hk];
        [left; now left | now right]. }
  destruct (G _ _ H) as [Hk | []]. exact Hk.
Qed.

Lemma select_dominant_incl (default : jsstring) (o : JSObject.t) :
  select_dominant default o = default \/ In (select_dominant default o) (JSObject.keys o).
Proof.
  unfold select_dominant. generalize (JSObject.keys o) as ks.
  induction ks as [| k ks IH] using rev_ind; [now left |].
  rewrite fold_left_app. cbn [fold_left].
  destruct (JSObject.exceeds o k _).
  - right. apply in_app_iff. right. now left.
  - destruct IH as [IH | IH]; [now left |]. right. apply in_app_iff. now left.
Qed.

Lemma dominant_value_incl (default : jsstring) (values : list (option jsstring)) :
  dominant_value default values = default
  \/ In (dominant_value default values) (supplied values).
Proof.
  unfold dominant_value.
  destruct (select_dominant_incl default (count_values values)) as [H | H];
    [now left | right].
  apply keys_incl_names in H. rewrite count_values_supplied in H |- *.
  now apply names_counted_incl.
Qed.

(** X5.  Whatever strings the rows hold, [combineMetrics] returns [null] only
    for no rows, and otherwise its point of view, tense and formality level
    are each either the default ("unknown", "unknown", "neutral") or one of
    the non-empty values the rows supply for that member. *)
Theorem categorical_fields_come_from_rows (analyses : list Row.t) :
  match combineMetrics analyses with
  | None => analyses = []
  | Some p =>
      analyses <> []
      /\ (SP.pov (SP.narrative_part p) = js "unknown"
          \/ In (SP.pov (SP.narrative_part p)) (supplied (map pov_of analyses)))
      /\ (SP.tense (SP.narrative_part p) = js "unknown"
          \/ In (SP.tense (SP.narrative_part p))
                (supplied (map tense_of analyses)))
      /\ (SP.tone_formality (SP.tone_part p) = js "neutral"
          \/ In (SP.tone_formality (SP.tone_part p))
                (supplied (map formality_level_of analyses)))
  end.
Proof.
  unfold combineMetrics. destruct analyses as [| a l]; [reflexivity |].
  cbn [length Nat.eqb SP.narrative_part SP.tone_part SP.pov SP.tense
       SP.tone_formality].
  split; [discriminate |]. repeat split; apply dominant_value_incl.
Qed.

(* ------------------------------------------------------------------ *)
(** ** The sets of tones and of authors *)

Lemma first_seen_NoDup (l : list jsstring) : NoDup (first_seen l).
Proof.
  induction l as [| x l IH] using rev_ind; [constructor |].
  rewrite first_seen_snoc. unfold set_add.
  destruct (includes (first_seen l) x) eqn:E; [exact IH |].
  apply includes_not_In in E. apply NoDup_app; repeat split.
  - exact IH.
  - repeat constructor. intros [].
  - intros y Hy [<- | []]. now elim E.
Qed.

Lemma fold_set_add_app (l acc : list jsstring) (rest : list jsstring) :
  fold_left set_add rest (fold_left set_add l acc) = fold_left set_add (l ++ rest) acc.
Proof. now rewrite fold_left_app. Qed.

Lemma collect_first_seen (analyses : list Row.t) (f : Row.t -> option (list jsstring)) :
  forall acc,
    fold_left (fun set a => match f a with
                            | Some l => fold_left set_add l set
                            | None => set
                            end) analyses (first_seen acc)
    = first_seen (acc ++ flat_map (fun a => match f a with
                                            | Some l => l
                                            | None => []
                                            end) analyses).
Proof.
  induction analyses as [| a l IH]; intro acc.
  - cbn [fold_left flat_map]. now rewrite app_nil_r.
  - cbn [fold_left flat_map]. rewrite app_assoc, <- IH.
    destruct (f a) as [t |]; [| now rewrite app_nil_r].
    unfold first_seen. now rewrite fold_left_app.
Qed.

(** X6.  The emotional tones and the comparable authors of a composite are
    the values the rows supply for them, each listed once, in the order in
    which they are first met. *)
Theorem composite_sets_are_unions (analyses : list Row.t) (p : SP.t) :
  combineMetrics analyses = Some p ->
  SP.emotional (SP.tone_part p) = first_seen (supplied_tones analyses)
  /\ SP.comparable_authors p = first_seen (supplied_authors analyses)
  /\ NoDup (SP.emotional (SP.tone_part p))
  /\ NoDup (SP.comparable_authors p)
  /\ (forall t, In t (SP.emotional (SP.tone_part p))
                <-> In t (supplied_tones analyses))
  /\ (forall a, In a (SP.comparable_authors p)
                <-> In a (supplied_authors analyses)).
Proof.
  unfold combineMetrics. destruct (length analyses =? 0); [discriminate |].
  intro H.
  apply (f_equal (fun o => match o with Some x => x | None => p end)) in H.
  cbv beta iota in H. subst p. cbn [SP.tone_part SP.emotional SP.comparable_authors].
  assert (Et : collect_tones analyses = first_seen (supplied_tones analyses))
    by apply (collect_first_seen analyses
                (fun a => chain (Row.tone a) Row.emotional_tone) []).
  assert (Ea : collect_authors analyses = first_seen (supplied_authors analyses))
    by apply (collect_first_seen analyses Row.comparable_authors []).
  rewrite Et, Ea.
  repeat split; try apply first_seen_NoDup; try apply first_seen_In;
    intro H; now apply first_seen_In.
Qed.

Lemma composite_sets_are_unions_witness :
  exists p,
    combineMetrics [typical_row; still_row; blank_row] = Some p
    /\ SP.emotional (SP.tone_part p) = [js "neutral"]
    /\ SP.comparable_authors p = [].
Proof.
  destruct (combineMetrics [typical_row; still_row; blank_row]) as [p |] eqn:E;
    [| discriminate E].
  exists p. split; [reflexivity |].
  destruct (composite_sets_are_unions _ p E) as (H1 & H2 & _).
  rewrite H1, H2. split; reflexivity.
Defined.

(* ------------------------------------------------------------------ *)
(** ** When [createStyleProfile] gets its parameters *)

(** X7.  [createStyleProfile] reaches style parameters exactly when neither
    query failed, every requested sample was found and at least one analysis
    exists; it never goes on with [null], and every error it reports starts
    with "Failed to create style profile: ". *)
Theorem createStyleProfile_parameters_iff (r : Fetched.t) :
  match createStyleProfile_parameters r with
  | Returned (Some p) =>
      combineMetrics (Fetched.analyses r) = Some p
      /\ Fetched.samplesError r = None
      /\ length (Fetched.samples r) = length (Fetched.sampleIds r)
      /\ Fetched.analysesError r = None
      /\ Fetched.analyses r <> []
  | Returned None => False
  | Thrown message =>
      (exists reason, message = js "Failed to create style profile: " ++ reason)
      /\ ~ (Fetched.samplesError r = None
            /\ length (Fetched.samples r) = length (Fetched.sampleIds r)
            /\ Fetched.analysesError r = None
            /\ Fetched.analyses r <> [])
  end.
Proof.
  unfold createStyleProfile_parameters.
  destruct (Fetched.samplesError r) as [e1 |]; cbn [is_some throw_if bind rewrap].
  { split; [eexists; reflexivity | intros [H _]; discriminate H]. }
  destruct (Nat.eqb_spec (length (Fetched.samples r)) (length (Fetched.sampleIds r)))
    as [E | N]; cbn [negb throw_if bind rewrap].
  2: { split; [eexists; reflexivity | intros (_ & H & _); now elim N]. }
  destruct (Fetched.analysesError r) as [e2 |]; cbn [is_some throw_if bind rewrap].
  { split; [eexists; reflexivity | intros (_ & _ & H & _); discriminate H]. }
  destruct (Fetched.analyses r) as [| a l] eqn:Ea; cbn [length Nat.eqb throw_if bind rewrap].
  { split; [eexists; reflexivity | intros (_ & _ & _ & H); now elim H]. }
  destruct (combineMetrics_nonempty (a :: l) ltac:(discriminate)) as [p Hp].
  rewrite Hp. repeat split; auto. discriminate.
Qed.

(* ------------------------------------------------------------------ *)
(** ** Lexical diversity *)

Lemma lower_char_idempotent (c : ascii) : lower_char (lower_char c) = lower_char c.
Proof.
  assert (H : forallb (fun c => code (lower_char (lower_char c))
                               =? code (lower_char c)) all_ascii = true)
    by (vm_compute; reflexivity).
  rewrite forallb_forall in H. specialize (H c (in_all_ascii c)).
  apply Nat.eqb_eq in H. unfold code in H.
  rewrite <- (ascii_nat_embedding (lower_char (lower_char c))), H.
  apply ascii_nat_embedding.
Qed.

(** The characters of the pieces of a split are characters of the string. *)
Lemma split_runs_aux_chars (sep : ascii -> bool) (s : jsstring) :
  forall cur insep piece c,
    In piece (split_runs_aux sep s cur insep) -> In c piece ->
    In c s \/ In c cur.
Proof.
  induction s as [| a s IH]; intros cur insep piece c Hp Hc.
  - cbn in Hp. destruct Hp as [<- | []]. right. now apply in_rev.
  - cbn [split_runs_aux] in Hp. destruct (sep a).
    + destruct insep.
      * destruct (IH _ _ _ _ Hp Hc) as [H | []]. left. now right.
      * destruct Hp as [<- | Hp]; [right; now apply in_rev |].
        destruct (IH _ _ _ _ Hp Hc) as [H | []]. left. now right.
    + destruct (IH _ _ _ _ Hp Hc) as [H | [<- | H]].
      * left. now right.
      * left. now left.
      * now right.
Qed.

Lemma tone_words_lower (text : jsstring) (w : jsstring) :
  In w (tone_words text) -> toLowerCase w = w.
Proof.
  unfold tone_words, words_of, split_runs. intro H.
  apply filter_In in H. destruct H as [H _].
  unfold toLowerCase at 1. rewrite <- (map_id w) at 2.
  apply map_ext_in. intros c Hc.
  destruct (split_runs_aux_chars _ _ _ _ _ _ H Hc) as [Hin | []].
  unfold toLowerCase in Hin. apply in_map_iff in Hin.
  destruct Hin as (c0 & <- & _). apply lower_char_idempotent.
Qed.

Lemma uniqueWords_first_seen (text : jsstring) :
  uniqueWords (tone_words text) = first_seen (tone_words text).
Proof.
  unfold uniqueWords, first_seen. f_equal.
  rewrite <- (map_id (tone_words text)) at 2.
  apply map_ext_in. intros w Hw. now apply (tone_words_lower text).
Qed.

Lemma first_seen_length (l : list jsstring) : length (first_seen l) <= length l.
Proof.
  induction l as [| x l IH] using rev_ind; [apply le_n |].
  rewrite first_seen_snoc, length_app. unfold set_add. cbn [length].
  destruct (includes (first_seen l) x); [lia |]. rewrite length_app. cbn. lia.
Qed.

Lemma first_seen_NoDup_id (l : list jsstring) : NoDup l -> first_seen l = l.
Proof.
  induction l as [| x l IH] using rev_ind; intro H; [reflexivity |].
  rewrite first_seen_snoc.
  apply NoDup_remove in H. rewrite app_nil_r in H. destruct H as [Hl Hx].
  rewrite (IH Hl). unfold set_add.
  replace (includes l x) with false; [reflexivity |].
  symmetry. now apply includes_not_In.
Qed.

Lemma first_seen_full (l : list jsstring) :
  length (first_seen l) = length l <-> NoDup l.
Proof.
  split.
  - intro H. apply (NoDup_incl_NoDup (first_seen_NoDup l)); [lia |].
    intros x Hx. now apply first_seen_In.
  - intro H. now rewrite (first_seen_NoDup_id l H).
Qed.

Lemma ratio_one_iff (a b : nat) :
  0 < b -> (natQ a / natQ b)%Qc = natQ 1 <-> a = b.
Proof.
  intro Hb. assert (Hnz : natQ b <> Q2Qc 0) by (rewrite (natQ_eq_zero b); lia).
  split.
  - intro H. assert (E : natQ a = natQ b).
    { rewrite <- (Qcmult_div_r (natQ a) (natQ b) Hnz), H.
      change (natQ 1) with 1%Qc. ring. }
    unfold natQ in E. apply Q2Qc_eq_iff in E. unfold Qeq in E. cbn in E. lia.
  - intros ->. change (natQ 1) with 1%Qc. now field.
Qed.

Lemma ratio_pos (a b : nat) : 0 < a -> 0 < b -> (qzero < natQ a / natQ b)%Qc.
Proof.
  intros Ha Hb. destruct a as [| s]; [lia |]. destruct b as [| t]; [lia |].
  unfold Qclt, Qcdiv, Qcmult, Qcinv, natQ, qzero. cbn [this Q2Qc].
  rewrite !Qred_correct.
  unfold Qlt, Qmult, Qinv. cbn [Qnum Qden inject_Z Z.of_nat].
  cbn [Qnum Qden]. lia.
Qed.

(** X8.  The lexical diversity of a text without words is 0.  Otherwise it
    is positive and at most 1, and it is 1 exactly when no word occurs twice
    (words compared in lower case). *)
Theorem lexical_diversity_bounds (text : jsstring) :
  let words := words_of (toLowerCase text) in
  let d := VM.lexical_diversity (calculateVocabularyMetrics text) in
  (words = [] -> d = zero)
  /\ (words <> [] ->
      in_unit_interval d = true /\ lt zero d = true /\ (d = one <-> NoDup words)).
Proof.
  intros words d. subst d. unfold calculateVocabularyMetrics.
  cbn [VM.lexical_diversity]. fold words.
  assert (Eu : uniqueWords words = first_seen words)
    by apply uniqueWords_first_seen.
  rewrite Eu. split.
  - intros ->. reflexivity.
  - intro Hne.
    assert (Hn : 0 < length words) by (destruct words; [now elim Hne | cbn; lia]).
    assert (Hu : 0 < length (first_seen words)).
    { destruct words as [| w ws]; [now elim Hne |].
      assert (Hin : In w (first_seen (w :: ws))) by (apply first_seen_In; now left).
      destruct (first_seen (w :: ws)); [destruct Hin | cbn; lia]. }
    pose proof (first_seen_length words) as Hle.
    rewrite div_of_nat.
    replace (length words =? 0) with false by (symmetry; apply Nat.eqb_neq; lia).
    rewrite or_else_zero_Fin. split; [| split].
    + apply in_unit_interval_Fin;
        [apply ratio_nonneg; lia | apply ratio_le_one; lia].
    + unfold zero, of_nat. apply lt_Fin. now apply ratio_pos.
    + rewrite <- first_seen_full. unfold one, of_nat. split.
      * intro H. apply (proj1 (ratio_one_iff _ _ Hn)). congruence.
      * intro H. f_equal. now apply ratio_one_iff.
Qed.

(* ------------------------------------------------------------------ *)
(** ** The words of a description *)

Lemma lt_div25 (qa : Qc) (a : Z) (b : positive) :
  lt (Fin (qa / natQ 25)%Qc) (of_Q (a # b)) = lt (Fin qa) (of_Q (25 * a # b)).
Proof.
  unfold of_Q. apply eq_true_iff_eq. rewrite !lt_Fin.
  unfold Qclt, Qcdiv, Qcmult, Qcinv, natQ. cbn [this Q2Qc].
  rewrite !Qred_correct. destruct (this qa) as [n d].
  unfold Qlt, Qmult, Qinv. cbn [Qnum Qden inject_Z Z.of_nat].
  cbn [Qnum Qden]. lia.
Qed.

Lemma of_Q_eq (x y : Q) : (x == y)%Q -> of_Q x = of_Q y.
Proof. intro H. unfold of_Q. f_equal. now apply Q2Qc_eq_iff. Qed.

Lemma lt_weaken (a b c : Qc) :
  (b <= c)%Qc -> lt (Fin a) (Fin b) = true -> lt (Fin a) (Fin c) = true.
Proof.
  rewrite !lt_Fin. intros H1 H2. exact (Qclt_le_trans _ _ _ H2 H1).
Qed.

Lemma lt_strengthen (a b c : Qc) :
  (b <= c)%Qc -> lt (Fin a) (Fin c) = false -> lt (Fin a) (Fin b) = false.
Proof.
  intros H1 H2. destruct (lt (Fin a) (Fin b)) eqn:E; [| reflexivity].
  now rewrite (lt_weaken a b c H1 E) in H2.
Qed.

Lemma min_one_Fin (q : Qc) :
  min one (Fin q) = if lt (Fin q) one then Fin q else one.
Proof. reflexivity. Qed.

(** X9.  In the description of a text the complexity word is decided by the
    average sentence length alone: "simple" below 10 words, "moderately
    complex" from 10 up to 17.5, "complex" from 17.5 on.  So sentences called
    "long" are always called "complex", sentences called "short" never are,
    and sentences called "simple" are always called "short". *)
Theorem description_words_agree (text : jsstring) :
  let m := calculateSentenceMetrics text in
  Description.complexity m =
    (if lt (SM.avg_length m) (of_nat 10) then js "simple"
     else if lt (SM.avg_length m) (of_Q 17.5%Q) then js "moderately complex"
          else js "complex")
  /\ (Description.sentenceLength m = js "long" ->
      Description.complexity m = js "complex")
  /\ (Description.sentenceLength m = js "short" ->
      Description.complexity m <> js "complex")
  /\ (Description.complexity m = js "simple" ->
      Description.sentenceLength m = js "short").
Proof.
  intro m.
  destruct (guarded_ratio
              (fold_left (fun sum len => sum + len)
                         (map word_count (sentences_of text)) 0)
              (length (sentences_of text))) as (qa & Ea & _).
  { intro H. now rewrite (length_zero_nil _ H). }
  assert (Havg : SM.avg_length m = Fin qa) by exact Ea.
  assert (Hscore : SM.complexity_score m = min one (div (Fin qa) (of_nat 25))).
  { subst m. unfold calculateSentenceMetrics. cbn [SM.complexity_score].
    now rewrite Ea. }
  assert (Hc : Description.complexity m =
               if lt (Fin qa) (of_nat 10) then js "simple"
               else if lt (Fin qa) (of_Q 17.5%Q) then js "moderately complex"
                    else js "complex").
  { unfold Description.complexity. rewrite Hscore.
    rewrite (div_by_count qa 25) by lia.
    assert (L1 : lt (Fin (qa / natQ 25)%Qc) (of_Q 0.4%Q) = lt (Fin qa) (of_nat 10)).
    { rewrite lt_div25. f_equal. change (of_nat 10) with (of_Q (10 # 1)).
      apply of_Q_eq; reflexivity. }
    assert (L2 : lt (Fin (qa / natQ 25)%Qc) (of_Q 0.7%Q) = lt (Fin qa) (of_Q 17.5%Q)).
    { rewrite lt_div25. reflexivity. }
    assert (L3 : lt (Fin (qa / natQ 25)%Qc) one = lt (Fin qa) (of_nat 25)).
    { change one with (of_Q (1 # 1)). rewrite lt_div25. reflexivity. }
    rewrite min_one_Fin, L3.
    destruct (lt (Fin qa) (of_nat 25)) eqn:E25; [now rewrite L1, L2 |].
    change (lt one (of_Q 0.4%Q)) with false.
    change (lt one (of_Q 0.7%Q)) with false. cbn iota.
    unfold of_nat, of_Q in E25 |- *.
    rewrite (lt_strengthen qa (natQ 10) (natQ 25) ltac:(now vm_compute) E25).
    rewrite (lt_strengthen qa (Q2Qc 17.5%Q) (natQ 25) ltac:(now vm_compute) E25).
    reflexivity. }
  split; [now rewrite Havg |].
  rewrite Hc. unfold Description.sentenceLength. rewrite Havg.
  destruct (lt (Fin qa) (of_nat 12)) eqn:E12.
  - pose proof (lt_weaken qa (natQ 12) (Q2Qc 17.5%Q) ltac:(now vm_compute) E12) as E17.
    unfold of_nat in E17 |- *. fold (of_Q 17.5%Q) in E17. rewrite E17.
    repeat split; try discriminate.
    destruct (lt (Fin qa) (Fin (natQ 10))); discriminate.
  - pose proof (lt_strengthen qa (natQ 10) (natQ 12) ltac:(now vm_compute) E12) as E10.
    unfold of_nat in E10 |- *. rewrite E10.
    destruct (lt (Fin qa) (Fin (natQ 20))) eqn:E20.
    + repeat split; try discriminate.
      destruct (lt (Fin qa) (of_Q 17.5%Q)); discriminate.
    + pose proof (lt_strengthen qa (Q2Qc 17.5%Q) (natQ 20) ltac:(now vm_compute) E20)
        as E17.
      fold (of_Q 17.5%Q) in E17. rewrite E17.
      repeat split; try discriminate; reflexivity.
Qed.

(* ------------------------------------------------------------------ *)
(** ** The statements of the set-up script *)

Lemma code_injective (a b : ascii) : code a = code b -> a = b.
Proof.
  unfold code. intro H.
  now rewrite <- (ascii_nat_embedding a), <- (ascii_nat_embedding b), H.
Qed.

Lemma split_char_nonempty (sep : ascii) (s : jsstring) : split_char sep s <> [].
Proof.
  destruct s as [| c r]; cbn [split_char]; [discriminate |].
  destruct (code c =? code sep); [discriminate |].
  destruct (split_char sep r); discriminate.
Qed.

Lemma join_cons (sep x : jsstring) (l : list jsstring) :
  l <> [] -> join sep (x :: l) = x ++ sep ++ join sep l.
Proof. destruct l; [intro H; now elim H | reflexivity]. Qed.

(** Splitting loses nothing: joining the pieces with the separator gives the
    string back. *)
Lemma split_char_join (sep : ascii) (s : jsstring) :
  join [sep] (split_char sep s) = s.
Proof.
  induction s as [| c r IH]; [reflexivity |]. cbn [split_char].
  destruct (Nat.eqb_spec (code c) (code sep)) as [E | N].
  - rewrite join_cons by apply split_char_nonempty. rewrite IH.
    apply code_injective in E. now subst.
  - pose proof (split_char_nonempty sep r) as Hne.
    destruct (split_char sep r) as [| piece pieces]; [now elim Hne |].
    destruct pieces as [| p ps].
    + cbn [join] in IH |- *. now rewrite IH.
    + rewrite join_cons in IH |- * by discriminate.
      rewrite <- IH. reflexivity.
Qed.

Lemma split_char_pieces (sep : ascii) (s : jsstring) :
  Forall (fun piece => ~ In sep piece) (split_char sep s).
Proof.
  induction s as [| c r IH]; [repeat constructor; intros [] |].
  cbn [split_char].
  destruct (Nat.eqb_spec (code c) (code sep)) as [E | N].
  - constructor; [intros [] | exact IH].
  - destruct (split_char sep r) as [| piece pieces];
      [repeat constructor; intros [H | []]; subst; now elim N |].
    inversion IH as [| ? ? Hp Hps]; subst. constructor; [| exact Hps].
    intros [H | H]; [subst; now elim N | now apply Hp].
Qed.

Lemma run_statements_calls (rpc : jsstring -> option jsstring)
      (statements : list jsstring) :
  fst (run_statements rpc statements)
  = map (fun statement => statement ++ [semicolon]) statements.
Proof.
  induction statements as [| st l IH]; [reflexivity |].
  cbn [run_statements map]. destruct (run_statements rpc l) as [calls console].
  cbn [fst] in IH |- *. now rewrite IH.
Qed.

Lemma run_statements_console (rpc : jsstring -> option jsstring)
      (statements : list jsstring) :
  length (snd (run_statements rpc statements))
  = length (filter (fun statement => is_some (rpc (statement ++ [semicolon])))
                   statements).
Proof.
  induction statements as [| st l IH]; [reflexivity |].
  cbn [run_statements filter]. destruct (run_statements rpc l) as [calls console].
  cbn [snd] in IH |- *.
  destruct (rpc (st ++ [semicolon])); cbn [is_some length]; now rewrite IH.
Qed.

(** X10.  Whatever the store answers, [runSqlSetup] sends every non-blank
    piece of the script between two semicolons, in order, each followed by one
    semicolon; no statement sent has a semicolon anywhere else, so a semicolon
    inside a statement always cuts it; a failing statement adds one line to
    the console and stops nothing.  Splitting itself loses no text. *)
Theorem sql_statements_sent (rpc : jsstring -> option jsstring)
        (sqlScript : jsstring) :
  let sent := fst (run_statements rpc (sql_statements sqlScript)) in
  sent = map (fun statement => statement ++ [semicolon]) (sql_statements sqlScript)
  /\ Forall (fun call =>
               exists statement,
                 call = statement ++ [semicolon]
                 /\ In statement (split_char semicolon sqlScript)
                 /\ ~ In semicolon statement
                 /\ trim statement <> []) sent
  /\ length (snd (run_statements rpc (sql_statements sqlScript)))
     = length (filter (fun call => is_some (rpc call)) sent)
  /\ join [semicolon] (split_char semicolon sqlScript) = sqlScript.
Proof.
  intro sent. subst sent. rewrite run_statements_calls.
  split; [reflexivity |]. split; [| split].
  - apply Forall_forall. intros call Hcall. apply in_map_iff in Hcall.
    destruct Hcall as (st & <- & Hst). exists st.
    unfold sql_statements in Hst. apply filter_In in Hst.
    destruct Hst as [Hin Hblank]. repeat split; [exact Hin | |].
    + pose proof (split_char_pieces semicolon sqlScript) as H.
      rewrite Forall_forall in H. now apply H.
    + intro E. rewrite E in Hblank. discriminate Hblank.
  - rewrite run_statements_console.
    induction (sql_statements sqlScript) as [| st l IH]; [reflexivity |].
    cbn [filter map]. destruct (rpc (st ++ [semicolon])); cbn [is_some length];
      now rewrite IH.
  - apply split_char_join.
Qed.

(* ------------------------------------------------------------------ *)
(** ** The comparable authors of a profile *)

Lemma union_set_spec (a b : list jsstring) :
  NoDup (union_set a b) /\ forall x, In x (union_set a b) <-> In x a \/ In x b.
Proof.
  unfold union_set. fold (first_seen (a ++ b)). split; [apply first_seen_NoDup |].
  intro x. now rewrite first_seen_In, in_app_iff.
Qed.

(** X11.  When [createStyleProfile] is given comparable authors: adding to an
    existing profile it stores the existing authors followed by the new ones,
    each once; otherwise it stores the given list as it is, duplicates
    included.  Given none, it keeps the authors of the composite.  The other
    parts of the composite are not touched, and the only error is the failed
    read of the existing profile. *)
Theorem merge_authors_spec (q : Authors.request) (styleParameters : SP.t) :
  let merging := truthy_string (Authors.profileId q) && Authors.addToExisting q in
  let given := list_or_empty (Authors.comparableAuthors q) in
  let existing := list_or_empty (Authors.existingAuthors q) in
  match merge_authors q styleParameters with
  | Thrown message =>
      merging = true
      /\ exists e, Authors.existingError q = Some e
                   /\ message = js "Failed to fetch existing profile: " ++ e
  | Returned p =>
      (merging = true -> Authors.existingError q = None)
      /\ SP.sentence_part p = SP.sentence_part styleParameters
      /\ SP.vocabulary_part p = SP.vocabulary_part styleParameters
      /\ SP.narrative_part p = SP.narrative_part styleParameters
      /\ SP.tone_part p = SP.tone_part styleParameters
      /\ SP.devices_part p = SP.devices_part styleParameters
      /\ (given = [] ->
          SP.comparable_authors p = SP.comparable_authors styleParameters)
      /\ (given <> [] -> merging = false -> SP.comparable_authors p = given)
      /\ (given <> [] -> merging = true ->
          SP.comparable_authors p = first_seen (existing ++ given)
          /\ NoDup (SP.comparable_authors p)
          /\ forall a, In a (SP.comparable_authors p)
                       <-> In a existing \/ In a given)
  end.
Proof.
  intros merging given existing. unfold merge_authors. fold merging.
  assert (Hg : nonempty_list (Authors.comparableAuthors q) = negb (length given =? 0)).
  { subst given. destruct (Authors.comparableAuthors q) as [[| a l] |]; reflexivity. }
  destruct merging.
  - destruct (Authors.existingError q) as [e |]; cbn [is_some throw_if bind message_of].
    + split; [reflexivity |]. exists e. now split.
    + rewrite Hg. fold given existing.
      destruct given as [| g gs] eqn:Eg; cbn [length Nat.eqb negb].
      * repeat split; intros; first [reflexivity | congruence].
      * destruct (union_set_spec existing (g :: gs)) as [Hnd Hin].
        cbn [set_comparable_authors SP.sentence_part SP.vocabulary_part
             SP.narrative_part SP.tone_part SP.devices_part SP.comparable_authors].
        repeat split; intros;
          first [reflexivity | congruence | exact Hnd | now apply Hin].
  - rewrite Hg. fold given.
    destruct given as [| g gs] eqn:Eg; cbn [length Nat.eqb negb].
    + repeat split; intros; first [reflexivity | congruence].
    + cbn [set_comparable_authors SP.sentence_part SP.vocabulary_part
           SP.narrative_part SP.tone_part SP.devices_part SP.comparable_authors].
      repeat split; intros; first [reflexivity | congruence].
Qed.

(* ------------------------------------------------------------------ *)
(** ** What [analyzeWritingSample] writes *)

(** X12.  How [analyzeWritingSample] ends.  It fails in three ways only: a
    new sample is to be saved and has no title, and then nothing has been
    written; the store refuses the new sample, and then that insert is the
    only request made; the store refuses the analysis.  Otherwise it returns:
    with the id of the new sample when it saved one, and with the sample id it
    was given when it did not; when that id is missing or empty it has
    requested no analysis, so nothing at all when it saved no sample. *)
Theorem analysis_outcomes (args : Analyze.args)
        (sampleReply : jsstring + jsstring) (analysisReply : option jsstring) :
  let saving :=
    negb (truthy_string (Analyze.sampleId args)) && Analyze.saveSample args in
  let failure := js "Failed to analyze writing sample: " in
  let issued := snd (analyzeWritingSample args sampleReply analysisReply) in
  match fst (analyzeWritingSample args sampleReply analysisReply) with
  | Returned result =>
      (if saving
       then truthy_string (Analyze.title args) = true
            /\ exists id, sampleReply = inl id
                          /\ Analyze.sample_id result = Some id
       else Analyze.sample_id result = Analyze.sampleId args)
      /\ (if truthy_string (Analyze.sample_id result)
          then analysisReply = None
          else length issued = if saving then 1 else 0)
  | Thrown message =>
      (saving = true
       /\ truthy_string (Analyze.title args) = false
       /\ message = failure ++ js "Title is required when saving a new sample"
       /\ issued = [])
      \/ (saving = true
          /\ truthy_string (Analyze.title args) = true
          /\ length issued = 1
          /\ exists e, sampleReply = inr e
                       /\ message = failure ++ js "Failed to save sample: " ++ e)
      \/ (exists e, analysisReply = Some e
                    /\ message = failure ++ js "Failed to save analysis: " ++ e
                    /\ (saving = true -> exists id, sampleReply = inl id
                                                    /\ id <> []))
  end.
Proof.
  intros saving failure issued. subst saving failure issued.
  unfold analyzeWritingSample.
  destruct (truthy_string (Analyze.sampleId args)) eqn:Eid; cbn [negb andb].
  - unfold store_analysis. rewrite Eid.
    destruct analysisReply as [e |]; cbn [fst snd rewrap].
    + right; right. exists e. split; [reflexivity |].
      split; [reflexivity | discriminate].
    + cbn [Analyze.sample_id]. rewrite Eid. now split.
  - destruct (Analyze.saveSample args) eqn:Esave.
    + destruct (truthy_string (Analyze.title args)) eqn:Etitle; cbn [negb].
      * destruct sampleReply as [id | e].
        -- unfold store_analysis.
           destruct (truthy_string (Some id)) eqn:Enew.
           ++ destruct analysisReply as [e |]; cbn [fst snd rewrap].
              ** right; right. exists e. split; [reflexivity |].
                 split; [reflexivity |]. intros _. exists id.
                 split; [reflexivity |]. intros ->. discriminate Enew.
              ** cbn [Analyze.sample_id]. rewrite Enew.
                 split; [| reflexivity].
                 split; [reflexivity |]. exists id. now split.
           ++ cbn [fst snd Analyze.sample_id]. rewrite Enew.
              split; [| reflexivity].
              split; [reflexivity |]. exists id. now split.
        -- cbn [fst snd rewrap]. right; left.
           split; [reflexivity |]. split; [reflexivity |].
           split; [reflexivity |]. exists e. now split.
      * cbn [fst snd rewrap]. left. now repeat split.
    + unfold store_analysis. rewrite Eid. cbn [fst snd Analyze.sample_id].
      rewrite Eid. now split.
Qed.

(** X13.  Whatever the arguments and the answers of the store: at most one
    sample and one analysis are written, the sample first; a sample is written
    only for a call without sample id that asks to save and has a title, with
    the text as content and [createExcerpt] of the text as excerpt; an
    analysis is written only under a non-empty sample id, which is the one
    given or the id of the sample just written, and it holds the metrics and
    the summary of the text; a returned result carries the same metrics and
    summary, and it has a non-empty sample id exactly when an analysis was
    written; an error starts with "Failed to analyze writing sample: ". *)
Theorem analysis_writes (args : Analyze.args)
        (sampleReply : jsstring + jsstring) (analysisReply : option jsstring) :
  let text := Analyze.text args in
  let out := fst (analyzeWritingSample args sampleReply analysisReply) in
  let issued := snd (analyzeWritingSample args sampleReply analysisReply) in
  (exists samples analyses,
      issued = samples ++ analyses
      /\ length samples <= 1 /\ length analyses <= 1
      /\ (forall w, In w samples ->
            truthy_string (Analyze.sampleId args) = false
            /\ Analyze.saveSample args = true
            /\ truthy_string (Analyze.title args) = true
            /\ w = Analyze.InsertSample
                     (text_of (Analyze.title args)) text
                     (or_null (Analyze.author args))
                     (or_null (Analyze.sampleType args))
                     (list_or_empty (Analyze.tags args))
                     (Analyze.projectId args) (createExcerpt text))
      /\ (forall w, In w analyses ->
            exists id,
              id <> []
              /\ w = Analyze.InsertAnalysis id (analysis_metrics text)
                                            (analysis_summary text) []
              /\ (if truthy_string (Analyze.sampleId args)
                  then Analyze.sampleId args = Some id
                  else sampleReply = inl id /\ samples <> []))
      /\ (forall r, out = Returned r ->
            Analyze.metrics_of r = analysis_metrics text
            /\ Analyze.summary r = analysis_summary text
            /\ (truthy_string (Analyze.sample_id r) = true <-> analyses <> [])))
  /\ (forall message, out = Thrown message ->
        exists reason,
          message = js "Failed to analyze writing sample: " ++ reason).
Proof.
  intros text out issued. subst out issued.
  assert (S : forall sid log,
             (truthy_string sid = true ->
              exists id, sid = Some id /\ id <> []) ->
             let o := store_analysis text sid analysisReply log in
             (exists analyses,
                 snd o = log ++ analyses /\ length analyses <= 1
                 /\ (forall w, In w analyses ->
                       exists id, id <> [] /\ sid = Some id
                         /\ w = Analyze.InsertAnalysis id (analysis_metrics text)
                                                       (analysis_summary text) [])
                 /\ (forall r, fst o = Returned r ->
                       Analyze.metrics_of r = analysis_metrics text
                       /\ Analyze.summary r = analysis_summary text
                       /\ (truthy_string (Analyze.sample_id r) = true
                           <-> analyses <> [])))
             /\ (forall message, fst o = Thrown message ->
                   exists reason,
                     message = js "Failed to analyze writing sample: " ++ reason)).
  { intros sid log Hsid. unfold store_analysis.
    destruct (truthy_string sid) eqn:Et.
    - destruct (Hsid eq_refl) as (id & -> & Hid). cbn [text_of].
      destruct analysisReply as [e |]; cbn [fst snd rewrap].
      + split.
        * eexists. split; [reflexivity |]. split; [cbn; lia |]. split.
          -- intros w [<- | []]. exists id. now repeat split.
          -- intros r H. discriminate H.
        * intros message H. injection H as <-. eexists. reflexivity.
      + split.
        * eexists. split; [reflexivity |]. split; [cbn; lia |]. split.
          -- intros w [<- | []]. exists id. now repeat split.
          -- intros r H. injection H as <-.
             cbn [Analyze.metrics_of Analyze.summary Analyze.sample_id].
             repeat split; [intros _; discriminate | intros _; exact Et].
        * intros message H. discriminate H.
    - cbn [fst snd]. split.
      + exists []. rewrite app_nil_r. split; [reflexivity |].
        split; [cbn; lia |]. split; [intros w [] |].
        intros r H. injection H as <-.
        cbn [Analyze.metrics_of Analyze.summary Analyze.sample_id].
        repeat split; [rewrite Et; discriminate | intro H; now elim H].
      + intros message H. discriminate H. }
  assert (T : forall sid : option jsstring,
             truthy_string sid = true -> exists id, sid = Some id /\ id <> []).
  { intros [[| c l] |] H; try discriminate H. eexists. split; [reflexivity |].
    discriminate. }
  unfold analyzeWritingSample. fold text.
  destruct (truthy_string (Analyze.sampleId args)) eqn:Eid; cbn [negb andb].
  - destruct (S (Analyze.sampleId args) [] (T _)) as [(an & E & Hl & Hw & Hr) Hm].
    split; [| exact Hm].
    exists [], an. rewrite E.
    split; [reflexivity |]. split; [cbn; lia |]. split; [exact Hl |].
    split; [intros w [] |]. split; [| exact Hr].
    intros w Hin. destruct (Hw w Hin) as (id & Hid & Es & Ew).
    exists id. split; [exact Hid |]. split; [exact Ew | exact Es].
  - destruct (Analyze.saveSample args) eqn:Esave.
    + destruct (truthy_string (Analyze.title args)) eqn:Etitle; cbn [negb].
      * destruct sampleReply as [id | e].
        -- destruct (S (Some id) [Analyze.InsertSample
                       (text_of (Analyze.title args)) text
                       (or_null (Analyze.author args))
                       (or_null (Analyze.sampleType args))
                       (list_or_empty (Analyze.tags args))
                       (Analyze.projectId args) (createExcerpt text)])
             as [(an & E & Hl & Hw & Hr) Hm].
           { intro H. exists id. split; [reflexivity |].
             intros ->. discriminate H. }
           split; [| exact Hm].
           eexists _, an. split; [exact E |].
           split; [cbn; lia |]. split; [exact Hl |].
           split; [| split; [| exact Hr]].
           ++ intros w [<- | []]. split; [reflexivity |].
              split; [reflexivity |]. split; reflexivity.
           ++ intros w Hin. destruct (Hw w Hin) as (id' & Hid & Es & Ew).
              injection Es as <-. exists id. split; [exact Hid |].
              split; [exact Ew |]. split; [reflexivity | discriminate].
        -- cbn [fst snd rewrap]. split.
           ++ eexists _, []. rewrite app_nil_r. split; [reflexivity |].
              split; [cbn; lia |]. split; [cbn; lia |].
              split; [| split; [intros w [] | intros r H; discriminate H]].
              intros w [<- | []]. split; [reflexivity |].
              split; [reflexivity |]. split; reflexivity.
           ++ intros message H. injection H as <-. eexists. reflexivity.
      * cbn [fst snd rewrap]. split.
        -- exists [], []. split; [reflexivity |].
           split; [cbn; lia |]. split; [cbn; lia |].
           split; [intros w [] |]. split; [intros w [] |].
           intros r H. discriminate H.
        -- intros message H. injection H as <-. eexists. reflexivity.
    + destruct (S (Analyze.sampleId args) [] (T _)) as [(an & E & Hl & Hw & Hr) Hm].
      split; [| exact Hm].
      exists [], an. rewrite E.
      split; [reflexivity |]. split; [cbn; lia |]. split; [exact Hl |].
      split; [intros w [] |]. split; [| exact Hr].
      intros w Hin. destruct (Hw w Hin) as (id & Hid & Es & Ew).
      apply (f_equal truthy_string) in Es. rewrite Eid in Es.
      destruct id; [now elim Hid | discriminate Es].
Qed.

(* ------------------------------------------------------------------ *)
(** ** The handler of tool calls *)

(** X14.  What the handler answers, whatever the four operations do.  An
    unknown tool is answered "Error: Unknown tool: <name>" even when the
    arguments are missing; for a known tool, missing arguments are answered
    with the message of the type error, a missing required argument with the
    validation message of the tool, and neither calls the operation; a
    failure of the operation is answered "Error: " followed by its message;
    the response is flagged [isError] in exactly these cases. *)
Theorem callTool_outcomes
        (analyze : Call.args -> outcome Call.analysis)
        (getProfile : Call.args -> outcome Call.profile)
        (createProfile : Call.args -> outcome Call.created)
        (writeInStyle : Call.args -> outcome Call.writing)
        (type_error : string -> jsstring) (request : Call.request) :
  let response :=
    callTool analyze getProfile createProfile writeInStyle type_error request in
  let tool := Call.tool request in
  if known_tool tool
  then
    match Call.arguments request with
    | None => exists member, response = error_response (type_error member)
    | Some args =>
        if required_argument_given request
        then
          match operation_failure analyze getProfile createProfile writeInStyle
                                  tool args with
          | Some message => response = error_response message
          | None => Call.isError response = false
          end
        else response = error_response (validation_message tool)
    end
  else response = error_response (js "Unknown tool: " ++ tool).
Proof.
  intros response tool. subst response tool.
  destruct request as [tool arguments].
  unfold known_tool, tool_names, callTool, dispatch, required_argument_given,
    operation_failure, validation_message.
  cbn [Call.tool Call.arguments existsb map].
  destruct (jsstring_eqb tool (js "analyze_writing_sample")) eqn:E1.
  { cbn [orb]. unfold handle_analyze, given.
    destruct arguments as [args |]; cbn [bind]; [| eexists; reflexivity].
    destruct (truthy_string (Call.text args)); cbn [negb throw_if bind];
      [| reflexivity].
    destruct (analyze args); cbn [thrown_message bind]; reflexivity. }
  destruct (jsstring_eqb tool (js "get_style_profile")) eqn:E2.
  { cbn [orb]. unfold handle_get, given.
    destruct arguments as [args |]; cbn [bind]; [| eexists; reflexivity].
    destruct (truthy_string (Call.profileId args)); cbn [negb throw_if bind];
      [| reflexivity].
    destruct (getProfile args); cbn [thrown_message bind]; reflexivity. }
  destruct (jsstring_eqb tool (js "create_style_profile")) eqn:E3.
  { cbn [orb]. unfold handle_create, given.
    destruct arguments as [args |]; cbn [bind]; [| eexists; reflexivity].
    destruct (truthy_string (Call.name args));
      destruct (nonempty_list (Call.sampleIds args));
      cbn [negb orb andb throw_if bind]; try reflexivity.
    destruct (createProfile args); cbn [thrown_message bind]; reflexivity. }
  destruct (jsstring_eqb tool (js "write_in_style")) eqn:E4.
  { cbn [orb]. unfold handle_write, given.
    destruct arguments as [args |]; cbn [bind]; [| eexists; reflexivity].
    destruct (truthy_string (Call.prompt args)); cbn [negb throw_if bind];
      [| reflexivity].
    destruct (writeInStyle args); cbn [thrown_message bind]; reflexivity. }
  reflexivity.
Qed.

(* ------------------------------------------------------------------ *)
(** ** Reading a profile back *)

(** X15.  [getStyleProfile] returns exactly when the profile is found and
    none of the queries it makes fails, and the query for the excerpts is
    made, and its error looked at, only when examples are asked for and the
    profile has linked samples.  The result then has the style guidance of
    the stored parameters exactly when [includeStyleNotes] is set, and its
    examples are the excerpts followed by the representative samples, present
    only when examples are asked for, the profile has linked samples and that
    list is not empty: a profile without linked samples shows no example,
    whatever representative samples it has.  Every failure is reported with
    the prefix "Failed to retrieve style profile: ". *)
Theorem getStyleProfile_outcomes (number_to_string : num -> jsstring)
        (args : Get.args) (r : Store.replies) :
  let wanted := Get.includeExamples args && has_linked_samples r in
  match getStyleProfile number_to_string args r with
  | Returned result =>
      Store.profileError r = None
      /\ Store.samplesError r = None
      /\ Store.repSamplesError r = None
      /\ (wanted = true -> Store.examplesError r = None)
      /\ (exists profile,
             Store.profile r = Some profile
             /\ Get.profile result = profile_view_of profile
             /\ Get.style_guidance result =
                if Get.includeStyleNotes args
                then Some (formatStyleGuidance number_to_string
                                               (guidance_argument profile))
                else None)
      /\ Get.examples result =
         (if wanted && (0 <? length (stored_examples r))
          then Some (stored_examples r) else None)
      /\ (Store.profileSamples r = [] -> Get.examples result = None)
  | Thrown message =>
      (exists reason,
          message = js "Failed to retrieve style profile: " ++ reason)
      /\ (Store.profileError r <> None
          \/ Store.profile r = None
          \/ Store.samplesError r <> None
          \/ Store.repSamplesError r <> None
          \/ (wanted = true /\ Store.examplesError r <> None))
  end.
Proof.
  intro wanted. subst wanted.
  unfold getStyleProfile, fetch_profile, has_linked_samples, stored_examples.
  destruct (Store.profileError r) as [e1 |]; cbn [is_some throw_if bind rewrap].
  { split; [eexists; reflexivity | left; discriminate]. }
  destruct (Store.profile r) as [profile |]; cbn [bind rewrap].
  2: { split; [eexists; reflexivity | right; left; reflexivity]. }
  destruct (Store.samplesError r) as [e2 |]; cbn [is_some throw_if bind rewrap].
  { split; [eexists; reflexivity | right; right; left; discriminate]. }
  destruct (Store.repSamplesError r) as [e3 |];
    cbn [is_some throw_if bind rewrap].
  { split; [eexists; reflexivity | right; right; right; left; discriminate]. }
  destruct (Get.includeExamples args) eqn:Ei; cbn [andb].
  - destruct (0 <? length (Store.profileSamples r)) eqn:El.
    + destruct (Store.examplesError r) as [e4 |];
        cbn [is_some throw_if bind rewrap].
      { split; [eexists; reflexivity |].
        right; right; right; right. split; [reflexivity | discriminate]. }
      cbn [Get.profile Get.style_guidance Get.examples andb].
      split; [reflexivity |]. split; [reflexivity |]. split; [reflexivity |].
      split; [reflexivity |].
      split; [exists profile; repeat split |].
      split; [reflexivity |].
      intro H. rewrite H in El. discriminate El.
    + cbn [bind rewrap Get.profile Get.style_guidance Get.examples andb length
           Nat.ltb Nat.leb].
      split; [reflexivity |]. split; [reflexivity |]. split; [reflexivity |].
      split; [discriminate |].
      split; [exists profile; repeat split |].
      split; reflexivity.
  - cbn [bind rewrap Get.profile Get.style_guidance Get.examples andb].
    split; [reflexivity |]. split; [reflexivity |]. split; [reflexivity |].
    split; [discriminate |].
    split; [exists profile; repeat split |].
    split; reflexivity.
Qed.

(** X16.  [writeInStyle] returns exactly when the profile is found and none
    of the queries it makes fails; the excerpts are asked for only when the
    profile has linked samples.  Its examples are the excerpts of the linked
    samples, if any, followed by the representative samples, which are shown
    also for a profile without linked samples; each representative sample
    without a description is titled "Representative Sample".  The guidance is
    empty exactly when [includeStyleNotes] is not set, and the length
    instruction is empty exactly when no length is given or the length is 0
    or NaN.  Every failure is reported with the prefix "Failed to prepare
    writing instructions: ". *)
Theorem writeInStyle_outcomes (number_to_string : num -> jsstring)
        (args : Write.args) (r : Store.replies) :
  match writeInStyle number_to_string args r with
  | Returned result =>
      Store.profileError r = None
      /\ Store.samplesError r = None
      /\ Store.repSamplesError r = None
      /\ (has_linked_samples r = true -> Store.examplesError r = None)
      /\ (exists profile,
             Store.profile r = Some profile
             /\ Write.profile_name result = Store.name profile
             /\ Write.parameters result = Store.style_parameters profile
             /\ Write.style_guidance result =
                if Write.includeStyleNotes args
                then formatStyleGuidance number_to_string
                                         (guidance_argument profile)
                else [])
      /\ (Write.style_guidance result = []
          <-> Write.includeStyleNotes args = false)
      /\ Write.examples result =
         (if has_linked_samples r then sample_examples (Store.samples r) else [])
         ++ representative_examples (Store.representativeSamples r)
      /\ (forall rs,
             In rs (match Store.representativeSamples r with
                    | Some l => l | None => [] end) ->
             exists example,
               In example (Write.examples result)
               /\ Example.excerpt example = Store.text_content rs
               /\ Example.title example =
                  if truthy_string (Store.rep_description rs)
                  then text_of (Store.rep_description rs)
                  else js "Representative Sample")
      /\ Write.writing_prompt result = Write.prompt args
      /\ (Write.length_instruction result = []
          <-> match Write.length args with
              | Some n => truthy n = false
              | None => True
              end)
  | Thrown message =>
      (exists reason,
          message = js "Failed to prepare writing instructions: " ++ reason)
      /\ (Store.profileError r <> None
          \/ Store.profile r = None
          \/ Store.samplesError r <> None
          \/ (has_linked_samples r = true /\ Store.examplesError r <> None)
          \/ Store.repSamplesError r <> None)
  end.
Proof.
  assert (R : forall rs l,
             In rs (match l with Some l => l | None => [] end) ->
             exists example,
               In example (representative_examples l)
               /\ Example.excerpt example = Store.text_content rs
               /\ Example.title example =
                  if truthy_string (Store.rep_description rs)
                  then text_of (Store.rep_description rs)
                  else js "Representative Sample").
  { intros rs l H. eexists. split.
    - unfold representative_examples. apply in_map. exact H.
    - split; reflexivity. }
  assert (L : (match Write.length args with
               | Some n =>
                   if truthy n
                   then js "Write approximately " ++ number_to_string n
                           ++ js " words."
                   else []
               | None => []
               end = []
               <-> match Write.length args with
                   | Some n => truthy n = false
                   | None => True
                   end)).
  { destruct (Write.length args) as [n |]; [| tauto].
    destruct (truthy n); split; intro H; try reflexivity; discriminate H. }
  unfold writeInStyle, fetch_profile, has_linked_samples.
  destruct (Store.profileError r) as [e1 |]; cbn [is_some throw_if bind rewrap].
  { split; [eexists; reflexivity | left; discriminate]. }
  destruct (Store.profile r) as [profile |]; cbn [bind rewrap].
  2: { split; [eexists; reflexivity | right; left; reflexivity]. }
  destruct (Store.samplesError r) as [e2 |]; cbn [is_some throw_if bind rewrap].
  { split; [eexists; reflexivity | right; right; left; discriminate]. }
  assert (F : forall examples : list Example.t,
             let result :=
               {| Write.profile_name := Store.name profile;
                  Write.style_guidance :=
                    if Write.includeStyleNotes args
                    then formatStyleGuidance number_to_string
                                             (guidance_argument profile)
                    else [];
                  Write.writing_prompt := Write.prompt args;
                  Write.length_instruction :=
                    match Write.length args with
                    | Some n =>
                        if truthy n
                        then js "Write approximately " ++ number_to_string n
                                ++ js " words."
                        else []
                    | None => []
                    end;
                  Write.examples :=
                    examples
                    ++ representative_examples (Store.representativeSamples r);
                  Write.parameters := Store.style_parameters profile |} in
             (exists p,
                 Some profile = Some p
                 /\ Write.profile_name result = Store.name p
                 /\ Write.parameters result = Store.style_parameters p
                 /\ Write.style_guidance result =
                    if Write.includeStyleNotes args
                    then formatStyleGuidance number_to_string
                                             (guidance_argument p)
                    else [])
             /\ (Write.style_guidance result = []
                 <-> Write.includeStyleNotes args = false)
             /\ Write.examples result =
                examples
                ++ representative_examples (Store.representativeSamples r)
             /\ (forall rs,
                    In rs (match Store.representativeSamples r with
                           | Some l => l | None => [] end) ->
                    exists example,
                      In example (Write.examples result)
                      /\ Example.excerpt example = Store.text_content rs
                      /\ Example.title example =
                         if truthy_string (Store.rep_description rs)
                         then text_of (Store.rep_description rs)
                         else js "Representative Sample")
             /\ Write.writing_prompt result = Write.prompt args
             /\ (Write.length_instruction result = []
                 <-> match Write.length args with
                     | Some n => truthy n = false
                     | None => True
                     end)).
  { intros examples result. subst result.
    cbn [Write.profile_name Write.parameters Write.style_guidance
         Write.examples Write.writing_prompt Write.length_instruction].
    split; [exists profile; repeat split |].
    split.
    { destruct (Write.includeStyleNotes args); split; intro H;
        try reflexivity; discriminate H. }
    split; [reflexivity |].
    split.
    { intros rs H. destruct (R rs _ H) as (example & Hin & He & Ht).
      exists example. split; [| split; assumption].
      apply in_or_app. right. exact Hin. }
    split; [reflexivity | exact L]. }
  destruct (0 <? length (Store.profileSamples r)) eqn:El.
  - destruct (Store.examplesError r) as [e4 |];
      cbn [is_some throw_if bind rewrap].
    { split; [eexists; reflexivity |].
      right; right; right; left. split; [reflexivity | discriminate]. }
    destruct (Store.repSamplesError r) as [e3 |];
      cbn [is_some throw_if bind rewrap].
    { split; [eexists; reflexivity |].
      right; right; right; right. discriminate. }
    split; [reflexivity |]. split; [reflexivity |]. split; [reflexivity |].
    split; [reflexivity |]. apply F.
  - cbn [bind].
    destruct (Store.repSamplesError r) as [e3 |];
      cbn [is_some throw_if bind rewrap].
    { split; [eexists; reflexivity |].
      right; right; right; right. discriminate. }
    split; [reflexivity |]. split; [reflexivity |]. split; [reflexivity |].
    split; [discriminate |]. apply F.
Qed.

(* ------------------------------------------------------------------ *)
(** ** What [createStyleProfile] writes *)

Lemma parameters_cases (r : Fetched.t) :
  (exists p,
      createStyleProfile_parameters r = Returned (Some p)
      /\ combineMetrics (Fetched.analyses r) = Some p
      /\ Fetched.samplesError r = None
      /\ length (Fetched.samples r) = length (Fetched.sampleIds r)
      /\ Fetched.analysesError r = None
      /\ Fetched.analyses r <> [])
  \/ (exists reason,
         createStyleProfile_parameters r
         = Thrown (js "Failed to create style profile: " ++ reason)).
Proof.
  unfold createStyleProfile_parameters.
  destruct (Fetched.samplesError r) as [e1 |]; cbn [is_some throw_if bind rewrap].
  { right. eexists. reflexivity. }
  destruct (Nat.eqb_spec (length (Fetched.samples r)) (length (Fetched.sampleIds r)))
    as [E | N]; cbn [negb throw_if bind rewrap].
  2: { right. eexists. reflexivity. }
  destruct (Fetched.analysesError r) as [e2 |]; cbn [is_some throw_if bind rewrap].
  { right. eexists. reflexivity. }
  destruct (Fetched.analyses r) as [| a l] eqn:Ea;
    cbn [length Nat.eqb throw_if bind rewrap].
  { right. eexists. reflexivity. }
  destruct (combineMetrics_nonempty (a :: l) ltac:(discriminate)) as [p Hp].
  rewrite Hp. left. exists p. repeat split; auto. discriminate.
Qed.

Lemma set_own_authors (p : SP.t) :
  set_comparable_authors p (SP.comparable_authors p) = p.
Proof. destruct p. reflexivity. Qed.

Lemma merge_authors_cases (args : Create.args) (r : Create.replies)
      (composite : SP.t) :
  (merge_authors (authors_request args r) composite
   = Returned (set_comparable_authors composite
                                      (profile_authors args r composite))
   /\ (truthy_string (Create.profileId args) && Create.addToExisting args = true ->
       Create.existingError r = None))
  \/ (exists reason,
         merge_authors (authors_request args r) composite = Thrown reason).
Proof.
  unfold merge_authors, profile_authors, authors_request.
  cbn [Authors.profileId Authors.addToExisting Authors.comparableAuthors
       Authors.existingError Authors.existingAuthors].
  destruct (truthy_string (Create.profileId args) && Create.addToExisting args).
  - destruct (Create.existingError r) as [e |]; cbn [is_some throw_if bind].
    + right. eexists. reflexivity.
    + left. split; [| reflexivity].
      destruct (nonempty_list (Create.comparableAuthors args));
        [reflexivity | now rewrite set_own_authors].
  - left. split; [| discriminate].
    destruct (nonempty_list (Create.comparableAuthors args));
      [reflexivity | now rewrite set_own_authors].
Qed.

Lemma save_profile_prefix (args : Create.args) (r : Create.replies)
      (styleParameters : SP.t) :
  let out := fst (save_profile args r styleParameters) in
  let issued := snd (save_profile args r styleParameters) in
  hd_error issued = Some (profile_write args styleParameters)
  /\ match Create.profileReply r with
     | inl profile =>
         prefix_of issued (planned_writes args profile styleParameters)
         /\ In (Create.InsertAssociations
                  (associations_of profile (Create.sampleIds args))) issued
         /\ (replacing args = true ->
             In (Create.DeleteAssociations (text_of (Create.profileId args)))
                issued)
         /\ (forall result, out = Returned result ->
               result = created_profile args profile styleParameters
               /\ issued = planned_writes args profile styleParameters
               /\ Create.associationError r = None
               /\ ((0 <? length (representatives_given args)) = true ->
                   Create.repSampleError r = None))
         /\ (forall message, out = Thrown message ->
               (exists e, Create.associationError r = Some e
                          /\ message
                             = js "Failed to create profile-sample associations: "
                                  ++ e)
               \/ (exists e, Create.associationError r = None
                             /\ (0 <? length (representatives_given args)) = true
                             /\ Create.repSampleError r = Some e
                             /\ message
                                = js "Failed to create representative samples: "
                                     ++ e))
     | inr e =>
         issued = [profile_write args styleParameters]
         /\ out = Thrown ((if truthy_string (Create.profileId args)
                           then js "Failed to update style profile: "
                           else js "Failed to create style profile: ") ++ e)
     end.
Proof.
  intros out issued. subst out issued.
  unfold save_profile, planned_writes, replacing, prefix_of.
  destruct (Create.profileReply r) as [profile | e]; cbn [fst snd hd_error];
    [| now repeat split].
  set (deletes := if truthy_string (Create.profileId args)
                     && negb (Create.addToExisting args)
                  then [Create.DeleteAssociations (text_of (Create.profileId args))]
                  else []).
  set (links := Create.InsertAssociations
                  (associations_of profile (Create.sampleIds args))).
  assert (Hl : In links (profile_write args styleParameters :: deletes ++ [links])).
  { right. apply in_or_app. right. now left. }
  assert (Hd : truthy_string (Create.profileId args)
               && negb (Create.addToExisting args) = true ->
               In (Create.DeleteAssociations (text_of (Create.profileId args)))
                  (profile_write args styleParameters :: deletes ++ [links])).
  { intro H. right. apply in_or_app. left. subst deletes. rewrite H. now left. }
  destruct (Create.associationError r) as [e |].
  - cbn [fst snd hd_error app]. split; [reflexivity |].
    split; [eexists; cbn [app]; rewrite <- ?app_assoc; cbn [app]; reflexivity |].
    split; [exact Hl |]. split; [exact Hd |].
    split; [intros result H; discriminate H |].
    intros message H. injection H as <-. left. exists e. now split.
  - destruct (0 <? length (representatives_given args)) eqn:Er.
    + set (reps := Create.InsertRepresentative
                     (representative_rows profile (representatives_given args))).
      destruct (Create.repSampleError r) as [e |]; cbn [fst snd].
      * split; [reflexivity |].
        split; [eexists; cbn [app]; rewrite <- ?app_assoc; cbn [app];
                reflexivity |].
        split; [apply in_or_app; left; exact Hl |].
        split; [intro H; apply in_or_app; left; exact (Hd H) |].
        split; [intros result H; discriminate H |].
        intros message H. injection H as <-. right. exists e. now repeat split.
      * split; [reflexivity |].
        split; [eexists; cbn [app]; rewrite <- ?app_assoc; cbn [app];
                reflexivity |].
        split; [apply in_or_app; left; exact Hl |].
        split; [intro H; apply in_or_app; left; exact (Hd H) |].
        split; [| intros message H; discriminate H].
        intros result H. injection H as <-.
        split; [reflexivity |].
        split; [cbn [app]; rewrite <- ?app_assoc; reflexivity |]. now split.
    + cbn [fst snd hd_error app]. split; [reflexivity |].
      split; [exists []; cbn [app]; now rewrite !app_nil_r |].
      split; [exact Hl |]. split; [exact Hd |].
      split; [| intros message H; discriminate H].
      intros result H. injection H as <-.
      split; [reflexivity |].
      split; [cbn [app]; rewrite ?app_nil_r; reflexivity |].
      split; [reflexivity | discriminate].
Qed.

(** X17.  [createStyleProfile] writes nothing unless every check of its first
    three steps passes.  When it writes, the first write is the update of the
    profile (when a profile id is given) or its insert, holding the composite
    of the analyses with the authors decided from the arguments; if the store
    accepts it, the writes that follow are a beginning of: the delete of the
    old links when replacing, one link of weight 1 per requested sample in the
    order given, and the representative samples if any.  The function returns
    only after all of them, with the number of requested samples as
    [sample_count] and the authors stored in the parameters as
    [comparable_authors]; for a new profile the same authors are written to
    its column.  Every error starts with "Failed to create style
    profile: ". *)
Theorem createStyleProfile_writes (args : Create.args) (r : Create.replies) :
  let out := fst (createStyleProfile args r) in
  let issued := snd (createStyleProfile args r) in
  (forall message,
      out = Thrown message ->
      exists reason, message = js "Failed to create style profile: " ++ reason)
  /\ (forall result, out = Returned result -> issued <> [])
  /\ (issued = []
      \/ exists composite,
          checks_pass args r
          /\ combineMetrics (Create.analyses r) = Some composite
          /\ let styleParameters :=
               set_comparable_authors composite
                                      (profile_authors args r composite) in
             hd_error issued = Some (profile_write args styleParameters)
             /\ (forall n d p pj g authors uc,
                    profile_write args styleParameters
                    = Create.InsertProfile n d p pj g authors uc ->
                    authors = profile_authors args r composite)
             /\ match Create.profileReply r with
                | inr _ => issued = [profile_write args styleParameters]
                | inl profile =>
                    prefix_of issued
                              (planned_writes args profile styleParameters)
                    /\ In (Create.InsertAssociations
                             (associations_of profile (Create.sampleIds args)))
                          issued
                    /\ length (associations_of profile (Create.sampleIds args))
                       = length (Create.sampleIds args)
                    /\ (forall a,
                           In a (associations_of profile (Create.sampleIds args)) ->
                           Create.weight a = one
                           /\ Create.profile_id a = Create.stored_id profile
                           /\ In (Create.sample_id a) (Create.sampleIds args))
                    /\ (forall result,
                           out = Returned result ->
                           issued = planned_writes args profile styleParameters
                           /\ Create.id result = Create.stored_id profile
                           /\ Create.parameters result = styleParameters
                           /\ Create.sample_count result
                              = length (Create.sampleIds args)
                           /\ Create.comparable_authors result
                              = profile_authors args r composite)
                end).
Proof.
  intros out issued. subst out issued. unfold createStyleProfile.
  destruct (parameters_cases (fetched_of args r))
    as [(composite & -> & Hc & H1 & H2 & H3 & H4) | (reason & ->)];
    cbn [fst snd].
  2: { split; [intros message H; injection H as <-; eexists; reflexivity |].
       split; [intros result H; discriminate H | now left]. }
  cbn [fetched_of Fetched.analyses Fetched.samplesError Fetched.samples
       Fetched.sampleIds Fetched.analysesError] in Hc, H1, H2, H3, H4.
  destruct (merge_authors_cases args r composite) as [[-> H5] | (reason & ->)];
    cbn [fst snd].
  2: { split; [intros message H; injection H as <-; eexists; reflexivity |].
       split; [intros result H; discriminate H | now left]. }
  set (styleParameters :=
         set_comparable_authors composite (profile_authors args r composite)).
  pose proof (save_profile_prefix args r styleParameters) as S.
  cbv zeta in S. destruct S as [Hhd S].
  destruct (save_profile args r styleParameters) as [out issued].
  cbn [fst snd] in Hhd, S |- *.
  split.
  { intros message H. destruct out as [res | m]; [discriminate H |].
    injection H as <-. eexists. reflexivity. }
  split.
  { intros result _ E. rewrite E in Hhd. discriminate Hhd. }
  right. exists composite.
  split; [repeat split; assumption |]. split; [exact Hc |].
  cbv zeta. fold styleParameters. split; [exact Hhd |].
  split.
  { unfold profile_write.
    destruct (truthy_string (Create.profileId args)); intros * H;
      [discriminate H |].
    injection H as _ _ _ _ _ <- _. reflexivity. }
  destruct (Create.profileReply r) as [profile | e]; [| apply S].
  destruct S as (Hp & Hl & _ & Hr & _).
  split; [exact Hp |]. split; [exact Hl |].
  split; [apply length_map |].
  split.
  { intros a Ha. unfold associations_of in Ha. apply in_map_iff in Ha.
    destruct Ha as (sid & <- & Hin). now repeat split. }
  intros result H. destruct out as [res | m]; [| discriminate H].
  cbn [rewrap] in H. injection H as <-.
  destruct (Hr res eq_refl) as (-> & Hi & _). split; [exact Hi |].
  now repeat split.
Qed.

(** X18.  Replacing the samples of a profile is not atomic: when the checks
    pass and the store accepts the update but refuses the new links, the call
    fails, and by then it has asked the store to update the profile and to
    delete the old links, whose answer it does not look at. *)
Theorem replace_fails_after_delete (args : Create.args) (r : Create.replies)
        (profile : Create.stored) (e : jsstring) :
  checks_pass args r ->
  replacing args = true ->
  Create.profileReply r = inl profile ->
  Create.associationError r = Some e ->
  fst (createStyleProfile args r)
  = Thrown (js "Failed to create style profile: "
               ++ js "Failed to create profile-sample associations: " ++ e)
  /\ exists styleParameters,
       snd (createStyleProfile args r)
       = [profile_write args styleParameters;
          Create.DeleteAssociations (text_of (Create.profileId args));
          Create.InsertAssociations
            (associations_of profile (Create.sampleIds args))]
       /\ exists id n d g uc pj,
            profile_write args styleParameters
            = Create.UpdateProfile id n d styleParameters g uc pj
            /\ Create.profileId args = Some id.
Proof.
  intros (H1 & H2 & H3 & H4 & H5) Hrep Hp He. unfold createStyleProfile.
  destruct (parameters_cases (fetched_of args r))
    as [(composite & -> & _) | (reason & E)].
  2: { exfalso. revert E. unfold createStyleProfile_parameters, fetched_of.
       cbn [Fetched.analyses Fetched.samplesError Fetched.samples
            Fetched.sampleIds Fetched.analysesError].
       rewrite H1, H3, H2, Nat.eqb_refl. cbn [is_some throw_if bind negb].
       destruct (Create.analyses r) as [| a l]; [now elim H4 |].
       cbn [length Nat.eqb throw_if bind].
       destruct (combineMetrics (a :: l)); discriminate. }
  destruct (merge_authors_cases args r composite) as [[-> _] | (reason & E)].
  2: { exfalso. revert E. unfold merge_authors, authors_request.
       cbn [Authors.profileId Authors.addToExisting Authors.comparableAuthors
            Authors.existingError Authors.existingAuthors].
       destruct (truthy_string (Create.profileId args)
                 && Create.addToExisting args) eqn:Em; [| discriminate].
       rewrite (H5 eq_refl). discriminate. }
  unfold save_profile. rewrite Hp, He. unfold replacing in Hrep.
  rewrite Hrep. cbn [fst snd rewrap app].
  split; [reflexivity |]. eexists. split; [reflexivity |].
  unfold profile_write. apply andb_prop in Hrep. destruct Hrep as [Ht _].
  rewrite Ht. destruct (Create.profileId args) as [id |]; [| discriminate Ht].
  do 6 eexists. split; reflexivity.
Qed.

Lemma replace_fails_after_delete_witness :
  fst (createStyleProfile replace_samples link_fails)
  = Thrown (js "Failed to create style profile: "
               ++ js "Failed to create profile-sample associations: "
               ++ js "timeout")
  /\ exists styleParameters,
       snd (createStyleProfile replace_samples link_fails)
       = [profile_write replace_samples styleParameters;
          Create.DeleteAssociations (text_of (Create.profileId replace_samples));
          Create.InsertAssociations
            (associations_of
               {| Create.stored_id := js "p1";
                  Create.stored_name := Some (js "Noir");
                  Create.stored_description := None |}
               (Create.sampleIds replace_samples))]
       /\ exists id n d g uc pj,
            profile_write replace_samples styleParameters
            = Create.UpdateProfile id n d styleParameters g uc pj
            /\ Create.profileId replace_samples = Some id.
Proof.
  apply (replace_fails_after_delete replace_samples link_fails).
  - unfold checks_pass. cbn. repeat split; try reflexivity; discriminate.
  - reflexivity.
  - reflexivity.
  - reflexivity.
Defined.
